(** * Template rendering utilities (Jinja2-style) of SWE-agent, in Rocq

    A shallow embedding of the template module: [renderTemplate] with its
    four regular-expression driven stages ([handleConditionals],
    [handleForLoops], [handleVariables], [handleFilters]), the helpers
    [getNestedValue], [evaluateCondition] and [applyFilter], and the two
    exported utilities [escapeTemplate] and [hasTemplateSyntax].

    Strings are sequences of UTF-16 code units ([list N]).  Regular
    expressions are modelled by a small syntax tree and a backtracking
    matcher written with continuations, the way ECMAScript defines
    matching; each pattern of the source is transcribed as a value of
    that syntax tree.

    A context holds template data: strings, numbers, booleans, [null],
    [undefined], arrays and plain objects.  A lookup follows the
    prototype chain as [in] and the brackets do, so that a name such as
    [constructor] gives a built-in function; what the engine takes from
    the host in this respect is gathered in the class [Host].  A call
    that can raise returns a [result]: [String] raises a TypeError on an
    object with a property [toString] of its own, and the stages pass
    the exception on. *)

From Stdlib Require Import NArith ZArith String Ascii List Bool Arith Lia DecimalString DecimalNat.
From stdpp Require Import gmap list.
Set Warnings "-register-all".

(** ** Strings *)

(** A JavaScript string: its UTF-16 code units. *)
Abbreviation str := (list N).

(** The code units of an ASCII literal of the source. *)
Definition js (s : string) : str := map N_of_ascii (list_ascii_of_string s).
Arguments js s%_string.

Definition dquote : N := 34.
Definition squote : N := 39.
Definition backslash : N := 92.
Definition newline : str := [10%N].

Definition str_eqb (a b : str) : bool := bool_decide (a = b).

(** [s.startsWith(l)], returning what follows [l]. *)
Fixpoint strip_prefix (l s : str) : option str :=
  match l with
  | [] => Some s
  | a :: l' =>
      match s with
      | b :: s' => if N.eqb a b then strip_prefix l' s' else None
      | [] => None
      end
  end.

Definition startsWith (s l : str) : bool :=
  match strip_prefix l s with Some _ => true | None => false end.

(** The part of [s] read before reaching its suffix [s']. *)
Definition consumed (s s' : str) : str := take (length s - length s') s.

(** ECMAScript WhiteSpace and LineTerminator code units: what [\s] matches
    and what [trim] removes. *)
Definition is_line_terminator (a : N) : bool :=
  (a =? 10)%N || (a =? 13)%N || (a =? 8232)%N || (a =? 8233)%N.

Definition is_space (a : N) : bool :=
  (a =? 9)%N || (a =? 10)%N || (a =? 11)%N || (a =? 12)%N || (a =? 13)%N
  || (a =? 32)%N || (a =? 160)%N || (a =? 5760)%N
  || ((8192 <=? a)%N && (a <=? 8202)%N)
  || (a =? 8232)%N || (a =? 8233)%N || (a =? 8239)%N || (a =? 8287)%N
  || (a =? 12288)%N || (a =? 65279)%N.

(** [\w]: ASCII letters, digits and the underscore. *)
Definition is_word (a : N) : bool :=
  ((48 <=? a)%N && (a <=? 57)%N) || ((65 <=? a)%N && (a <=? 90)%N)
  || ((97 <=? a)%N && (a <=? 122)%N) || (a =? 95)%N.

Fixpoint trimStart (s : str) : str :=
  match s with
  | a :: s' => if is_space a then trimStart s' else s
  | [] => []
  end.

Definition trimEnd (s : str) : str := rev (trimStart (rev s)).

Definition trim (s : str) : str := trimEnd (trimStart s).

Definition is_digit (a : N) : bool := (48 <=? a)%N && (a <=? 57)%N.

(** The decimal numeral of a natural number: the name of an index. *)
Definition nat_to_str (n : nat) : str := js (NilEmpty.string_of_uint (Nat.to_uint n)).

(** [parts.join(sep)] on strings. *)
Fixpoint join (sep : str) (parts : list str) : str :=
  match parts with
  | [] => []
  | [p] => p
  | p :: rest => p ++ sep ++ join sep rest
  end.

(** [s.split(c)] for a one-unit separator: at least one part. *)
Fixpoint split (c : N) (s : str) : list str :=
  match s with
  | [] => [[]]
  | a :: s' =>
      if N.eqb a c then [] :: split c s'
      else match split c s' with
           | p :: ps => (a :: p) :: ps
           | [] => [[a]]
           end
  end.

(** [s] holds no white space. *)
Definition no_space (s : str) : bool := forallb (fun a => negb (is_space a)) s.

(** The rest of [s] after its longest prefix of units in [p]. *)
Fixpoint drop_while (p : N -> bool) (s : str) : str :=
  match s with
  | a :: s' => if p a then drop_while p s' else s
  | [] => []
  end.

(** [l] occurs somewhere in [s]. *)
Fixpoint occurs (l s : str) : bool :=
  startsWith s l || match s with [] => false | _ :: s' => occurs l s' end.

(** ** Regular expressions *)

Inductive cclass :=
  | CDot                      (* .  without the s flag *)
  | CAll                      (* .  with the s flag *)
  | CSpace                    (* \s *)
  | CWord                     (* \w *)
  | COneOf (l : list N)       (* [...] *)
  | CNoneOf (l : list N)      (* [^...] *)
  | CUnion (a b : cclass).

Fixpoint cmatch (p : cclass) (a : N) : bool :=
  match p with
  | CDot => negb (is_line_terminator a)
  | CAll => true
  | CSpace => is_space a
  | CWord => is_word a
  | COneOf l => existsb (N.eqb a) l
  | CNoneOf l => negb (existsb (N.eqb a) l)
  | CUnion x y => cmatch x a || cmatch y a
  end.

(** The patterns of the source need: literals, one-unit atoms, sequence,
    alternation, greedy and lazy repetition of a one-unit atom, and
    capture groups.  [r?] is [RAlt r REmpty] and [p+] is
    [RSeq (RChar p) (RStar true p)]. *)
Inductive regex :=
  | REmpty
  | RLit (l : str)
  | RChar (p : cclass)
  | RSeq (r1 r2 : regex)
  | RAlt (r1 r2 : regex)
  | RStar (greedy : bool) (p : cclass)
  | RGroup (i : nat) (r : regex).

Definition ROpt (r : regex) : regex := RAlt r REmpty.
Definition RPlus (p : cclass) : regex := RSeq (RChar p) (RStar true p).

Declare Scope regex_scope.
Delimit Scope regex_scope with re.
Bind Scope regex_scope with regex.
Infix "&>" := RSeq (at level 60, right associativity) : regex_scope.

(** Capture groups: [None] is a group that did not take part. *)
Definition caps := nat -> option str.
Definition no_caps : caps := fun _ => None.
Definition set_cap (i : nat) (x : str) (c : caps) : caps :=
  fun j => if Nat.eqb j i then Some x else c j.

(** A match state that reached the end of the pattern: the rest of the
    input and the captures. *)
Definition mres := option (str * caps).

(** Repetition of a one-unit atom, trying the longest run first when
    greedy and the shortest first when lazy. *)
Fixpoint rstar (p : N -> bool) (greedy : bool) (s : str) (k : str -> mres) : mres :=
  match s with
  | a :: s' =>
      if p a then
        if greedy then
          match rstar p greedy s' k with Some r => Some r | None => k s end
        else
          match k s with Some r => Some r | None => rstar p greedy s' k end
      else k s
  | [] => k s
  end.

(** The backtracking matcher: [rmatch r s c k] matches [r] at the start of
    [s] and hands the rest to the continuation [k]; the first success in
    priority order is the result. *)
Fixpoint rmatch (r : regex) (s : str) (c : caps) (k : str -> caps -> mres) : mres :=
  match r with
  | REmpty => k s c
  | RLit l => match strip_prefix l s with Some s' => k s' c | None => None end
  | RChar p =>
      match s with
      | a :: s' => if cmatch p a then k s' c else None
      | [] => None
      end
  | RSeq r1 r2 => rmatch r1 s c (fun s' c' => rmatch r2 s' c' k)
  | RAlt r1 r2 =>
      match rmatch r1 s c k with
      | Some x => Some x
      | None => rmatch r2 s c k
      end
  | RStar g p => rstar (cmatch p) g s (fun s' => k s' c)
  | RGroup i r => rmatch r s c (fun s' c' => k s' (set_cap i (consumed s s') c'))
  end.

Definition accept : str -> caps -> mres := fun s c => Some (s, c).

(** A match of [r] starting exactly at the head of [s]: the matched text
    and the captures. *)
Definition match_here (r : regex) (s : str) : option (str * caps) :=
  match rmatch r s no_caps accept with
  | Some (rest, c) => Some (consumed s rest, c)
  | None => None
  end.

(** [s.match(r)] / [r.exec(s)] for a pattern without the g flag: the
    leftmost match. *)
Fixpoint search (r : regex) (s : str) : option (str * caps) :=
  match match_here r s with
  | Some x => Some x
  | None =>
      match s with
      | [] => None
      | _ :: s' => search r s'
      end
  end.

(** [r.test(s)]. *)
Definition test (r : regex) (s : str) : bool :=
  match search r s with Some _ => true | None => false end.

(** What a global scan of [s] meets from left to right: a code unit that
    no match covers, or a match with its captures. *)
Inductive piece :=
  | PChar (a : N)
  | PMatch (m : str) (c : caps).

(** The successive matches of a pattern with the g flag.  [skip] counts
    the code units still covered by the last match.  After an empty match
    the scan moves on by one unit, and the end of the input is tried too. *)
Fixpoint scan (r : regex) (s : str) (skip : nat) : list piece :=
  match skip with
  | S sk =>
      match s with
      | [] => []
      | _ :: s' => scan r s' sk
      end
  | 0 =>
      match match_here r s with
      | Some (m, c) =>
          PMatch m c ::
          match s with
          | [] => []
          | a :: s' =>
              match length m with
              | 0 => PChar a :: scan r s' 0
              | S n => scan r s' n
              end
          end
      | None =>
          match s with
          | [] => []
          | a :: s' => PChar a :: scan r s' 0
          end
      end
  end.

(** The text that stands for a piece in the result of a replacement. *)
Definition fill (f : str -> caps -> str) (p : piece) : str :=
  match p with PChar a => [a] | PMatch m c => f m c end.

(** [s.replace(r, f)] for a global pattern and a replacer function. *)
Definition replace (r : regex) (f : str -> caps -> str) (s : str) : str :=
  concat (map (fill f) (scan r s 0)).

(** ** escapeTemplate and hasTemplateSyntax *)

(** [/{{/g], [/}}/g], [/{%/g], [/%}/g] *)
Definition re_open_var : regex := RLit (js "{{").
Definition re_close_var : regex := RLit (js "}}").
Definition re_open_tag : regex := RLit (js "{%").
Definition re_close_tag : regex := RLit (js "%}").

Definition escapeTemplate (s : str) : str :=
  replace re_close_tag (fun _ _ => js "\%\}")
    (replace re_open_tag (fun _ _ => js "\{\%")
       (replace re_close_var (fun _ _ => js "\}\}")
          (replace re_open_var (fun _ _ => js "\{\{") s))).

(** [/{{.*?}}|{%.*?%}/] *)
Definition re_syntax : regex :=
  RAlt (RLit (js "{{") &> RStar false CDot &> RLit (js "}}"))
       (RLit (js "{%") &> RStar false CDot &> RLit (js "%}")).

Definition hasTemplateSyntax (s : str) : bool := test re_syntax s.

(** ** Values and the host functions *)

(** The entry of the key [k] in a table. *)
Fixpoint assoc {A} (k : str) (l : list (str * A)) : option A :=
  match l with
  | [] => None
  | (k', a) :: l' => if str_eqb k k' then Some a else assoc k l'
  end.

(** What the engine takes from the JavaScript host: numbers with their
    printing and truthiness, the case mappings of strings, and the
    built-in functions that every object and every array inherits from
    its prototype: the methods of [Object.prototype] and of
    [Array.prototype] by their names, none of which is a numeral, and the
    text [String] gives for such a function. *)
Class Host := {
  number : Type;
  num_to_string : number -> str;
  num_truthy : number -> bool;
  num_of_nat : nat -> number;
  toUpperCase : str -> str;
  toLowerCase : str -> str;
  builtin : Type;
  builtin_to_string : builtin -> str;
  object_methods : list (str * builtin);
  array_methods : list (str * builtin);
  num_zero_falsy : num_truthy (num_of_nat 0) = false;
  object_methods_named :
    forallb (fun e => negb (forallb is_digit (fst e))) object_methods = true;
  array_methods_named :
    forallb (fun e => negb (forallb is_digit (fst e))) array_methods = true;
  object_has_constructor : is_Some (assoc (js "constructor") object_methods);
  object_has_toString : is_Some (assoc (js "toString") object_methods)
}.

(** A host whose numbers are the integers, printed in decimal, whose
    case mappings act on ASCII letters, and whose prototypes hold the
    methods of a current Node.js; a built-in function is known by its
    name. *)
Definition ascii_upper (a : N) : N :=
  if ((97 <=? a) && (a <=? 122))%N then (a - 32)%N else a.
Definition ascii_lower (a : N) : N :=
  if ((65 <=? a) && (a <=? 90))%N then (a + 32)%N else a.

Definition node_object_methods : list str :=
  [js "constructor"; js "__defineGetter__"; js "__defineSetter__"; js "hasOwnProperty";
   js "__lookupGetter__"; js "__lookupSetter__"; js "isPrototypeOf";
   js "propertyIsEnumerable"; js "toString"; js "valueOf"; js "toLocaleString"].

Definition node_array_methods : list str :=
  [js "constructor"; js "at"; js "concat"; js "copyWithin"; js "fill"; js "find";
   js "findIndex"; js "findLast"; js "findLastIndex"; js "lastIndexOf"; js "pop"; js "push";
   js "reverse"; js "shift"; js "unshift"; js "slice"; js "sort"; js "splice";
   js "includes"; js "indexOf"; js "join"; js "keys"; js "entries"; js "values";
   js "forEach"; js "filter"; js "flat"; js "flatMap"; js "map"; js "every"; js "some";
   js "reduce"; js "reduceRight"; js "toLocaleString"; js "toString"; js "toReversed";
   js "toSorted"; js "toSpliced"; js "with"].

(** A built-in function is known by its name: the methods carry the name
    of their property, and [constructor] is the function [ctor]. *)
Definition methods_named (names : list str) (ctor : str) : list (str * str) :=
  map (fun k => (k, if str_eqb k (js "constructor") then ctor else k)) names.

#[export] Instance ZHost : Host := {|
  number := Z;
  num_to_string := fun z => js (NilZero.string_of_int (Z.to_int z));
  num_truthy := fun z => negb (Z.eqb z 0);
  num_of_nat := Z.of_nat;
  toUpperCase := map ascii_upper;
  toLowerCase := map ascii_lower;
  builtin := str;
  builtin_to_string := fun f => js "function " ++ f ++ js "() { [native code] }";
  object_methods := methods_named node_object_methods (js "Object");
  array_methods := methods_named node_array_methods (js "Array");
  num_zero_falsy := eq_refl;
  object_methods_named := eq_refl;
  array_methods_named := eq_refl;
  object_has_constructor := ex_intro _ (js "Object") eq_refl;
  object_has_toString := ex_intro _ (js "toString") eq_refl
|}.

(** The outcome of a call: a value, or an exception.  [OutOfFuel] stands
    for a recursion deeper than the model was given. *)
Inductive error := TypeError | OutOfFuel.

Inductive result (A : Type) :=
  | Ok (a : A)
  | Raise (e : error).
Arguments Ok {A} & a.
Arguments Raise {A} e.

#[export] Instance result_ret : MRet result := fun A a => Ok a.
#[export] Instance result_bind : MBind result := fun A B f m =>
  match m with
  | Ok a => f a
  | Raise e => Raise e
  end.

Fixpoint mapM_result {A B} (f : A -> result B) (l : list A) : result (list B) :=
  match l with
  | [] => Ok []
  | a :: l' => b ← f a; bs ← mapM_result f l'; Ok (b :: bs)
  end.

(** The same for a replacer that may raise. *)
Definition fillM (f : str -> caps -> result str) (p : piece) : result str :=
  match p with PChar a => Ok [a] | PMatch m c => f m c end.

(** [s.replace(r, f)] for a replacer that may raise. *)
Definition replaceM (r : regex) (f : str -> caps -> result str) (s : str) : result str :=
  ps ← mapM_result (fillM f) (scan r s 0);
  Ok (concat ps).

Section Engine.
Context {H : Host}.

(** Template data: the values a context can hold.  An object is a plain
    object, given by its own properties, and an array a plain array,
    given by its elements. *)
Inductive value :=
  | VUndef
  | VNull
  | VBool (b : bool)
  | VNum (n : number)
  | VStr (s : str)
  | VArr (l : list value)
  | VObj (m : gmap str value).

#[local] Abbreviation context := (gmap str value).

(** What the engine can hold at run time: template data, or one of the
    built-in objects that data inherits from, which a lookup of an
    inherited name gives: a built-in function, [Object.prototype] or
    [Array.prototype]. *)
Inductive jsvalue :=
  | Data (v : value)
  | Builtin (f : builtin)
  | ObjectPrototype
  | ArrayPrototype.

Coercion Data : value >-> jsvalue.

(** [Boolean(v)] *)
Definition ToBoolean (v : jsvalue) : bool :=
  match v with
  | Data VUndef | Data VNull => false
  | Data (VBool b) => b
  | Data (VNum n) => num_truthy n
  | Data (VStr s) => match s with [] => false | _ => true end
  | _ => true
  end.

(** [String(v)] on template data.  An array prints its elements separated
    by commas, with nothing for [undefined] and [null].  A plain object
    prints as [[object Object]] through the [toString] it inherits; when
    it has a property [toString] of its own, that property is data and
    cannot be called, [valueOf] gives no primitive, and the conversion
    raises a TypeError. *)
Fixpoint string_of (v : value) : result str :=
  match v with
  | VUndef => Ok (js "undefined")
  | VNull => Ok (js "null")
  | VBool true => Ok (js "true")
  | VBool false => Ok (js "false")
  | VNum n => Ok (num_to_string n)
  | VStr s => Ok s
  | VArr l =>
      parts ← mapM_result
                (fun x => match x with VUndef | VNull => Ok [] | _ => string_of x end) l;
      Ok (join (js ",") parts)
  | VObj m =>
      if bool_decide (is_Some (m !! js "toString")) then Raise TypeError
      else Ok (js "[object Object]")
  end.

(** [String(v)] *)
Definition ToString (v : jsvalue) : result str :=
  match v with
  | Data d => string_of d
  | Builtin f => Ok (builtin_to_string f)
  | ObjectPrototype => Ok (js "[object Object]")
  | ArrayPrototype => Ok []
  end.

(** [l.join(sep)] on an array of values. *)
Definition array_join (l : list value) (sep : str) : result str :=
  parts ← mapM_result
            (fun x => match x with VUndef | VNull => Ok [] | _ => string_of x end) l;
  Ok (join sep parts).

(** [typeof v === 'object'] *)
Definition typeof_object (v : jsvalue) : bool :=
  match v with
  | Data VNull | Data (VArr _) | Data (VObj _) | ObjectPrototype | ArrayPrototype => true
  | _ => false
  end.

(** The elements of an array, for a value that [Array.isArray] accepts;
    [Array.prototype] is an array without elements. *)
Definition elements (v : jsvalue) : option (list value) :=
  match v with
  | Data (VArr l) => Some l
  | ArrayPrototype => Some []
  | _ => None
  end.

Definition isArray (v : jsvalue) : bool :=
  match elements v with Some _ => true | None => false end.

Definition typeof_string (v : jsvalue) : bool :=
  match v with Data (VStr _) => true | _ => false end.

(** The own properties of an array: its indices and [length]. *)
Definition array_get (l : list value) (k : str) : option value :=
  if str_eqb k (js "length") then Some (VNum (num_of_nat (length l)))
  else
    match list_find (fun i => nat_to_str i = k) (seq 0 (length l)) with
    | Some (_, i) => l !! i
    | None => None
    end.

(** The methods of the two prototypes, by name. *)
Definition object_method (k : str) : option builtin := assoc k object_methods.
Definition array_method (k : str) : option builtin := assoc k array_methods.

(** The properties of [Object.prototype], as an object whose prototype
    is [proto] reads them: the methods, and the accessor [__proto__]. *)
Definition object_prototype_get (proto : jsvalue) (k : str) : option jsvalue :=
  if str_eqb k (js "__proto__") then Some proto
  else
    match object_method k with
    | Some f => Some (Builtin f)
    | None => None
    end.

(** The own properties of [Array.prototype]: [length] and the methods. *)
Definition array_prototype_get (k : str) : option jsvalue :=
  if str_eqb k (js "length") then Some (Data (VNum (num_of_nat 0)))
  else
    match array_method k with
    | Some f => Some (Builtin f)
    | None => None
    end.

(** The property [k] of an object [v], its own or the one it inherits
    along the prototype chain; [None] when [v] has no such property.  The
    objects are the plain objects and arrays of the data and the two
    prototypes. *)
Definition find_property (v : jsvalue) (k : str) : option jsvalue :=
  match v with
  | Data (VObj m) =>
      match m !! k with
      | Some x => Some (Data x)
      | None => object_prototype_get ObjectPrototype k
      end
  | Data (VArr l) =>
      match array_get l k with
      | Some x => Some (Data x)
      | None =>
          match array_prototype_get k with
          | Some x => Some x
          | None => object_prototype_get ArrayPrototype k
          end
      end
  | ArrayPrototype =>
      match array_prototype_get k with
      | Some x => Some x
      | None => object_prototype_get ObjectPrototype k
      end
  | ObjectPrototype => object_prototype_get (Data VNull) k
  | _ => None
  end.

(** [k in v], for an object [v]. *)
Definition has_property (k : str) (v : jsvalue) : bool :=
  match find_property v k with Some _ => true | None => false end.

(** [v[k]], for an object [v]. *)
Definition get_property (v : jsvalue) (k : str) : jsvalue :=
  match find_property v k with Some x => x | None => Data VUndef end.

(** [context[k]] on the context object. *)
Definition ctx_get (ctx : context) (k : str) : jsvalue := get_property (Data (VObj ctx)) k.

(** [v.length], for an array or a string [v]. *)
Definition get_length (v : jsvalue) : jsvalue :=
  match v with
  | Data (VStr s) => Data (VNum (num_of_nat (length s)))
  | _ => get_property v (js "length")
  end.

(** [a === s] for a string [s]. *)
Definition strict_eq_str (a : jsvalue) (s : str) : bool :=
  match a with
  | Data (VStr x) => str_eqb x s
  | _ => false
  end.

(** A capture group that takes part in every match of its pattern. *)
Definition cap (c : caps) (i : nat) : str := default [] (c i).

(** ** getNestedValue *)

Fixpoint walk_parts (parts : list str) (current : jsvalue) : result jsvalue :=
  match parts with
  | [] => Ok current
  | part :: rest =>
      if ToBoolean current then
        if typeof_object current then
          if has_property part current then walk_parts rest (get_property current part)
          else Ok (Data VUndef)
        else Ok (Data VUndef)
      else Ok (Data VUndef)
  end.

Definition getNestedValue (obj : jsvalue) (path : str) : result jsvalue :=
  walk_parts (split 46 path) obj.

(** ** evaluateCondition *)

Definition quote_class : cclass := COneOf [dquote; squote].
Definition nonquote_class : cclass := CNoneOf [dquote; squote].

(** [/(\w+)\s*==\s*[Q]([^Q]+)[Q]/], where [Q] stands for the double and
    the single quote. *)
Definition re_eq : regex :=
  RGroup 1 (RPlus CWord) &> RStar true CSpace &> RLit (js "==") &> RStar true CSpace
  &> RChar quote_class &> RGroup 2 (RPlus nonquote_class) &> RChar quote_class.

(** [/(\w+)\s*!=\s*[Q]([^Q]+)[Q]/] *)
Definition re_neq : regex :=
  RGroup 1 (RPlus CWord) &> RStar true CSpace &> RLit (js "!=") &> RStar true CSpace
  &> RChar quote_class &> RGroup 2 (RPlus nonquote_class) &> RChar quote_class.

Definition evaluateCondition (condition : str) (ctx : context) : bool :=
  if has_property condition (Data (VObj ctx)) then ToBoolean (ctx_get ctx condition)
  else
    match search re_eq condition with
    | Some (_, c) => strict_eq_str (ctx_get ctx (cap c 1)) (cap c 2)
    | None =>
        match search re_neq condition with
        | Some (_, c) => negb (strict_eq_str (ctx_get ctx (cap c 1)) (cap c 2))
        | None =>
            if startsWith condition (js "not ") then
              negb (ToBoolean (ctx_get ctx (trim (drop 4 condition))))
            else false
        end
    end.

(** ** applyFilter *)

(** [/(\w+)(?:\(([^)]* )\))?/]; here and below, a blank written between
    a star and a closing parenthesis is not part of the pattern. *)
Definition re_filter_call : regex :=
  RGroup 1 (RPlus CWord)
  &> ROpt (RLit (js "(") &> RGroup 2 (RStar true (CNoneOf [41%N])) &> RLit (js ")")).

(** [/[Q]([^Q]+)[Q]/] *)
Definition re_quoted : regex :=
  RChar quote_class &> RGroup 1 (RPlus nonquote_class) &> RChar quote_class.

(** [/[Q]/g] *)
Definition re_quote : regex := RChar quote_class.

Definition capitalize (s : str) : str :=
  toUpperCase (take 1 s) ++ toLowerCase (drop 1 s).

Definition applyFilter (v : jsvalue) (filterStr : str) : result jsvalue :=
  match search re_filter_call filterStr with
  | None => Ok v
  | Some (_, c) =>
      let filterName := cap c 1 in
      let filterArgs := c 2 in
      if str_eqb filterName (js "default") then
        match v with
        | Data VUndef | Data VNull | Data (VStr []) =>
            let defaultMatch :=
              match filterArgs with
              | Some args => search re_quoted args
              | None => None
              end in
            match defaultMatch with
            | Some (_, d) => Ok (Data (VStr (cap d 1)))
            | None => Ok (Data (VStr []))
            end
        | _ => Ok v
        end
      else if str_eqb filterName (js "upper") then
        s ← ToString v; Ok (Data (VStr (toUpperCase s)))
      else if str_eqb filterName (js "lower") then
        s ← ToString v; Ok (Data (VStr (toLowerCase s)))
      else if str_eqb filterName (js "capitalize") then
        s ← ToString v; Ok (Data (VStr (capitalize s)))
      else if str_eqb filterName (js "length") then
        if isArray v || typeof_string v then Ok (get_length v)
        else Ok (Data (VNum (num_of_nat 0)))
      else if str_eqb filterName (js "join") then
        match elements v with
        | Some l =>
            let stripped :=
              match filterArgs with
              | Some args => Some (replace re_quote (fun _ _ => []) args)
              | None => None
              end in
            let separator :=
              match stripped with
              | Some ((_ :: _) as sep) => sep
              | _ => js ", "
              end in
            s ← array_join l separator; Ok (Data (VStr s))
        | None => Ok v
        end
      else Ok v
  end.

(** ** The four stages *)

(** [/{%\s*if\s+(.*?)\s*%}(.*?)(?:{%\s*else\s*%}(.*?))?{%\s*endif\s*%}/gs] *)
Definition re_conditional : regex :=
  RLit (js "{%") &> RStar true CSpace &> RLit (js "if") &> RPlus CSpace
  &> RGroup 1 (RStar false CAll) &> RStar true CSpace &> RLit (js "%}")
  &> RGroup 2 (RStar false CAll)
  &> ROpt (RLit (js "{%") &> RStar true CSpace &> RLit (js "else") &> RStar true CSpace
           &> RLit (js "%}") &> RGroup 3 (RStar false CAll))
  &> RLit (js "{%") &> RStar true CSpace &> RLit (js "endif") &> RStar true CSpace
  &> RLit (js "%}").

Definition handleConditionals (template : str) (ctx : context) : str :=
  replace re_conditional
    (fun _ c =>
       let condition := cap c 1 in
       let ifBlock := cap c 2 in
       let elseBlock := default [] (c 3) in
       if evaluateCondition condition ctx then ifBlock else elseBlock)
    template.

(** [/{%\s*for\s+(\w+)\s+in\s+(\w+)\s*%}(.*?){%\s*endfor\s*%}/gs] *)
Definition re_for : regex :=
  RLit (js "{%") &> RStar true CSpace &> RLit (js "for") &> RPlus CSpace
  &> RGroup 1 (RPlus CWord) &> RPlus CSpace &> RLit (js "in") &> RPlus CSpace
  &> RGroup 2 (RPlus CWord) &> RStar true CSpace &> RLit (js "%}")
  &> RGroup 3 (RStar false CAll)
  &> RLit (js "{%") &> RStar true CSpace &> RLit (js "endfor") &> RStar true CSpace
  &> RLit (js "%}").

(** [render] is the recursive call to [renderTemplate]. *)
Definition handleForLoops (render : str -> context -> result str)
    (template : str) (ctx : context) : result str :=
  replaceM re_for
    (fun _ c =>
       let itemName := cap c 1 in
       let listName := cap c 2 in
       let loopBody := cap c 3 in
       match elements (ctx_get ctx listName) with
       | Some items =>
           outs ← mapM_result
                    (fun item =>
                       let loopContext := <[itemName := item]> ctx in
                       render loopBody loopContext)
                    items;
           Ok (concat outs)
       | None => Ok []
       end)
    template.

Definition path_class : cclass := CUnion CWord (COneOf [46%N]).

(** [/{{(\s*[\w.]+\s* )}}/g] *)
Definition re_variable : regex :=
  RLit (js "{{")
  &> RGroup 1 (RStar true CSpace &> RPlus path_class &> RStar true CSpace)
  &> RLit (js "}}").

Definition handleVariables (template : str) (ctx : context) : result str :=
  replaceM re_variable
    (fun m c =>
       let trimmedVar := trim (cap c 1) in
       v ← getNestedValue (Data (VObj ctx)) trimmedVar;
       match v with
       | Data VUndef => Ok m
       | _ => ToString v
       end)
    template.

(** [/{{(\s*[\w.]+\s*\|\s*\w+(?:\([^)]*\))?)\s*}}/g] *)
Definition re_filter : regex :=
  RLit (js "{{")
  &> RGroup 1 (RStar true CSpace &> RPlus path_class &> RStar true CSpace
               &> RLit (js "|") &> RStar true CSpace &> RPlus CWord
               &> ROpt (RLit (js "(") &> RStar true (CNoneOf [41%N]) &> RLit (js ")")))
  &> RStar true CSpace &> RLit (js "}}").

Definition handleFilters (template : str) (ctx : context) : result str :=
  replaceM re_filter
    (fun m c =>
       let parts := map trim (split 124 (cap c 1)) in
       let variable := hd [] parts in
       let filterParts := tl parts in
       v ← getNestedValue (Data (VObj ctx)) variable;
       v' ← match filterParts with
            | [] => Ok v
            | _ => applyFilter v (join (js "|") filterParts)
            end;
       match v' with
       | Data VUndef => Ok m
       | _ => ToString v'
       end)
    template.

(** ** renderTemplate *)

(** The body of [renderTemplate]; [fuel] bounds the depth of the
    recursion through loop bodies. *)
Fixpoint render_fuel (fuel : nat) (template : str) (ctx : context) : result str :=
  match fuel with
  | 0 => Raise OutOfFuel
  | S fuel' =>
      match template with
      | [] => Ok []
      | _ =>
          let r1 := handleConditionals template ctx in
          r2 ← handleForLoops (render_fuel fuel') r1 ctx;
          r3 ← handleVariables r2 ctx;
          handleFilters r3 ctx
      end
  end.

(** A loop body is shorter than the template it stands in, so the length
    of the template is fuel enough. *)
Definition renderTemplate (template : str) (ctx : context) : result str :=
  render_fuel (S (length template)) template ctx.

End Engine.

Arguments value : clear implicits.
Arguments value {H}.
Arguments jsvalue : clear implicits.
Arguments jsvalue {H}.

(** A rendering context: the own properties of the context object. *)
Abbreviation context := (gmap str value).

(** ** Shapes of well-formed constructs

    What the statements below assume of the pieces of a construct. *)

(** An identifier: one or more units of [\w]. *)
Definition is_identifier (s : str) : bool :=
  match s with [] => false | _ => forallb is_word s end.

(** One of the two quote characters. *)
Definition is_quote (q : N) : Prop := q = dquote \/ q = squote.

(** A literal argument as the filter patterns can delimit it: without a
    quote and without a closing parenthesis. *)
Definition plain_literal (lit : str) : bool :=
  forallb (fun a => cmatch nonquote_class a && cmatch (CNoneOf [41%N]) a) lit.

(** The two comparison patterns differ in the operator only. *)
Definition re_compare (op : str) : regex :=
  RGroup 1 (RPlus CWord) &> RStar true CSpace &> RLit op &> RStar true CSpace
  &> RChar quote_class &> RGroup 2 (RPlus nonquote_class) &> RChar quote_class.

(** [r] matches at the head of [s]. *)
Definition matches_at (r : regex) (s : str) : bool :=
  match rmatch r s no_caps accept with Some _ => true | None => false end.

(** [r] matches at no point of [body] when [tail] follows it: the lazy
    capture of [body] in front of [r] runs to the end of [body]. *)
Fixpoint no_match_inside (r : regex) (body tail : str) : bool :=
  match body with
  | [] => true
  | _ :: body' => negb (matches_at r (body ++ tail)) && no_match_inside r body' tail
  end.

(** The closing tags, as the block patterns spell them. *)
Definition re_else_tag : regex :=
  RLit (js "{%") &> RStar true CSpace &> RLit (js "else") &> RStar true CSpace
  &> RLit (js "%}").

Definition re_endif_tag : regex :=
  RLit (js "{%") &> RStar true CSpace &> RLit (js "endif") &> RStar true CSpace
  &> RLit (js "%}").

Definition re_endfor_tag : regex :=
  RLit (js "{%") &> RStar true CSpace &> RLit (js "endfor") &> RStar true CSpace
  &> RLit (js "%}").

(** A condition as the tag pattern can delimit it: not empty, without
    white space at either end, and without a percent sign. *)
Definition is_condition (c : str) : bool :=
  match c, rev c with
  | a :: _, b :: _ =>
      negb (is_space a) && negb (is_space b) && forallb (fun u => negb (u =? 37)%N) c
  | _, _ => false
  end.

(** Conditional blocks written with single blanks, with and without an
    else branch. *)
Definition if_else_block (c A B : str) : str :=
  js "{% if " ++ c ++ js " %}" ++ A ++ js "{% else %}" ++ B ++ js "{% endif %}".

Definition if_block (c A : str) : str :=
  js "{% if " ++ c ++ js " %}" ++ A ++ js "{% endif %}".

(** A dotted path: one or more units of [[\w.]]. *)
Definition is_path (p : str) : bool :=
  match p with [] => false | _ => forallb (cmatch path_class) p end.

(** A placeholder [{{ path }}], with the white space around the path. *)
Definition placeholder (w1 path w2 : str) : str :=
  js "{{" ++ w1 ++ path ++ w2 ++ js "}}".

(** A filter with or without an argument list: [name] or [name(arg)]. *)
Definition filter_call (name : str) (arg : option str) : str :=
  name ++ match arg with Some a => js "(" ++ a ++ js ")" | None => [] end.

(** A placeholder [{{ path | call }}], with the white space around its
    parts. *)
Definition filter_placeholder (w1 path w2 w3 call w4 : str) : str :=
  js "{{" ++ w1 ++ path ++ w2 ++ js "|" ++ w3 ++ call ++ w4 ++ js "}}".

(** An argument list as the patterns can delimit it: without a closing
    parenthesis and without a vertical bar. *)
Definition is_argument (a : str) : bool :=
  forallb (fun u => negb (u =? 41)%N && negb (u =? 124)%N) a.

(** [s] is not empty and has no white space at either end. *)
Definition clean_ends (s : str) : bool :=
  match s, rev s with
  | a :: _, b :: _ => negb (is_space a) && negb (is_space b)
  | _, _ => false
  end.


(** [backslashed t e]: [e] is [t] with backslashes inserted. *)
Inductive backslashed : str -> str -> Prop :=
  | bs_nil : backslashed [] []
  | bs_keep (a : N) (t e : str) : backslashed t e -> backslashed (a :: t) (a :: e)
  | bs_insert (t e : str) : backslashed t e -> backslashed t (backslash :: e).

Definition remove_backslashes (s : str) : str :=
  filter (fun a => a <> backslash) s.

(** A loop written with single blanks. *)
Definition for_block (x xs body : str) : str :=
  js "{% for " ++ x ++ js " in " ++ xs ++ js " %}" ++ body ++ js "{% endfor %}".

(** What the loop stage puts in the place of a loop. *)
Definition loop_output {H : Host} (render : str -> context -> result str)
    (x body : str) (ctx : context) (target : jsvalue) : result str :=
  match elements target with
  | Some items =>
      outs ← mapM_result (fun item => render body (<[x := item]> ctx)) items;
      Ok (concat outs)
  | None => Ok []
  end.

(** The values the [default] filter replaces. *)
Definition is_missing {H : Host} (v : jsvalue) : bool :=
  match v with
  | Data VUndef | Data VNull | Data (VStr []) => true
  | _ => false
  end.

(** While a match proceeds, every capture fits in what has been read. *)
Definition caps_fit (n : nat) (s : str) (c : caps) : Prop :=
  length s <= n /\ forall i x, c i = Some x -> length x + length s <= n.

(** ** What the further statements speak of *)

(** A text without an opening brace. *)
Definition no_brace (s : str) : bool := forallb (fun a => negb (a =? 123)%N) s.

(** A text without a line terminator: what the dot of a pattern without
    the s flag can run over. *)
Definition on_one_line (s : str) : bool := forallb (fun a => negb (is_line_terminator a)) s.

(** A pair of markers with [body] between them, in a text. *)
Definition marked (open close pre body post : str) : str :=
  pre ++ open ++ body ++ close ++ post.

(** A text with its quotes taken out. *)
Definition without_quotes (s : str) : str :=
  List.filter (fun a => negb (cmatch quote_class a)) s.

(** A text without a closing parenthesis. *)
Definition no_paren (s : str) : bool := forallb (cmatch (CNoneOf [41%N])) s.

(** A key without a dot, and a key with one. *)
Definition dot_free (k : str) : bool := forallb (fun u => negb (u =? 46)%N) k.

Definition has_dot (k : str) : bool := existsb (fun u => (u =? 46)%N) k.

(** Neither an object nor an array. *)
Definition is_scalar {H : Host} (v : value) : bool :=
  match v with VObj _ | VArr _ => false | _ => true end.

(** A placeholder with two filters in a row. *)
Definition filter_chain (path f more : str) : str :=
  js "{{" ++ path ++ js "|" ++ f ++ js "|" ++ more ++ js "}}".

(** The opening tag of a loop. *)
Definition for_tag (x xs : str) : str := js "{% for " ++ x ++ js " in " ++ xs ++ js " %}".

(** A text without backslash. *)
Definition no_backslash (l : str) : bool := forallb (fun a => negb (a =? backslash)%N) l.

(** A run of white space that is not empty. *)
Definition is_gap (w : str) : bool :=
  match w with [] => false | _ => forallb is_space w end.

(** A tag [{% inner %}], with the white space inside its markers. *)
Definition tag (w1 inner w2 : str) : str := js "{%" ++ w1 ++ inner ++ w2 ++ js "%}".

(** A loop whose tags are laid out with the runs of white space [w1] to
    [w7]. *)
Definition for_block_laid (w1 w2 x w3 w4 xs w5 body w6 w7 : str) : str :=
  tag w1 (js "for" ++ w2 ++ x ++ w3 ++ js "in" ++ w4 ++ xs) w5
  ++ body ++ tag w6 (js "endfor") w7.

(** Conditional blocks whose tags are laid out with the given runs of
    white space. *)
Definition if_else_block_laid (w1 w2 c w3 A w4 w5 B w6 w7 : str) : str :=
  tag w1 (js "if" ++ w2 ++ c) w3 ++ A ++ tag w4 (js "else") w5 ++ B
  ++ tag w6 (js "endif") w7.

Definition if_block_laid (w1 w2 c w3 A w6 w7 : str) : str :=
  tag w1 (js "if" ++ w2 ++ c) w3 ++ A ++ tag w6 (js "endif") w7.

(** A call that ended: it returned, or it raised a TypeError. *)
Definition ended {A} (r : result A) : Prop :=
  match r with Raise OutOfFuel => False | _ => True end.



(** A name that every plain object inherits from [Object.prototype]: one
    of its methods, or [__proto__]. *)
Definition inherited_name {H : Host} (k : str) : bool :=
  str_eqb k (js "__proto__")
  || match object_method k with Some _ => true | None => false end.

(** What a placeholder stage puts in the place of the match [m] whose
    value is [v]: the match itself for [undefined], and [String(v)]
    otherwise. *)
Definition substituted {H : Host} (m : str) (v : jsvalue) : result str :=
  match v with
  | Data VUndef => Ok m
  | _ => ToString v
  end.


(** * Properties *)

(** ** Strings *)

Lemma consumed_app (a b : str) : consumed (a ++ b) b = a.
Proof.
  unfold consumed. rewrite length_app.
  replace (length a + length b - length b) with (length a) by lia.
  apply take_app_length.
Qed.

Lemma consumed_length (s s' : str) : length (consumed s s') <= length s.
Proof. unfold consumed. rewrite length_take. lia. Qed.

Lemma consumed_length_eq (s s' : str) :
  length s' <= length s -> length (consumed s s') = length s - length s'.
Proof. intros Hle. unfold consumed. rewrite length_take. lia. Qed.

Lemma strip_prefix_app (l s : str) : strip_prefix l (l ++ s) = Some s.
Proof.
  induction l as [|a l IH]; simpl; [reflexivity|].
  rewrite N.eqb_refl. exact IH.
Qed.

Lemma strip_prefix_Some (l s s' : str) : strip_prefix l s = Some s' -> s = l ++ s'.
Proof.
  revert s. induction l as [|a l IH]; intros s Hs; simpl in *.
  - congruence.
  - destruct s as [|b s]; [discriminate|].
    destruct (N.eqb_spec a b) as [->|]; [|discriminate].
    f_equal. apply IH, Hs.
Qed.

Lemma strip_prefix_None (l s : str) :
  (forall s', s <> l ++ s') -> strip_prefix l s = None.
Proof.
  intros Hne. destruct (strip_prefix l s) as [s'|] eqn:E; [|reflexivity].
  apply strip_prefix_Some in E. destruct (Hne s' E).
Qed.

Lemma trimStart_spaces (w s : str) :
  forallb is_space w = true -> trimStart (w ++ s) = trimStart s.
Proof.
  induction w as [|a w IH]; simpl; [reflexivity|].
  intros Hw. apply andb_true_iff in Hw as [Ha Hw]. rewrite Ha. auto.
Qed.

Lemma trimStart_stop (a : N) (s : str) :
  is_space a = false -> trimStart (a :: s) = a :: s.
Proof. intros Ha. simpl. rewrite Ha. reflexivity. Qed.

Lemma forallb_rev {A} (f : A -> bool) (l : list A) : forallb f (rev l) = forallb f l.
Proof.
  induction l as [|a l IH]; simpl; [reflexivity|].
  rewrite forallb_app, IH. simpl. rewrite andb_true_r. apply andb_comm.
Qed.

Lemma trimStart_all_spaces (w : str) : forallb is_space w = true -> trimStart w = [].
Proof.
  intros Hw. rewrite <- (app_nil_r w). rewrite trimStart_spaces by assumption.
  reflexivity.
Qed.

Lemma trimStart_no_space (s t : str) :
  no_space s = true -> s <> [] -> trimStart (s ++ t) = s ++ t.
Proof.
  destruct s as [|a s]; [congruence|]. simpl. intros Hs _.
  apply andb_true_iff in Hs as [Ha _]. apply negb_true_iff in Ha.
  rewrite Ha. reflexivity.
Qed.

Lemma trimEnd_spaces (s w : str) :
  forallb is_space w = true -> trimEnd (s ++ w) = trimEnd s.
Proof.
  intros Hw. unfold trimEnd. rewrite rev_app_distr.
  rewrite trimStart_spaces by (rewrite forallb_rev; assumption). reflexivity.
Qed.

Lemma trimEnd_no_space (s : str) : no_space s = true -> trimEnd s = s.
Proof.
  intros Hs. unfold trimEnd.
  assert (Hr : no_space (rev s) = true) by (unfold no_space; rewrite forallb_rev; exact Hs).
  destruct (rev s) as [|a r] eqn:E.
  - simpl. rewrite <- (rev_involutive s), E. reflexivity.
  - rewrite <- (app_nil_r (a :: r)).
    rewrite trimStart_no_space by (assumption || discriminate).
    rewrite app_nil_r, <- E. apply rev_involutive.
Qed.

(** [trim] removes the white space around a text without white space. *)
Lemma trim_spaces (w1 w2 core : str) :
  forallb is_space w1 = true -> forallb is_space w2 = true ->
  no_space core = true ->
  trim (w1 ++ core ++ w2) = core.
Proof.
  intros H1 H2 Hc. unfold trim. rewrite trimStart_spaces by assumption.
  destruct core as [|a core].
  - simpl. rewrite trimStart_all_spaces by assumption. reflexivity.
  - rewrite trimStart_no_space by (assumption || discriminate).
    rewrite trimEnd_spaces by assumption. apply trimEnd_no_space, Hc.
Qed.

(** ** The matcher *)

Lemma drop_while_app (p : N -> bool) (w s : str) :
  forallb p w = true -> drop_while p (w ++ s) = drop_while p s.
Proof.
  induction w as [|a w IH]; simpl; [reflexivity|].
  intros Hw. apply andb_true_iff in Hw as [Ha Hw]. rewrite Ha. auto.
Qed.

(** A greedy repetition first takes every unit it can. *)
Lemma rstar_greedy_intro (p : N -> bool) (s : str) (k : str -> mres) (x : str * caps) :
  k (drop_while p s) = Some x -> rstar p true s k = Some x.
Proof.
  induction s as [|a s IH]; simpl; [auto|].
  destruct (p a); [|auto].
  intros Hk. rewrite (IH Hk). reflexivity.
Qed.

(** A lazy repetition stops at the first point where the rest of the
    pattern matches. *)
Lemma rstar_lazy_intro (p : N -> bool) (w s : str) (k : str -> mres) (x : str * caps) :
  forallb p w = true ->
  (forall w1 w2, w = w1 ++ w2 -> w2 <> [] -> k (w2 ++ s) = None) ->
  k s = Some x ->
  rstar p false (w ++ s) k = Some x.
Proof.
  induction w as [|a w IH]; intros Hw Hfail Hk.
  - simpl. destruct s as [|b s]; simpl; [exact Hk|].
    destruct (p b); [rewrite Hk; reflexivity | exact Hk].
  - simpl in Hw. apply andb_true_iff in Hw as [Ha Hw].
    simpl. rewrite Ha.
    assert (H0 : k ((a :: w) ++ s) = None) by (apply (Hfail []); [reflexivity|discriminate]).
    simpl in H0. rewrite H0.
    apply IH; [exact Hw| |exact Hk].
    intros w1 w2 -> Hne. apply (Hfail (a :: w1) w2); [reflexivity|exact Hne].
Qed.

(** Whatever a repetition returns, its continuation returned on a suffix
    reached through units in [p]. *)
Lemma rstar_inv (p : N -> bool) (g : bool) (s : str) (k : str -> mres) (x : str * caps) :
  rstar p g s k = Some x ->
  exists w s', s = w ++ s' /\ forallb p w = true /\ k s' = Some x.
Proof.
  induction s as [|a s IH]; simpl; intros Hx.
  - exists [], []. auto.
  - destruct (p a) eqn:Ha; [|exists [], (a :: s); auto].
    assert (Hcase : rstar p g s k = Some x \/ k (a :: s) = Some x).
    { destruct g.
      - destruct (rstar p true s k); [left; exact Hx | right; exact Hx].
      - destruct (k (a :: s)); [right; exact Hx | left; exact Hx]. }
    destruct Hcase as [Hrec|Hk].
    + destruct (IH Hrec) as (w & s' & -> & Hw & Hk).
      exists (a :: w), s'. simpl. rewrite Ha, Hw. auto.
    + exists [], (a :: s). auto.
Qed.

Lemma rstar_none (p : N -> bool) (g : bool) (s : str) (k : str -> mres) :
  (forall w s', s = w ++ s' -> forallb p w = true -> k s' = None) ->
  rstar p g s k = None.
Proof.
  intros Hk. destruct (rstar p g s k) as [x|] eqn:E; [|reflexivity].
  apply rstar_inv in E as (w & s' & Hs & Hw & Hx).
  rewrite (Hk w s' Hs Hw) in Hx. discriminate.
Qed.

(** Whatever the matcher returns, its continuation returned on a suffix
    of the input. *)
Lemma rmatch_inv (r : regex) (s : str) (c : caps) (k : str -> caps -> mres) (x : str * caps) :
  rmatch r s c k = Some x ->
  exists w s' c', s = w ++ s' /\ k s' c' = Some x.
Proof.
  revert s c k. induction r as [|l|p|r1 IH1 r2 IH2|r1 IH1 r2 IH2|g p|i r IH];
    intros s c k Hx; simpl in Hx.
  - exists [], s, c. auto.
  - destruct (strip_prefix l s) as [s'|] eqn:E; [|discriminate].
    apply strip_prefix_Some in E. exists l, s', c. auto.
  - destruct s as [|a s]; [discriminate|].
    destruct (cmatch p a); [|discriminate].
    exists [a], s, c. auto.
  - apply IH1 in Hx as (w1 & s1 & c1 & -> & Hx).
    apply IH2 in Hx as (w2 & s2 & c2 & -> & Hx).
    exists (w1 ++ w2), s2, c2. rewrite <- app_assoc. auto.
  - destruct (rmatch r1 s c k) as [y|] eqn:E.
    + inversion Hx; subst y. apply IH1 in E. exact E.
    + apply IH2 in Hx. exact Hx.
  - apply rstar_inv in Hx as (w & s' & -> & _ & Hx).
    exists w, s', c. auto.
  - apply IH in Hx as (w & s' & c' & -> & Hx).
    exists w, s', (set_cap i (consumed (w ++ s') s') c'). auto.
Qed.

(** Failure does not depend on the captures, and a pattern that fails
    under a continuation fails under every continuation that fails at
    least as often. *)
Lemma rmatch_none_mono (r : regex) (s : str) (c1 c2 : caps) (k1 k2 : str -> caps -> mres) :
  (forall s' d1 d2, k2 s' d2 = None -> k1 s' d1 = None) ->
  rmatch r s c2 k2 = None -> rmatch r s c1 k1 = None.
Proof.
  revert s c1 c2 k1 k2.
  induction r as [|l|p|r1 IH1 r2 IH2|r1 IH1 r2 IH2|g p|i r IH];
    intros s c1 c2 k1 k2 Hk Hn; simpl in *.
  - eauto.
  - destruct (strip_prefix l s); eauto.
  - destruct s as [|a s]; [reflexivity|]. destruct (cmatch p a); eauto.
  - eapply IH1; [|exact Hn]. intros s' d1 d2. apply IH2. exact Hk.
  - destruct (rmatch r1 s c2 k2) eqn:E1; [discriminate|].
    rewrite (IH1 _ _ _ _ _ Hk E1). eapply IH2; eauto.
  - apply rstar_none. intros w s' -> Hw.
    destruct (k2 s' c2) eqn:E.
    + exfalso.
      assert (Hs : rstar (cmatch p) g (w ++ s') (fun s0 => k2 s0 c2) <> None).
      { clear Hn Hk. induction w as [|a w IHw].
        - destruct s' as [|b s']; simpl; [congruence|].
          destruct (cmatch p b); [|congruence].
          destruct g.
          + destruct (rstar (cmatch p) true s' (fun s0 => k2 s0 c2)); congruence.
          + rewrite E. congruence.
        - simpl in Hw. apply andb_true_iff in Hw as [Ha Hw]. simpl. rewrite Ha.
          specialize (IHw Hw).
          destruct g.
          + destruct (rstar (cmatch p) true (w ++ s') (fun s0 => k2 s0 c2)); congruence.
          + destruct (k2 (a :: w ++ s') c2); [congruence|exact IHw]. }
      contradiction.
    + eapply Hk, E.
  - eapply IH; [|exact Hn]. intros s' d1 d2. apply Hk.
Qed.

(** A pattern that finds no match on its own finds none in front of
    anything. *)
Lemma rmatch_none_accept (r : regex) (s : str) (c : caps) (k : str -> caps -> mres) :
  rmatch r s no_caps accept = None -> rmatch r s c k = None.
Proof. apply rmatch_none_mono. intros s' d1 d2. discriminate. Qed.

Lemma rmatch_seq_none (r1 r2 : regex) (s : str) (c : caps) (k : str -> caps -> mres) :
  rmatch r1 s no_caps accept = None -> rmatch (r1 &> r2) s c k = None.
Proof. intros Hn. simpl. eapply rmatch_none_accept, Hn. Qed.

(** *** Following a match step by step

    Each lemma takes one constructor of the pattern on the path that
    succeeds and leaves the continuation as the goal. *)

Lemma rmatch_seq_intro (r1 r2 : regex) (s : str) (c : caps) (k : str -> caps -> mres)
    (x : str * caps) :
  rmatch r1 s c (fun s' c' => rmatch r2 s' c' k) = Some x -> rmatch (r1 &> r2) s c k = Some x.
Proof. intros Hx. exact Hx. Qed.

Lemma rmatch_lit_intro (l : str) (s s' : str) (c : caps) (k : str -> caps -> mres)
    (x : str * caps) :
  strip_prefix l s = Some s' -> k s' c = Some x -> rmatch (RLit l) s c k = Some x.
Proof. intros Hs Hx. simpl. rewrite Hs. exact Hx. Qed.

Lemma rmatch_char_intro (p : cclass) (a : N) (s : str) (c : caps) (k : str -> caps -> mres)
    (x : str * caps) :
  cmatch p a = true -> k s c = Some x -> rmatch (RChar p) (a :: s) c k = Some x.
Proof. intros Ha Hx. simpl. rewrite Ha. exact Hx. Qed.

Lemma rmatch_greedy_intro (p : cclass) (s : str) (c : caps) (k : str -> caps -> mres)
    (x : str * caps) :
  k (drop_while (cmatch p) s) c = Some x -> rmatch (RStar true p) s c k = Some x.
Proof. intros Hx. simpl. apply rstar_greedy_intro. exact Hx. Qed.

Lemma rmatch_lazy_intro (w : str) (s : str) (c : caps) (k : str -> caps -> mres)
    (x : str * caps) :
  (forall w1 w2, w = w1 ++ w2 -> w2 <> [] -> k (w2 ++ s) c = None) ->
  k s c = Some x ->
  rmatch (RStar false CAll) (w ++ s) c k = Some x.
Proof.
  intros Hfail Hx. simpl. apply rstar_lazy_intro; [|exact Hfail|exact Hx].
  clear. induction w; simpl; auto.
Qed.

Lemma rmatch_group_intro (i : nat) (r : regex) (s : str) (c : caps)
    (k : str -> caps -> mres) (x : str * caps) :
  rmatch r s c (fun s' c' => k s' (set_cap i (consumed s s') c')) = Some x ->
  rmatch (RGroup i r) s c k = Some x.
Proof. intros Hx. exact Hx. Qed.

Lemma rmatch_alt_l (r1 r2 : regex) (s : str) (c : caps) (k : str -> caps -> mres)
    (x : str * caps) :
  rmatch r1 s c k = Some x -> rmatch (RAlt r1 r2) s c k = Some x.
Proof. intros Hx. simpl. rewrite Hx. reflexivity. Qed.

Lemma rmatch_alt_r (r1 r2 : regex) (s : str) (c : caps) (k : str -> caps -> mres)
    (x : str * caps) :
  rmatch r1 s c k = None -> rmatch r2 s c k = Some x -> rmatch (RAlt r1 r2) s c k = Some x.
Proof. intros Hn Hx. simpl. rewrite Hn. exact Hx. Qed.

Lemma rmatch_empty_intro (s : str) (c : caps) (k : str -> caps -> mres) (x : str * caps) :
  k s c = Some x -> rmatch REmpty s c k = Some x.
Proof. intros Hx. exact Hx. Qed.

Lemma drop_while_cons_true (p : N -> bool) (a : N) (s : str) :
  p a = true -> drop_while p (a :: s) = drop_while p s.
Proof. intros Ha. simpl. rewrite Ha. reflexivity. Qed.

Lemma drop_while_cons_false (p : N -> bool) (a : N) (s : str) :
  p a = false -> drop_while p (a :: s) = a :: s.
Proof. intros Ha. simpl. rewrite Ha. reflexivity. Qed.

Lemma drop_while_nil (p : N -> bool) : drop_while p [] = [].
Proof. reflexivity. Qed.

Lemma drop_while_all (p : N -> bool) (w : str) :
  forallb p w = true -> drop_while p w = [].
Proof.
  intros Hw. rewrite <- (app_nil_r w). rewrite drop_while_app by exact Hw. reflexivity.
Qed.

(** A run of units outside [p] followed by one more such unit stops the
    repetition at once. *)
Lemma drop_while_stop_run (p : N -> bool) (w : str) (a : N) (s : str) :
  forallb (fun b => negb (p b)) w = true -> p a = false ->
  drop_while p (w ++ a :: s) = w ++ a :: s.
Proof.
  destruct w as [|b w]; simpl.
  - intros _ Ha. rewrite Ha. reflexivity.
  - intros Hw _. apply andb_true_iff in Hw as [Hb _]. apply negb_true_iff in Hb.
    rewrite Hb. reflexivity.
Qed.

Lemma drop_while_stop_end (p : N -> bool) (w : str) :
  forallb (fun b => negb (p b)) w = true -> drop_while p w = w.
Proof.
  destruct w as [|b w]; simpl; [reflexivity|].
  intros Hw. apply andb_true_iff in Hw as [Hb _]. apply negb_true_iff in Hb.
  rewrite Hb. reflexivity.
Qed.

Lemma forallb_impl {A} (p q : A -> bool) (l : list A) :
  (forall a, p a = true -> q a = true) -> forallb p l = true -> forallb q l = true.
Proof.
  intros Hpq. induction l as [|a l IH]; simpl; [reflexivity|].
  intros Hl. apply andb_true_iff in Hl as [Ha Hl]. rewrite (Hpq a Ha). auto.
Qed.

(** The classes of the patterns are disjoint where the patterns rely on
    it. *)
Ltac class_props H :=
  unfold is_word, is_space, is_line_terminator in H;
  rewrite ?orb_true_iff, ?andb_true_iff, ?N.eqb_eq, ?N.leb_le in H.

Lemma word_not_space (a : N) : is_word a = true -> is_space a = false.
Proof.
  intros Hw. apply not_true_iff_false. intros Hs.
  class_props Hw. class_props Hs. lia.
Qed.

Lemma space_not_word (a : N) : is_space a = true -> is_word a = false.
Proof.
  intros Hs. apply not_true_iff_false. intros Hw.
  class_props Hw. class_props Hs. lia.
Qed.

Lemma spaces_not_words (w : str) :
  forallb is_space w = true -> forallb (fun b => negb (is_word b)) w = true.
Proof.
  apply forallb_impl. intros a Ha. rewrite space_not_word by exact Ha. reflexivity.
Qed.

Lemma words_not_spaces (w : str) :
  forallb is_word w = true -> forallb (fun b => negb (is_space b)) w = true.
Proof.
  apply forallb_impl. intros a Ha. rewrite word_not_space by exact Ha. reflexivity.
Qed.

Lemma consumed_eq (s rest m : str) : s = m ++ rest -> consumed s rest = m.
Proof. intros ->. apply consumed_app. Qed.

Lemma match_here_intro (r : regex) (m rest : str) (c : caps) :
  rmatch r (m ++ rest) no_caps accept = Some (rest, c) ->
  match_here r (m ++ rest) = Some (m, c).
Proof. intros Hm. unfold match_here. rewrite Hm, consumed_app. reflexivity. Qed.

Lemma consumed_nil (s : str) : consumed s [] = s.
Proof. unfold consumed. simpl. rewrite Nat.sub_0_r. apply firstn_all. Qed.

Lemma match_here_intro_all (r : regex) (m : str) (c : caps) :
  rmatch r m no_caps accept = Some ([], c) -> match_here r m = Some (m, c).
Proof. intros Hm. unfold match_here. rewrite Hm, consumed_nil. reflexivity. Qed.

Lemma search_here (r : regex) (s : str) (x : str * caps) :
  match_here r s = Some x -> search r s = Some x.
Proof. intros Hm. destruct s; simpl; rewrite Hm; reflexivity. Qed.

Lemma search_next (r : regex) (a : N) (s : str) :
  match_here r (a :: s) = None -> search r (a :: s) = search r s.
Proof. intros Hm. simpl. rewrite Hm. reflexivity. Qed.

(** The literals of a goal, as explicit lists of code units. *)
Ltac norm_str :=
  repeat match goal with
         | |- context [js ?s] =>
             let v := eval vm_compute in (js s) in change (js s) with v
         end;
  unfold dquote, squote, backslash;
  repeat (progress (cbn [app]; rewrite <- ?app_assoc)).

(** Closes a side condition on a class by a hypothesis, up to unfolding
    the class. *)
Ltac by_hyp :=
  first
    [ reflexivity
    | assumption
    | match goal with
      | H : forallb _ ?w = true |- forallb _ ?w = true => exact H
      | H : _ ?a = ?b |- _ ?a = ?b => exact H
      end ].

Ltac solve_drop_while :=
  repeat first
    [ rewrite drop_while_app by by_hyp
    | rewrite drop_while_all by by_hyp
    | rewrite drop_while_stop_run by by_hyp
    | rewrite drop_while_cons_true by by_hyp
    | rewrite drop_while_cons_false by by_hyp
    | rewrite drop_while_nil ].

(** One step along the path of a successful match. *)
Ltac rx_step :=
  lazymatch goal with
  | |- rmatch (RSeq _ _) _ _ _ = Some _ => apply rmatch_seq_intro
  | |- rmatch (RLit _) _ _ _ = Some _ =>
      eapply rmatch_lit_intro; [reflexivity|]; cbv beta
  | |- rmatch (RChar _) _ _ _ = Some _ =>
      apply rmatch_char_intro; [by_hyp|]; cbv beta
  | |- rmatch (RStar true _) _ _ _ = Some _ =>
      apply rmatch_greedy_intro; solve_drop_while; cbv beta
  | |- rmatch (RGroup _ _) _ _ _ = Some _ => apply rmatch_group_intro
  | |- rmatch REmpty _ _ _ = Some _ => apply rmatch_empty_intro; cbv beta
  end.

Ltac rx := repeat rx_step.

Ltac solve_consumed :=
  first [ apply consumed_nil
        | apply consumed_eq; repeat (progress (cbn [app]; rewrite <- ?app_assoc));
          reflexivity ].

(** The value of a capture after a match that was followed step by step. *)
Ltac caps_eval := cbv [cap default set_cap no_caps Nat.eqb].

(** ** Scanning and replacing *)

Lemma occurs_false_suffix (l p1 p2 : str) :
  occurs l (p1 ++ p2) = false -> strip_prefix l p2 = None.
Proof.
  induction p1 as [|a p1 IH]; intros Ho.
  - simpl in Ho. destruct p2; simpl in Ho; apply orb_false_iff in Ho as [Ho _];
      unfold startsWith in Ho; destruct (strip_prefix l _); congruence.
  - simpl in Ho. apply orb_false_iff in Ho as [_ Ho]. auto.
Qed.

Lemma occurs_false_app_l (l p1 p2 : str) :
  occurs l (p1 ++ p2) = false -> occurs l p2 = false.
Proof.
  induction p1 as [|a p1 IH]; intros Ho; [exact Ho|].
  simpl in Ho. apply orb_false_iff in Ho as [_ Ho]. auto.
Qed.

Lemma match_here_lit_none (l : str) (r : regex) (s : str) :
  strip_prefix l s = None -> match_here (RLit l &> r) s = None.
Proof. intros Hs. unfold match_here. simpl. rewrite Hs. reflexivity. Qed.

Lemma match_here_length (r : regex) (s m : str) (c : caps) :
  match_here r s = Some (m, c) -> length m <= length s.
Proof.
  unfold match_here. destruct (rmatch r s no_caps accept) as [[rest c']|]; [|discriminate].
  intros Hm. inversion Hm; subst. apply consumed_length.
Qed.

Lemma scan_skip (r : regex) (a rest : str) :
  scan r (a ++ rest) (length a) = scan r rest 0.
Proof. induction a as [|x a IH]; simpl; [reflexivity|exact IH]. Qed.

Lemma scan_prefix (r : regex) (pre rest : str) :
  (forall p1 p2, pre = p1 ++ p2 -> p2 <> [] -> match_here r (p2 ++ rest) = None) ->
  scan r (pre ++ rest) 0 = map PChar pre ++ scan r rest 0.
Proof.
  induction pre as [|a pre IH]; intros Hn; [reflexivity|].
  assert (H0 : match_here r ((a :: pre) ++ rest) = None)
    by (apply (Hn []); [reflexivity|discriminate]).
  simpl in *. rewrite H0. f_equal. apply IH.
  intros p1 p2 -> Hne. apply (Hn (a :: p1) p2); [reflexivity|exact Hne].
Qed.

Lemma scan_match (r : regex) (m rest : str) (c : caps) :
  m <> [] -> match_here r (m ++ rest) = Some (m, c) ->
  scan r (m ++ rest) 0 = PMatch m c :: scan r rest 0.
Proof.
  intros Hne Hm. destruct m as [|a m]; [congruence|].
  simpl in *. rewrite Hm. simpl. f_equal. apply scan_skip.
Qed.

Lemma scan_none (r : regex) (s : str) :
  (forall p1 p2, s = p1 ++ p2 -> match_here r p2 = None) ->
  scan r s 0 = map PChar s.
Proof.
  intros Hn. rewrite <- (app_nil_r s) at 1. rewrite scan_prefix.
  - simpl. rewrite (Hn s []) by (rewrite app_nil_r; reflexivity).
    rewrite app_nil_r. reflexivity.
  - intros p1 p2 -> _. rewrite app_nil_r. apply (Hn p1 p2). reflexivity.
Qed.

Lemma concat_singletons (s : str) : concat (map (fun a => [a]) s) = s.
Proof. induction s as [|a s IH]; simpl; congruence. Qed.

Lemma mapM_result_app {A B} (f : A -> result B) (l1 l2 : list A) :
  mapM_result f (l1 ++ l2) =
  (x ← mapM_result f l1; y ← mapM_result f l2; Ok (x ++ y)).
Proof.
  induction l1 as [|a l1 IH]; simpl.
  - destruct (mapM_result f l2); reflexivity.
  - destruct (f a) as [b|e]; simpl; [|reflexivity].
    rewrite IH. destruct (mapM_result f l1); simpl; [|reflexivity].
    destruct (mapM_result f l2); reflexivity.
Qed.

Lemma mapM_result_chars (f : str -> caps -> result str) (s : str) :
  mapM_result (fillM f) (map PChar s) = Ok (map (fun a => [a]) s).
Proof. induction s as [|a s IH]; simpl; [reflexivity|]. rewrite IH. reflexivity. Qed.

Lemma mapM_result_ext {A B} (f g : A -> result B) (l : list A) :
  (forall a, In a l -> f a = g a) -> mapM_result f l = mapM_result g l.
Proof.
  induction l as [|a l IH]; intros Hfg; simpl; [reflexivity|].
  rewrite (Hfg a) by (left; reflexivity).
  rewrite IH by (intros b Hb; apply Hfg; right; exact Hb). reflexivity.
Qed.

Lemma mapM_result_ok {A B} (f : A -> result B) (l : list A) :
  (forall a, In a l -> exists b, f a = Ok b) -> exists bs, mapM_result f l = Ok bs.
Proof.
  induction l as [|a l IH]; intros Hf; simpl; [eauto|].
  destruct (Hf a) as [b Hb]; [left; reflexivity|]. rewrite Hb. simpl.
  destruct IH as [bs Hbs]; [intros x Hx; apply Hf; right; exact Hx|].
  rewrite Hbs. simpl. eauto.
Qed.

Lemma mapM_result_pure {A B} (f : A -> B) (l : list A) :
  mapM_result (fun a => Ok (f a)) l = Ok (map f l).
Proof. induction l as [|a l IH]; simpl; [reflexivity|]. rewrite IH. reflexivity. Qed.

Lemma replace_fill (r : regex) (f : str -> caps -> str) (s : str) :
  replace r f s = concat (map (fill f) (scan r s 0)).
Proof. reflexivity. Qed.

Lemma replaceM_fill (r : regex) (f : str -> caps -> result str) (s : str) :
  replaceM r f s = (ps ← mapM_result (fillM f) (scan r s 0); Ok (concat ps)).
Proof. reflexivity. Qed.

Lemma replace_of_scan_none (r : regex) (f : str -> caps -> str) (s : str) :
  scan r s 0 = map PChar s -> replace r f s = s.
Proof.
  intros Hs. rewrite replace_fill, Hs, map_map. simpl. apply concat_singletons.
Qed.

Lemma replace_prefix (r : regex) (f : str -> caps -> str) (pre rest : str) :
  (forall p1 p2, pre = p1 ++ p2 -> p2 <> [] -> match_here r (p2 ++ rest) = None) ->
  replace r f (pre ++ rest) = pre ++ replace r f rest.
Proof.
  intros Hn. rewrite !replace_fill, scan_prefix by exact Hn.
  rewrite map_app, concat_app, map_map. simpl. rewrite concat_singletons. reflexivity.
Qed.

Lemma replace_match (r : regex) (f : str -> caps -> str) (m rest : str) (c : caps) :
  m <> [] -> match_here r (m ++ rest) = Some (m, c) ->
  replace r f (m ++ rest) = f m c ++ replace r f rest.
Proof. intros Hne Hm. rewrite !replace_fill, (scan_match _ _ _ c) by assumption. reflexivity. Qed.

Lemma replace_none (r : regex) (f : str -> caps -> str) (s : str) :
  (forall p1 p2, s = p1 ++ p2 -> match_here r p2 = None) ->
  replace r f s = s.
Proof.
  intros Hn. rewrite replace_fill, scan_none by exact Hn.
  rewrite map_map. simpl. apply concat_singletons.
Qed.

Lemma replaceM_prefix (r : regex) (f : str -> caps -> result str) (pre rest : str) :
  (forall p1 p2, pre = p1 ++ p2 -> p2 <> [] -> match_here r (p2 ++ rest) = None) ->
  replaceM r f (pre ++ rest) = (t ← replaceM r f rest; Ok (pre ++ t)).
Proof.
  intros Hn. rewrite !replaceM_fill, scan_prefix by exact Hn.
  rewrite mapM_result_app, mapM_result_chars. simpl.
  destruct (mapM_result (fillM f) (scan r rest 0)); simpl; [|reflexivity].
  rewrite concat_app, concat_singletons. reflexivity.
Qed.

Lemma replaceM_match (r : regex) (f : str -> caps -> result str) (m rest : str) (c : caps) :
  m <> [] -> match_here r (m ++ rest) = Some (m, c) ->
  replaceM r f (m ++ rest) = (v ← f m c; t ← replaceM r f rest; Ok (v ++ t)).
Proof.
  intros Hne Hm. rewrite !replaceM_fill, (scan_match _ _ _ c) by assumption.
  simpl. destruct (f m c); simpl; [|reflexivity].
  destruct (mapM_result (fillM f) (scan r rest 0)); reflexivity.
Qed.

Lemma replaceM_none (r : regex) (f : str -> caps -> result str) (s : str) :
  (forall p1 p2, s = p1 ++ p2 -> match_here r p2 = None) ->
  replaceM r f s = Ok s.
Proof.
  intros Hn. rewrite replaceM_fill, scan_none by exact Hn.
  rewrite mapM_result_chars. simpl. rewrite concat_singletons. reflexivity.
Qed.

Lemma replaceM_pure (r : regex) (f : str -> caps -> str) (s : str) :
  replaceM r (fun m c => Ok (f m c)) s = Ok (replace r f s).
Proof.
  rewrite replaceM_fill, replace_fill.
  rewrite (mapM_result_ext _ (fun p => Ok (fill f p))) by (intros [a|m c] _; reflexivity).
  rewrite mapM_result_pure. reflexivity.
Qed.

Lemma search_none (r : regex) (s : str) :
  (forall p1 p2, s = p1 ++ p2 -> match_here r p2 = None) -> search r s = None.
Proof.
  induction s as [|a s IH]; intros Hn; simpl.
  - rewrite (Hn [] []); reflexivity.
  - rewrite (Hn [] (a :: s)) by reflexivity. apply IH.
    intros p1 p2 ->. apply (Hn (a :: p1) p2). reflexivity.
Qed.

Lemma occurs_no_char (x y : N) (s : str) :
  forallb (fun a => negb (a =? y)%N) s = true -> occurs [x; y] s = false.
Proof.
  induction s as [|a s IH]; [reflexivity|]. cbn [forallb]. intros Hs.
  apply andb_true_iff in Hs as [Ha Hs]. cbn [occurs].
  rewrite (IH Hs), orb_false_r. unfold startsWith. cbn [strip_prefix].
  destruct (x =? a)%N; [|reflexivity].
  destruct s as [|b s]; [reflexivity|]. cbn [forallb] in Hs.
  apply andb_true_iff in Hs as [Hb _]. apply negb_true_iff in Hb.
  rewrite N.eqb_sym, Hb. reflexivity.
Qed.



(** ** Lengths of matches and captures *)

Lemma caps_fit_shrink (n : nat) (s s' : str) (c : caps) :
  caps_fit n s c -> length s' <= length s -> caps_fit n s' c.
Proof.
  intros [Hs Hc] Hle. split; [lia|]. intros i x Hx. specialize (Hc i x Hx). lia.
Qed.

Lemma rmatch_caps_fit (r : regex) (n : nat) (s : str) (c : caps)
    (k : str -> caps -> mres) (x : str * caps) :
  caps_fit n s c -> rmatch r s c k = Some x ->
  exists s' c', caps_fit n s' c' /\ length s' <= length s /\ k s' c' = Some x.
Proof.
  revert s c k. induction r as [|l|p|r1 IH1 r2 IH2|r1 IH1 r2 IH2|g p|i r IH];
    intros s c k Hfit Hx; simpl in Hx.
  - exists s, c. auto.
  - destruct (strip_prefix l s) as [s'|] eqn:E; [|discriminate].
    apply strip_prefix_Some in E. subst s.
    assert (length s' <= length (l ++ s')) by (rewrite length_app; lia).
    exists s', c. eauto using caps_fit_shrink.
  - destruct s as [|a s]; [discriminate|].
    destruct (cmatch p a); [|discriminate].
    exists s, c. split; [|split; [simpl; lia|exact Hx]].
    eapply caps_fit_shrink; [exact Hfit|simpl; lia].
  - apply (IH1 _ _ _ Hfit) in Hx as (s1 & c1 & Hfit1 & Hle1 & Hx).
    apply (IH2 _ _ _ Hfit1) in Hx as (s2 & c2 & Hfit2 & Hle2 & Hx).
    exists s2, c2. split; [exact Hfit2|]. split; [lia|exact Hx].
  - destruct (rmatch r1 s c k) as [y|] eqn:E.
    + inversion Hx; subst y. eapply IH1; eauto.
    + eapply IH2; eauto.
  - apply rstar_inv in Hx as (w & s' & -> & _ & Hx).
    assert (length s' <= length (w ++ s')) by (rewrite length_app; lia).
    exists s', c. eauto using caps_fit_shrink.
  - apply (IH _ _ _ Hfit) in Hx as (s' & c' & [Hs' Hc'] & Hle & Hx).
    exists s', (set_cap i (consumed s s') c'). split; [|auto].
    split; [exact Hs'|]. intros j y. unfold set_cap.
    destruct (Nat.eqb j i).
    + intros [= <-]. rewrite consumed_length_eq by exact Hle.
      destruct Hfit as [Hs _]. lia.
    + apply Hc'.
Qed.

(** A capture is part of the match. *)
Lemma match_here_caps (r : regex) (s m : str) (c : caps) (i : nat) (x : str) :
  match_here r s = Some (m, c) -> c i = Some x -> length x <= length m.
Proof.
  unfold match_here. destruct (rmatch r s no_caps accept) as [[rest c']|] eqn:E; [|discriminate].
  intros [= <- <-] Hx.
  apply (rmatch_caps_fit _ (length s)) in E as (s' & c'' & [Hs Hc] & Hle & [= <- <-]).
  - rewrite consumed_length_eq by exact Hle. specialize (Hc i x Hx). lia.
  - split; [lia|]. intros j y. discriminate.
Qed.

(** Behind a literal, a capture is a proper part of the match. *)
Lemma match_here_lit_caps (l : str) (r : regex) (s m : str) (c : caps) (i : nat) (x : str) :
  l <> [] -> match_here (RLit l &> r) s = Some (m, c) -> c i = Some x ->
  length x < length m.
Proof.
  intros Hl. unfold match_here. simpl.
  destruct (strip_prefix l s) as [s1|] eqn:El; [|discriminate].
  apply strip_prefix_Some in El. subst s.
  destruct (rmatch r s1 no_caps accept) as [[rest c']|] eqn:E; [|discriminate].
  intros [= <- <-] Hx.
  apply (rmatch_caps_fit _ (length s1)) in E as (s' & c'' & [Hs Hc] & Hle & [= <- <-]).
  - rewrite consumed_length_eq by (rewrite length_app; lia).
    specialize (Hc i x Hx). rewrite length_app.
    destruct l; [congruence|simpl; lia].
  - split; [lia|]. intros j y. discriminate.
Qed.

Lemma match_here_lit_nonempty (l : str) (r : regex) (s m : str) (c : caps) :
  l <> [] -> match_here (RLit l &> r) s = Some (m, c) -> 0 < length m.
Proof.
  intros Hl. unfold match_here. simpl.
  destruct (strip_prefix l s) as [s1|] eqn:El; [|discriminate].
  apply strip_prefix_Some in El. subst s.
  destruct (rmatch r s1 no_caps accept) as [[rest c']|] eqn:E; [|discriminate].
  intros [= <- <-].
  apply rmatch_inv in E as (w & s' & c'' & -> & [= <- <-]).
  rewrite consumed_length_eq by (rewrite !length_app; lia).
  rewrite !length_app. destruct l; [congruence|simpl; lia].
Qed.

(** Every match a scan reports is a match of the pattern at some point of
    the input. *)
Lemma scan_In (r : regex) (s : str) (skip : nat) (m : str) (c : caps) :
  In (PMatch m c) (scan r s skip) ->
  exists s', length s' <= length s /\ match_here r s' = Some (m, c).
Proof.
  revert skip. induction s as [|a s IH]; intros skip Hin.
  - destruct skip; simpl in Hin; [|contradiction].
    destruct (match_here r []) as [[m' c']|] eqn:E; [|contradiction].
    destruct Hin as [[= <- <-]|[]]. exists []. auto.
  - destruct skip as [|sk]; simpl in Hin.
    + destruct (match_here r (a :: s)) as [[m' c']|] eqn:E.
      * destruct Hin as [[= <- <-]|Hin]; [exists (a :: s); auto|].
        destruct (length m').
        -- destruct Hin as [Hin|Hin]; [discriminate|].
           apply IH in Hin as (s' & Hle & Hm). exists s'. simpl. split; [lia|exact Hm].
        -- apply IH in Hin as (s' & Hle & Hm). exists s'. simpl. split; [lia|exact Hm].
      * destruct Hin as [Hin|Hin]; [discriminate|].
        apply IH in Hin as (s' & Hle & Hm). exists s'. simpl. split; [lia|exact Hm].
    + apply IH in Hin as (s' & Hle & Hm). exists s'. simpl. split; [lia|exact Hm].
Qed.

(** A replacement that never grows a match never grows the text. *)
Lemma fill_scan_length (r : regex) (f : str -> caps -> str) (s : str) (skip : nat) :
  (forall s' m c, match_here r s' = Some (m, c) -> length (f m c) <= length m) ->
  skip <= length s ->
  length (concat (map (fill f) (scan r s skip))) <= length s - skip.
Proof.
  intros Hf. revert skip. induction s as [|a s IH]; intros skip Hskip.
  - simpl in Hskip. replace skip with 0 by lia. simpl.
    destruct (match_here r []) as [[m c]|] eqn:E; simpl; [|lia].
    rewrite app_nil_r. pose proof (Hf _ _ _ E). pose proof (match_here_length _ _ _ _ E).
    simpl in *. lia.
  - destruct skip as [|sk]; simpl.
    + destruct (match_here r (a :: s)) as [[m c]|] eqn:E; simpl.
      * pose proof (Hf _ _ _ E) as Hfm. pose proof (match_here_length _ _ _ _ E) as Hm.
        simpl in Hm. rewrite length_app.
        destruct (length m) as [|n] eqn:En.
        -- simpl. specialize (IH 0 ltac:(lia)). lia.
        -- specialize (IH n ltac:(lia)). lia.
      * specialize (IH 0 ltac:(lia)). lia.
    + simpl in Hskip. specialize (IH sk ltac:(lia)). lia.
Qed.

Lemma replace_length (r : regex) (f : str -> caps -> str) (s : str) :
  (forall s' m c, match_here r s' = Some (m, c) -> length (f m c) <= length m) ->
  length (replace r f s) <= length s.
Proof.
  intros Hf. rewrite replace_fill.
  pose proof (fill_scan_length r f s 0 Hf ltac:(lia)). lia.
Qed.

Lemma replaceM_ok (r : regex) (f : str -> caps -> result str) (s : str) :
  (forall m c, In (PMatch m c) (scan r s 0) -> exists v, f m c = Ok v) ->
  exists t, replaceM r f s = Ok t.
Proof.
  intros Hf. rewrite replaceM_fill.
  destruct (mapM_result_ok (fillM f) (scan r s 0)) as [ps Hps].
  - intros [a|m c] Hin; simpl; eauto.
  - rewrite Hps. simpl. eauto.
Qed.

Lemma replaceM_ext (r : regex) (f g : str -> caps -> result str) (s : str) :
  (forall m c, In (PMatch m c) (scan r s 0) -> f m c = g m c) ->
  replaceM r f s = replaceM r g s.
Proof.
  intros Hfg. rewrite !replaceM_fill.
  rewrite (mapM_result_ext (fillM f) (fillM g)); [reflexivity|].
  intros [a|m c] Hin; simpl; auto.
Qed.

(** ** escapeTemplate *)

Lemma backslashed_refl (t : str) : backslashed t t.
Proof. induction t; constructor; assumption. Qed.

Lemma backslashed_app (a a' b b' : str) :
  backslashed a a' -> backslashed b b' -> backslashed (a ++ b) (a' ++ b').
Proof. induction 1; intros Hb; simpl; try constructor; auto. Qed.

Lemma backslashed_trans (a b c : str) :
  backslashed a b -> backslashed b c -> backslashed a c.
Proof.
  intros Hab Hbc. revert a Hab. induction Hbc as [|x t e Hte IH|t e Hte IH]; intros a Hab.
  - exact Hab.
  - inversion Hab; subst.
    + constructor. apply IH. assumption.
    + constructor. apply IH. assumption.
  - constructor. apply IH. exact Hab.
Qed.

Lemma match_here_prefix (r : regex) (s m : str) (c : caps) :
  match_here r s = Some (m, c) -> s = m ++ drop (length m) s.
Proof.
  unfold match_here. destruct (rmatch r s no_caps accept) as [[rest c']|]; [|discriminate].
  intros [= <- <-]. unfold consumed.
  rewrite length_take.
  replace ((length s - length rest) `min` length s) with (length s - length rest) by lia.
  symmetry. apply take_drop.
Qed.

Lemma replace_backslashed (r : regex) (f : str -> caps -> str) (s : str) (skip : nat) :
  (forall s' m c, match_here r s' = Some (m, c) -> backslashed m (f m c)) ->
  backslashed (drop skip s) (concat (map (fill f) (scan r s skip))).
Proof.
  intros Hf. revert skip. induction s as [|a s IH]; intros skip.
  - destruct skip; simpl; [|constructor].
    destruct (match_here r []) as [[m c]|] eqn:E; simpl; [|constructor].
    rewrite app_nil_r. pose proof (match_here_length _ _ _ _ E) as Hl.
    destruct m; [|simpl in Hl; lia]. apply (Hf _ _ _ E).
  - destruct skip as [|sk]; [|simpl; apply IH].
    simpl. destruct (match_here r (a :: s)) as [[m c]|] eqn:E.
    + pose proof (Hf _ _ _ E) as Hm. pose proof (match_here_prefix _ _ _ _ E) as Hp.
      simpl. destruct m as [|b m]; simpl.
      * apply (backslashed_app [] _ (a :: s)); [exact Hm|].
        constructor. apply (IH 0).
      * simpl in Hp. injection Hp as -> Hp. rewrite Hp at 1.
        change (b :: m ++ drop (length m) s) with ((b :: m) ++ drop (length m) s).
        apply backslashed_app; [exact Hm|apply IH].
    + simpl. constructor. apply (IH 0).
Qed.

Lemma match_here_lit (l s m : str) (c : caps) :
  match_here (RLit l) s = Some (m, c) -> m = l.
Proof.
  unfold match_here. simpl. destruct (strip_prefix l s) as [s'|] eqn:E; [|discriminate].
  apply strip_prefix_Some in E. subst s. unfold accept. intros [= <- <-].
  apply consumed_app.
Qed.

Lemma replace_lit_backslashed (l e s : str) :
  backslashed l e -> backslashed s (replace (RLit l) (fun _ _ => e) s).
Proof.
  intros Hle. rewrite replace_fill.
  apply (replace_backslashed (RLit l) (fun _ _ => e) s 0).
  intros s' m c Hm. apply match_here_lit in Hm. subst m. exact Hle.
Qed.

Lemma backslashed_remove (t e : str) :
  backslashed t e -> remove_backslashes e = remove_backslashes t.
Proof.
  unfold remove_backslashes. induction 1 as [|a t e _ IH|t e _ IH].
  - reflexivity.
  - rewrite !filter_cons. destruct (decide (a <> backslash)); congruence.
  - rewrite filter_cons. destruct (decide (backslash <> backslash)); congruence.
Qed.

(** [escapeTemplate] only inserts backslashes: taking the inserted
    backslashes out again restores the original text. *)
Theorem escapeTemplate_backslashed (t : str) :
  backslashed t (escapeTemplate t)
  /\ remove_backslashes (escapeTemplate t) = remove_backslashes t.
Proof.
  assert (Hb : backslashed t (escapeTemplate t)).
  { unfold escapeTemplate, re_open_var, re_close_var, re_open_tag, re_close_tag.
    eapply backslashed_trans; [|apply replace_lit_backslashed; repeat constructor].
    eapply backslashed_trans; [|apply replace_lit_backslashed; repeat constructor].
    eapply backslashed_trans; [|apply replace_lit_backslashed; repeat constructor].
    apply replace_lit_backslashed; repeat constructor. }
  split; [exact Hb|]. apply backslashed_remove, Hb.
Qed.

Lemma startsWith_one (a y : N) (s : str) :
  startsWith (a :: s) [y] = (y =? a)%N.
Proof. unfold startsWith. cbn [strip_prefix]. destruct (y =? a)%N; reflexivity. Qed.

Lemma startsWith_two (a x y : N) (s : str) :
  startsWith (a :: s) [x; y] = (x =? a)%N && startsWith s [y].
Proof.
  unfold startsWith. cbn [strip_prefix]. destruct (x =? a)%N; [|reflexivity].
  destruct s as [|b s]; [reflexivity|]. destruct (y =? b)%N; reflexivity.
Qed.

Lemma startsWith_nil (l : str) : l <> [] -> startsWith [] l = false.
Proof. destruct l; [congruence|reflexivity]. Qed.

Lemma match_here_lit_intro (l s : str) :
  match_here (RLit l) (l ++ s) = Some (l, no_caps).
Proof.
  unfold match_here. cbn [rmatch]. rewrite strip_prefix_app. unfold accept.
  rewrite consumed_app. reflexivity.
Qed.

Lemma replace_lit_match (l : str) (f : str -> caps -> str) (s : str) :
  l <> [] -> replace (RLit l) f (l ++ s) = f l no_caps ++ replace (RLit l) f s.
Proof. intros Hl. apply replace_match; [exact Hl|apply match_here_lit_intro]. Qed.

Lemma replace_lit_skip (l : str) (f : str -> caps -> str) (a : N) (s : str) :
  strip_prefix l (a :: s) = None ->
  replace (RLit l) f (a :: s) = a :: replace (RLit l) f s.
Proof.
  intros Hn. apply (replace_prefix (RLit l) f [a] s).
  intros p1 p2 Hp Hne. destruct p1 as [|b p1].
  - cbn [app] in Hp. subst p2. unfold match_here. cbn [rmatch app]. rewrite Hn. reflexivity.
  - destruct p1; destruct p2; try discriminate; congruence.
Qed.

Lemma replace_lit_nil (l : str) (f : str -> caps -> str) :
  l <> [] -> replace (RLit l) f [] = [].
Proof. intros Hl. destruct l; [congruence|reflexivity]. Qed.

(** Escaping a pair: behind the replacement no pair is left, unless the
    two units of the pair are the same and three of them were in a row. *)
Lemma replace_pair_clear (x y : N) (s : str) :
  x <> backslash -> y <> backslash ->
  x <> y \/ occurs [x; x; x] s = false ->
  let out := replace (RLit [x; y]) (fun _ _ => [backslash; x; backslash; y]) s in
  occurs [x; y] out = false /\ (startsWith out [y] = true -> startsWith s [y] = true).
Proof.
  intros Hx Hy. remember (length s) as n eqn:Hn.
  revert s Hn. induction n as [n IH] using lt_wf_ind. intros s Hn Hxy. subst n.
  destruct s as [|a s].
  - cbn zeta. rewrite replace_lit_nil by discriminate. split; [reflexivity|discriminate].
  - destruct (strip_prefix [x; y] (a :: s)) as [rest|] eqn:E.
    + apply strip_prefix_Some in E. cbn [app] in E. injection E as -> ->.
      cbn zeta. rewrite (replace_lit_match [x; y] _ rest) by discriminate.
      cbn beta. cbn [app].
      destruct (IH (length rest) ltac:(simpl; lia) rest eq_refl) as [IH1 IH2].
      { destruct Hxy as [Hxy|Hxy]; [left; exact Hxy|right].
        apply (occurs_false_app_l _ [x; y]), Hxy. }
      split.
      * cbn [occurs]. rewrite !startsWith_two, !startsWith_one.
        rewrite IH1.
        replace (x =? backslash)%N with false by (symmetry; apply N.eqb_neq; exact Hx).
        replace (y =? backslash)%N with false by (symmetry; apply N.eqb_neq; exact Hy).
        rewrite N.eqb_refl. cbn [andb orb]. rewrite !orb_false_r.
        destruct (N.eqb_spec x y) as [Exy|Exy]; [|reflexivity]. cbn [andb].
        destruct (startsWith (replace _ _ rest) [y]) eqn:Es; [|reflexivity].
        exfalso. subst y. specialize (IH2 eq_refl).
        destruct Hxy as [Hxy|Hxy]; [congruence|].
        destruct rest as [|b rest]; [discriminate|]. rewrite startsWith_one in IH2.
        apply N.eqb_eq in IH2. subst b. cbn [occurs] in Hxy.
        apply orb_false_iff in Hxy as [Hxy _]. unfold startsWith in Hxy.
        cbn [strip_prefix] in Hxy. rewrite !N.eqb_refl in Hxy. discriminate.
      * rewrite startsWith_one.
        replace (y =? backslash)%N with false by (symmetry; apply N.eqb_neq; exact Hy).
        discriminate.
    + cbn zeta. rewrite (replace_lit_skip _ _ _ _ E).
      destruct (IH (length s) ltac:(simpl; lia) s eq_refl) as [IH1 IH2].
      { destruct Hxy as [Hxy|Hxy]; [left; exact Hxy|right].
        apply (occurs_false_app_l _ [a]), Hxy. }
      split.
      * cbn [occurs]. rewrite IH1, orb_false_r, startsWith_two.
        destruct (N.eqb_spec x a) as [Exa|Exa]; [|reflexivity]. cbn [andb].
        destruct (startsWith (replace _ _ s) [y]) eqn:Es; [|reflexivity].
        exfalso. specialize (IH2 eq_refl). subst a.
        destruct s as [|b s]; [discriminate|]. rewrite startsWith_one in IH2.
        apply N.eqb_eq in IH2. subst b.
        cbn [strip_prefix] in E. rewrite !N.eqb_refl in E. discriminate.
      * rewrite !startsWith_one. auto.
Qed.

Lemma backslashed_head (t e : str) (y : N) :
  backslashed t e -> y <> backslash -> startsWith e [y] = true -> startsWith t [y] = true.
Proof.
  intros Hb Hy. induction Hb as [|a t e Hb IH|t e Hb IH]; intros Hs.
  - discriminate.
  - rewrite startsWith_one in *. exact Hs.
  - rewrite startsWith_one in Hs. apply N.eqb_eq in Hs. congruence.
Qed.

(** Inserting backslashes brings no two units together. *)
Lemma backslashed_pair_clear (t e : str) (x y : N) :
  backslashed t e -> x <> backslash -> y <> backslash ->
  occurs [x; y] t = false -> occurs [x; y] e = false.
Proof.
  intros Hb Hx Hy. induction Hb as [|a t e Hb IH|t e Hb IH]; intros Ho.
  - reflexivity.
  - cbn [occurs] in *. apply orb_false_iff in Ho as [Ho1 Ho2].
    rewrite (IH Ho2), orb_false_r. rewrite startsWith_two in *.
    destruct (x =? a)%N; [|reflexivity]. cbn [andb] in *.
    destruct (startsWith e [y]) eqn:Es; [|reflexivity].
    rewrite (backslashed_head _ _ _ Hb Hy Es) in Ho1. discriminate.
  - cbn [occurs]. rewrite (IH Ho), orb_false_r, startsWith_two.
    replace (x =? backslash)%N with false by (symmetry; apply N.eqb_neq; exact Hx).
    reflexivity.
Qed.

Lemma hasTemplateSyntax_none (s : str) :
  occurs (js "{{") s = false -> occurs (js "{%") s = false -> hasTemplateSyntax s = false.
Proof.
  intros H1 H2. unfold hasTemplateSyntax, test. rewrite search_none; [reflexivity|].
  intros p1 p2 ->. unfold match_here, re_syntax. cbn [rmatch].
  rewrite (occurs_false_suffix _ _ _ H1), (occurs_false_suffix _ _ _ H2). reflexivity.
Qed.

(** When no three opening braces stand in a row, the escaped text holds
    no template syntax. *)
Theorem escapeTemplate_clean (t : str) :
  occurs (js "{{{") t = false -> hasTemplateSyntax (escapeTemplate t) = false.
Proof.
  intros Ht. unfold escapeTemplate, re_open_var, re_close_var, re_open_tag, re_close_tag.
  set (e1 := replace (RLit (js "{{")) _ t).
  set (e2 := replace (RLit (js "}}")) _ e1).
  set (e3 := replace (RLit (js "{%")) _ e2).
  assert (H1 : occurs (js "{{") e1 = false).
  { apply (replace_pair_clear 123 123 t); [discriminate|discriminate|right; exact Ht]. }
  assert (H3 : occurs (js "{%") e3 = false).
  { apply (replace_pair_clear 123 37 e2); [discriminate|discriminate|left; discriminate]. }
  apply hasTemplateSyntax_none.
  - apply (backslashed_pair_clear e1); [|discriminate|discriminate|exact H1].
    eapply backslashed_trans; [|apply replace_lit_backslashed; repeat constructor].
    eapply backslashed_trans; [|apply replace_lit_backslashed; repeat constructor].
    apply replace_lit_backslashed; repeat constructor.
  - apply (backslashed_pair_clear e3); [|discriminate|discriminate|exact H3].
    apply replace_lit_backslashed; repeat constructor.
Qed.

(** ** Filter calls *)


(** ** Text around a construct *)

Lemma no_match_inside_spec (r : regex) (body tail : str) :
  no_match_inside r body tail = true ->
  forall b1 b2, body = b1 ++ b2 -> b2 <> [] -> rmatch r (b2 ++ tail) no_caps accept = None.
Proof.
  intros Hn b1. revert body Hn.
  induction b1 as [|a b1 IH]; intros body Hn b2 Hb Hne; subst body.
  - destruct b2 as [|b b2]; [congruence|]. cbn [app no_match_inside] in Hn.
    apply andb_true_iff in Hn as [Hn _]. unfold matches_at in Hn.
    cbn [app]. destruct (rmatch r (b :: b2 ++ tail) no_caps accept); [discriminate|reflexivity].
  - cbn [app no_match_inside] in Hn. apply andb_true_iff in Hn as [_ Hn].
    eapply IH; eauto.
Qed.

(** A two-unit opening marker that does not occur in [pre], nor across
    its end, lets no match start inside [pre]. *)
Lemma open_marker_clear (x y : N) (r : regex) (pre rest : str) (a : N) :
  occurs [x; y] (pre ++ [a]) = false ->
  forall p1 p2, pre = p1 ++ p2 -> p2 <> [] ->
                match_here (RLit [x; y] &> r) (p2 ++ a :: rest) = None.
Proof.
  intros Ho p1 p2 -> Hne. apply match_here_lit_none.
  rewrite <- app_assoc in Ho. apply occurs_false_suffix in Ho.
  destruct p2 as [|b [|d p2]]; [congruence| |]; cbn [app strip_prefix] in *.
  - destruct (x =? b)%N; [|reflexivity]. destruct (y =? a)%N; [discriminate|reflexivity].
  - destruct (x =? b)%N; [|reflexivity]. destruct (y =? d)%N; [discriminate|reflexivity].
Qed.

Lemma mapM_result_Forall2 {A B} (f : A -> result B) (l : list A) (bs : list B) :
  Forall2 (fun a b => f a = Ok b) l bs -> mapM_result f l = Ok bs.
Proof.
  induction 1 as [|a b l bs Hab _ IH]; simpl; [reflexivity|].
  rewrite Hab. simpl. rewrite IH. reflexivity.
Qed.

Lemma no_match_inside_intro (r : regex) (body tail : str) :
  (forall b1 b2, body = b1 ++ b2 -> b2 <> [] ->
                 rmatch r (b2 ++ tail) no_caps accept = None) ->
  no_match_inside r body tail = true.
Proof.
  induction body as [|a body IH]; intros Hn; [reflexivity|].
  cbn [no_match_inside]. apply andb_true_iff. split.
  - unfold matches_at. rewrite (Hn [] (a :: body)); [reflexivity|reflexivity|discriminate].
  - apply IH. intros b1 b2 -> Hne. apply (Hn (a :: b1) b2); [reflexivity|exact Hne].
Qed.

(** A body in which the opening marker of the tags does not occur holds
    no tag. *)
Lemma no_match_inside_clear (x y : N) (r : regex) (body : str) (a : N) (tail : str) :
  occurs [x; y] (body ++ [a]) = false ->
  no_match_inside (RLit [x; y] &> r) body (a :: tail) = true.
Proof.
  intros Ho. apply no_match_inside_intro. intros b1 b2 Hb Hne.
  pose proof (open_marker_clear x y r body tail a Ho b1 b2 Hb Hne) as Hm.
  unfold match_here in Hm.
  destruct (rmatch (RLit [x; y] &> r) (b2 ++ a :: tail) no_caps accept) as [[? ?]|];
    [discriminate|reflexivity].
Qed.

(** ** Conditional blocks *)

Lemma suffix_not_spaces (c b1 b2 : str) :
  is_condition c = true -> c = b1 ++ b2 -> b2 <> [] -> forallb is_space b2 = false.
Proof.
  intros Hc -> Hne. unfold is_condition in Hc.
  destruct (b1 ++ b2) as [|a t] eqn:E; [discriminate|]. rewrite <- E in Hc.
  rewrite rev_app_distr in Hc.
  destruct (rev b2) as [|z r] eqn:Er.
  - apply (f_equal (@rev N)) in Er. rewrite rev_involutive in Er. simpl in Er. congruence.
  - cbn [app] in Hc. apply andb_true_iff in Hc as [Hc _]. apply andb_true_iff in Hc as [_ Hz].
    apply negb_true_iff in Hz.
    apply not_true_iff_false. intros Hs. rewrite <- forallb_rev, Er in Hs.
    cbn [forallb] in Hs. apply andb_true_iff in Hs as [Hs _]. congruence.
Qed.

Lemma condition_no_percent (c b1 b2 : str) :
  is_condition c = true -> c = b1 ++ b2 -> forallb (fun u => negb (u =? 37)%N) b2 = true.
Proof.
  intros Hc ->. unfold is_condition in Hc.
  destruct (b1 ++ b2) as [|a t] eqn:E; [discriminate|]. rewrite <- E in Hc.
  destruct (rev (b1 ++ b2)); [discriminate|].
  apply andb_true_iff in Hc as [_ Hc]. rewrite forallb_app in Hc.
  apply andb_true_iff in Hc as [_ Hc]. exact Hc.
Qed.

Lemma condition_head (c : str) :
  is_condition c = true -> exists c0 c', c = c0 :: c' /\ cmatch CSpace c0 = false.
Proof.
  intros Hc. unfold is_condition in Hc. destruct c as [|c0 c']; [discriminate|].
  destruct (rev (c0 :: c')); [discriminate|].
  apply andb_true_iff in Hc as [Hc _]. apply andb_true_iff in Hc as [Hc _].
  apply negb_true_iff in Hc. eauto.
Qed.

(** Inside a condition the closing [%}] of the tag is not met. *)
Lemma cond_close_fails (c tail : str) (r : regex) :
  is_condition c = true ->
  forall b1 b2, c = b1 ++ b2 -> b2 <> [] ->
  forall d k, rmatch (RStar true CSpace &> RLit (js "%}") &> r) (b2 ++ tail) d k = None.
Proof.
  intros Hc b1 b2 Hb Hne d k.
  destruct (rmatch _ (b2 ++ tail) d k) as [x|] eqn:E; [|reflexivity]. exfalso.
  cbn [rmatch] in E. apply rstar_inv in E as (w & s' & Hs & Hw & E).
  destruct (strip_prefix (js "%}") s') as [z|] eqn:Ez; [|discriminate].
  apply strip_prefix_Some in Ez. subst s'.
  pose proof (suffix_not_spaces c b1 b2 Hc Hb Hne) as Hns.
  pose proof (condition_no_percent c b1 b2 Hc Hb) as Hnp.
  apply app_eq_app in Hs as [l [[H1 H2]|[H1 H2]]].
  - subst b2. destruct l as [|u l].
    + rewrite app_nil_r in Hns. change (cmatch CSpace) with is_space in Hw. congruence.
    + injection H2 as Hu _. subst u. rewrite forallb_app in Hnp.
      apply andb_true_iff in Hnp as [_ Hnp]. discriminate.
  - subst w. rewrite forallb_app in Hw. apply andb_true_iff in Hw as [Hw _].
    change (cmatch CSpace) with is_space in Hw. congruence.
Qed.

(** A tag that does not match on its own does not match in front of the
    rest of a pattern. *)
Lemma tag_before (l1 kw l2 : str) (r : regex) (s : str) (d : caps) (k : str -> caps -> mres) :
  rmatch (RLit l1 &> RStar true CSpace &> RLit kw &> RStar true CSpace &> RLit l2)
         s no_caps accept = None ->
  rmatch (RLit l1 &> RStar true CSpace &> RLit kw &> RStar true CSpace &> RLit l2 &> r)
         s d k = None.
Proof.
  intros Hn.
  exact (rmatch_none_accept
           (RLit l1 &> RStar true CSpace &> RLit kw &> RStar true CSpace &> RLit l2)
           s d (fun s' c' => rmatch r s' c' k) Hn).
Qed.

(** Where neither an else tag nor an endif tag matches, the lazy capture
    of a branch goes on. *)
Lemma branch_continues (s : str) (d : caps) (k : str -> caps -> mres) :
  rmatch re_else_tag s no_caps accept = None ->
  rmatch re_endif_tag s no_caps accept = None ->
  rmatch (ROpt (RLit (js "{%") &> RStar true CSpace &> RLit (js "else") &> RStar true CSpace
                &> RLit (js "%}") &> RGroup 3 (RStar false CAll))
          &> RLit (js "{%") &> RStar true CSpace &> RLit (js "endif") &> RStar true CSpace
          &> RLit (js "%}")) s d k = None.
Proof.
  intros He Hi.
  change (match rmatch (RLit (js "{%") &> RStar true CSpace &> RLit (js "else")
                        &> RStar true CSpace &> RLit (js "%}")
                        &> RGroup 3 (RStar false CAll)) s d
                  (fun s' c' => rmatch re_endif_tag s' c' k) with
          | Some x => Some x
          | None => rmatch re_endif_tag s d k
          end = None).
  rewrite (tag_before _ _ _ _ _ _ _ He). apply rmatch_none_accept, Hi.
Qed.

Lemma re_conditional_else_match (c A B post : str) :
  is_condition c = true ->
  no_match_inside re_else_tag A (js "{% else %}" ++ B ++ js "{% endif %}" ++ post) = true ->
  no_match_inside re_endif_tag A (js "{% else %}" ++ B ++ js "{% endif %}" ++ post) = true ->
  no_match_inside re_endif_tag B (js "{% endif %}" ++ post) = true ->
  exists d, match_here re_conditional (if_else_block c A B ++ post)
            = Some (if_else_block c A B, d)
            /\ d 1 = Some c /\ d 2 = Some A /\ d 3 = Some B.
Proof.
  intros Hc HA1 HA2 HB.
  pose proof (cond_close_fails c) as Hclose. specialize (fun tail r => Hclose tail r Hc).
  pose proof (no_match_inside_spec _ _ _ HA1) as HfA1.
  pose proof (no_match_inside_spec _ _ _ HA2) as HfA2.
  pose proof (no_match_inside_spec _ _ _ HB) as HfB.
  destruct (condition_head c Hc) as (c0 & c' & -> & Hc0).
  eexists. split; [apply match_here_intro|].
  - unfold if_else_block, re_conditional, RPlus. norm_str. rx.
    apply (rmatch_lazy_intro (c0 :: c')).
    { intros w1 w2 Hw Hne. apply (Hclose _ _ w1 w2 Hw Hne). }
    rx.
    apply (rmatch_lazy_intro A).
    { intros w1 w2 Hw Hne.
      apply branch_continues; [apply (HfA1 w1 w2 Hw Hne)|apply (HfA2 w1 w2 Hw Hne)]. }
    unfold ROpt. rx_step. apply rmatch_alt_l. rx.
    apply (rmatch_lazy_intro B).
    { intros w1 w2 Hw Hne. apply rmatch_none_accept. apply (HfB w1 w2 Hw Hne). }
    rx. reflexivity.
  - caps_eval. unfold if_else_block. norm_str. repeat split; f_equal; solve_consumed.
Qed.

Lemma re_conditional_match (c A post : str) :
  is_condition c = true ->
  no_match_inside re_else_tag A (js "{% endif %}" ++ post) = true ->
  no_match_inside re_endif_tag A (js "{% endif %}" ++ post) = true ->
  exists d, match_here re_conditional (if_block c A ++ post)
            = Some (if_block c A, d)
            /\ d 1 = Some c /\ d 2 = Some A /\ d 3 = None.
Proof.
  intros Hc HA1 HA2.
  pose proof (cond_close_fails c) as Hclose. specialize (fun tail r => Hclose tail r Hc).
  pose proof (no_match_inside_spec _ _ _ HA1) as HfA1.
  pose proof (no_match_inside_spec _ _ _ HA2) as HfA2.
  destruct (condition_head c Hc) as (c0 & c' & -> & Hc0).
  eexists. split; [apply match_here_intro|].
  - unfold if_block, re_conditional, RPlus. norm_str. rx.
    apply (rmatch_lazy_intro (c0 :: c')).
    { intros w1 w2 Hw Hne. apply (Hclose _ _ w1 w2 Hw Hne). }
    rx.
    apply (rmatch_lazy_intro A).
    { intros w1 w2 Hw Hne.
      apply branch_continues; [apply (HfA1 w1 w2 Hw Hne)|apply (HfA2 w1 w2 Hw Hne)]. }
    unfold ROpt. rx_step. apply rmatch_alt_r; [reflexivity|]. rx. reflexivity.
  - caps_eval. unfold if_block. norm_str. repeat split; try f_equal; solve_consumed.
Qed.

(** ** Placeholders *)

Ltac path_props H :=
  cbn [cmatch path_class existsb] in H;
  unfold is_word, is_space in H;
  rewrite ?orb_true_iff, ?andb_true_iff, ?N.eqb_eq, ?N.leb_le in H.

Lemma path_not_space (a : N) : cmatch path_class a = true -> is_space a = false.
Proof.
  intros Hp. apply not_true_iff_false. intros Hs. path_props Hp. class_props Hs. lia.
Qed.

Lemma space_not_path (a : N) : is_space a = true -> cmatch path_class a = false.
Proof.
  intros Hs. apply not_true_iff_false. intros Hp. path_props Hp. class_props Hs. lia.
Qed.

Lemma path_not_unit (a b : N) :
  cmatch path_class b = false -> cmatch path_class a = true -> negb (a =? b)%N = true.
Proof.
  intros Hb Ha. apply negb_true_iff, N.eqb_neq. intros ->. congruence.
Qed.

Lemma space_not_unit (a b : N) :
  is_space b = false -> is_space a = true -> negb (a =? b)%N = true.
Proof.
  intros Hb Ha. apply negb_true_iff, N.eqb_neq. intros ->. congruence.
Qed.

Lemma word_not_unit (a b : N) :
  is_word b = false -> is_word a = true -> negb (a =? b)%N = true.
Proof.
  intros Hb Ha. apply negb_true_iff, N.eqb_neq. intros ->. congruence.
Qed.

Lemma paths_no_space (p : str) :
  forallb (cmatch path_class) p = true -> no_space p = true.
Proof.
  apply forallb_impl. intros a Ha. rewrite path_not_space by exact Ha. reflexivity.
Qed.

Lemma spaces_not_paths (w : str) :
  forallb is_space w = true -> forallb (fun b => negb (cmatch path_class b)) w = true.
Proof.
  apply forallb_impl. intros a Ha. rewrite space_not_path by exact Ha. reflexivity.
Qed.

Lemma re_variable_match (w1 path w2 post : str) :
  forallb is_space w1 = true -> forallb is_space w2 = true -> is_path path = true ->
  exists d, match_here re_variable (placeholder w1 path w2 ++ post)
            = Some (placeholder w1 path w2, d)
            /\ d 1 = Some (w1 ++ path ++ w2).
Proof.
  intros Hw1 Hw2 Hp.
  destruct path as [|p0 path]; [discriminate|]. cbn [is_path forallb] in Hp.
  apply andb_true_iff in Hp as [Hp0 Hp].
  assert (Hp0s : cmatch CSpace p0 = false) by (apply path_not_space, Hp0).
  pose proof (spaces_not_paths _ Hw2) as Hw2p.
  eexists. split; [apply match_here_intro|].
  - unfold placeholder, re_variable, RPlus. norm_str. rx. reflexivity.
  - caps_eval. unfold placeholder. norm_str. f_equal. solve_consumed.
Qed.

Lemma split_no_sep (c : N) (s : str) :
  forallb (fun u => negb (u =? c)%N) s = true -> split c s = [s].
Proof.
  induction s as [|a s IH]; [reflexivity|]. cbn [forallb split]. intros Hs.
  apply andb_true_iff in Hs as [Ha Hs]. apply negb_true_iff in Ha. rewrite Ha, (IH Hs).
  reflexivity.
Qed.

Lemma split_once (c : N) (a b : str) :
  forallb (fun u => negb (u =? c)%N) a = true ->
  forallb (fun u => negb (u =? c)%N) b = true ->
  split c (a ++ c :: b) = [a; b].
Proof.
  intros Ha Hb. induction a as [|x a IH]; cbn [app split].
  - rewrite N.eqb_refl, (split_no_sep c b Hb). reflexivity.
  - cbn [forallb] in Ha. apply andb_true_iff in Ha as [Hx Ha]. apply negb_true_iff in Hx.
    rewrite Hx, (IH Ha). reflexivity.
Qed.

Lemma trim_clean (w1 w2 core : str) :
  forallb is_space w1 = true -> forallb is_space w2 = true -> clean_ends core = true ->
  trim (w1 ++ core ++ w2) = core.
Proof.
  intros H1 H2 Hc. unfold trim. rewrite trimStart_spaces by assumption.
  unfold clean_ends in Hc.
  destruct core as [|a core]; [discriminate|].
  destruct (rev (a :: core)) as [|b r] eqn:Er; [discriminate|].
  apply andb_true_iff in Hc as [Ha Hb]. apply negb_true_iff in Ha, Hb.
  change ((a :: core) ++ w2) with (a :: core ++ w2).
  rewrite trimStart_stop by exact Ha.
  change (a :: core ++ w2) with ((a :: core) ++ w2).
  rewrite trimEnd_spaces by assumption.
  unfold trimEnd. rewrite Er, trimStart_stop by exact Hb. rewrite <- Er.
  apply rev_involutive.
Qed.

Lemma clean_ends_intro (a b : N) (mid : str) :
  is_space a = false -> is_space b = false -> clean_ends (a :: mid ++ [b]) = true.
Proof.
  intros Ha Hb. unfold clean_ends.
  assert (Hr : rev (a :: mid ++ [b]) = b :: rev (a :: mid)).
  { change (a :: mid ++ [b]) with ((a :: mid) ++ [b]). rewrite rev_app_distr. reflexivity. }
  rewrite Hr, Ha, Hb. reflexivity.
Qed.

Lemma space_not_lparen (w rest : str) (b : N) :
  forallb is_space w = true -> (40 =? b)%N = false ->
  strip_prefix (js "(") (w ++ b :: rest) = None.
Proof.
  intros Hw Hb. destruct w as [|a w]; cbn [app strip_prefix js map list_ascii_of_string].
  - change (N_of_ascii "(") with 40%N. rewrite Hb. reflexivity.
  - cbn [forallb] in Hw. apply andb_true_iff in Hw as [Ha _].
    change (N_of_ascii "(") with 40%N.
    destruct (N.eqb_spec 40 a) as [<-|]; [discriminate|reflexivity].
Qed.

Lemma re_filter_match (w1 path w2 w3 name : str) (arg : option str) (w4 post : str) :
  forallb is_space w1 = true -> forallb is_space w2 = true ->
  forallb is_space w3 = true -> forallb is_space w4 = true ->
  is_path path = true -> is_identifier name = true ->
  (forall a, arg = Some a -> is_argument a = true) ->
  exists d, match_here re_filter
              (filter_placeholder w1 path w2 w3 (filter_call name arg) w4 ++ post)
            = Some (filter_placeholder w1 path w2 w3 (filter_call name arg) w4, d)
            /\ d 1 = Some (w1 ++ path ++ w2 ++ js "|" ++ w3 ++ filter_call name arg).
Proof.
  intros Hw1 Hw2 Hw3 Hw4 Hp Hn Harg.
  destruct path as [|p0 path]; [discriminate|]. cbn [is_path forallb] in Hp.
  apply andb_true_iff in Hp as [Hp0 Hp].
  destruct name as [|n0 name]; [discriminate|]. cbn [is_identifier forallb] in Hn.
  apply andb_true_iff in Hn as [Hn0 Hn].
  assert (Hp0s : cmatch CSpace p0 = false) by (apply path_not_space, Hp0).
  assert (Hn0s : cmatch CSpace n0 = false) by (apply word_not_space, Hn0).
  pose proof (spaces_not_paths _ Hw2) as Hw2p.
  pose proof (spaces_not_words _ Hw4) as Hw4w.
  destruct arg as [a|].
  - assert (Ha : forallb (cmatch (CNoneOf [41%N])) a = true).
    { specialize (Harg a eq_refl). unfold is_argument in Harg.
      eapply forallb_impl; [|exact Harg]. intros u Hu. cbn [cmatch existsb].
      apply andb_true_iff in Hu as [Hu _]. rewrite orb_false_r. exact Hu. }
    eexists. split; [apply match_here_intro|].
    + unfold filter_placeholder, filter_call, re_filter, RPlus, ROpt. norm_str. rx.
      apply rmatch_alt_l. rx. reflexivity.
    + caps_eval. unfold filter_placeholder, filter_call. norm_str. f_equal. solve_consumed.
  - eexists. split; [apply match_here_intro|].
    + unfold filter_placeholder, filter_call, re_filter, RPlus, ROpt. norm_str. rx.
      apply rmatch_alt_r.
      { cbn [rmatch]. change [40%N] with (js "(").
        rewrite space_not_lparen by (assumption || reflexivity). reflexivity. }
      rx. reflexivity.
    + caps_eval. unfold filter_placeholder, filter_call. norm_str. f_equal. solve_consumed.
Qed.

Lemma filter_call_trim (w3 name : str) (arg : option str) :
  forallb is_space w3 = true -> is_identifier name = true ->
  trim (w3 ++ filter_call name arg) = filter_call name arg.
Proof.
  intros Hw3 Hn. destruct name as [|n0 name]; [discriminate|].
  cbn [is_identifier] in Hn.
  destruct arg as [a|]; unfold filter_call.
  - rewrite <- (app_nil_r ((n0 :: name) ++ js "(" ++ a ++ js ")")) at 1.
    apply trim_clean; [assumption|reflexivity|].
    replace ((n0 :: name) ++ js "(" ++ a ++ js ")") with (n0 :: (name ++ js "(" ++ a) ++ [41%N])
      by (cbn [app]; rewrite <- !app_assoc; reflexivity).
    apply clean_ends_intro; [|reflexivity].
    cbn [forallb] in Hn. apply andb_true_iff in Hn as [Hn0 _]. apply word_not_space, Hn0.
  - rewrite app_nil_r. rewrite <- (app_nil_r (n0 :: name)) at 1.
    apply trim_spaces; [assumption|reflexivity|]. apply words_not_spaces, Hn.
Qed.

Lemma filter_expression_parts (w1 path w2 w3 name : str) (arg : option str) :
  forallb is_space w1 = true -> forallb is_space w2 = true ->
  forallb is_space w3 = true ->
  is_path path = true -> is_identifier name = true ->
  (forall a, arg = Some a -> is_argument a = true) ->
  map trim (split 124 (w1 ++ path ++ w2 ++ js "|" ++ w3 ++ filter_call name arg))
  = [path; filter_call name arg].
Proof.
  intros Hw1 Hw2 Hw3 Hp Hn Harg.
  assert (Hs : forall w, forallb is_space w = true ->
                         forallb (fun u => negb (u =? 124)%N) w = true).
  { intros w. apply forallb_impl. intros u. apply space_not_unit. reflexivity. }
  assert (Hpp : forallb (fun u => negb (u =? 124)%N) path = true).
  { destruct path; [discriminate|]. eapply forallb_impl; [|exact Hp].
    intros u. apply path_not_unit. reflexivity. }
  assert (Hnn : forallb (fun u => negb (u =? 124)%N) name = true).
  { destruct name; [discriminate|]. eapply forallb_impl; [|exact Hn].
    intros u. apply word_not_unit. reflexivity. }
  replace (w1 ++ path ++ w2 ++ js "|" ++ w3 ++ filter_call name arg)
    with ((w1 ++ path ++ w2) ++ 124%N :: (w3 ++ filter_call name arg))
    by (rewrite <- !app_assoc; reflexivity).
  rewrite split_once.
  - cbn [map]. rewrite trim_spaces; [|assumption|assumption|].
    + rewrite filter_call_trim by assumption. reflexivity.
    + destruct path; [discriminate|]. apply paths_no_space, Hp.
  - rewrite !forallb_app, (Hs w1 Hw1), (Hs w2 Hw2), Hpp. reflexivity.
  - unfold filter_call. rewrite !forallb_app, (Hs w3 Hw3), Hnn.
    destruct arg as [a|]; [|reflexivity].
    rewrite !forallb_app. specialize (Harg a eq_refl). unfold is_argument in Harg.
    assert (Ha : forallb (fun u => negb (u =? 124)%N) a = true).
    { eapply forallb_impl; [|exact Harg]. intros u Hu.
      apply andb_true_iff in Hu as [_ Hu]. exact Hu. }
    rewrite Ha. reflexivity.
Qed.

Section EngineProperties.
Context {H : Host}.

(** ** Text without markers *)

Lemma stage_none (l : str) (r : regex) (s : str) :
  occurs l s = false ->
  forall p1 p2, s = p1 ++ p2 -> match_here (RLit l &> r) p2 = None.
Proof.
  intros Ho p1 p2 ->. apply match_here_lit_none. eapply occurs_false_suffix, Ho.
Qed.

(** C9. Identity on plain text: a string in which neither the opening
    marker of an interpolation nor the opening marker of a control block
    occurs is rendered to itself, under every context. *)
Theorem renderTemplate_plain_text (s : str) (ctx : context) :
  occurs (js "{{") s = false -> occurs (js "{%") s = false ->
  renderTemplate s ctx = Ok s.
Proof.
  intros Hvar Htag. unfold renderTemplate. simpl render_fuel.
  destruct s as [|a s]; [reflexivity|].
  unfold handleConditionals, re_conditional.
  rewrite (replace_none _ _ _ (stage_none _ _ _ Htag)).
  unfold handleForLoops, re_for.
  rewrite (replaceM_none _ _ _ (stage_none _ _ _ Htag)). simpl mbind.
  unfold handleVariables, re_variable.
  rewrite (replaceM_none _ _ _ (stage_none _ _ _ Hvar)). simpl mbind.
  unfold handleFilters, re_filter.
  apply (replaceM_none _ _ _ (stage_none _ _ _ Hvar)).
Qed.

(** ** How a call ends *)



(** Induction on data, with the elements of an array. *)
Lemma value_elements_ind (P : value -> Prop) :
  P VUndef -> P VNull -> (forall b, P (VBool b)) -> (forall n, P (VNum n)) ->
  (forall s, P (VStr s)) -> (forall l, Forall P l -> P (VArr l)) -> (forall m, P (VObj m)) ->
  forall v, P v.
Proof.
  intros Hu Hn Hb Hnum Hs Ha Ho. fix IH 1.
  intros [| |b|n|s|l|m]; [exact Hu|exact Hn|apply Hb|apply Hnum|apply Hs| |apply Ho].
  apply Ha. induction l as [|x l IHl]; constructor; [apply IH|exact IHl].
Qed.

Lemma ended_bind {A B} (m : result A) (f : A -> result B) :
  ended m -> (forall a, m = Ok a -> ended (f a)) -> ended (m ≫= f).
Proof. destruct m as [a|[|]]; cbn; intros Hm Hf; [apply Hf; reflexivity|exact I|exact Hm]. Qed.

Lemma mapM_result_ended {A B} (f : A -> result B) (l : list A) :
  Forall (fun a => ended (f a)) l -> ended (mapM_result f l).
Proof.
  induction 1 as [|a l Ha _ IH]; [exact I|]. cbn [mapM_result].
  apply ended_bind; [exact Ha|]. intros b _. apply ended_bind; [exact IH|]. intros bs _. exact I.
Qed.

Lemma string_of_ended (v : value) : ended (string_of v).
Proof.
  induction v as [| |b|n|s|l IH|m] using value_elements_ind; try exact I.
  - destruct b; exact I.
  - cbn [string_of]. apply ended_bind; [|intros; exact I].
    apply mapM_result_ended. eapply Forall_impl; [exact IH|].
    intros [| |b|n|s|l'|m] Hx; try exact I; exact Hx.
  - cbn [string_of]. destruct (bool_decide _); exact I.
Qed.


Lemma array_join_ended (l : list value) (sep : str) : ended (array_join l sep).
Proof.
  unfold array_join. apply ended_bind; [|intros; exact I].
  apply mapM_result_ended, Forall_forall. intros [| |b|n|s|l'|m] _; try exact I;
    apply string_of_ended.
Qed.





(** The conditional stage never makes a template longer. *)
Lemma handleConditionals_length (template : str) (ctx : context) :
  length (handleConditionals template ctx) <= length template.
Proof.
  apply replace_length. intros s' m c Hm. cbv beta zeta.
  destruct (evaluateCondition (cap c 1) ctx).
  - unfold cap. destruct (c 2) as [x|] eqn:E; simpl; [|lia].
    eapply match_here_caps; eauto.
  - destruct (c 3) as [x|] eqn:E; simpl; [|lia].
    eapply match_here_caps; eauto.
Qed.

(** A loop body is shorter than the template in which the loop stands. *)
Lemma loop_body_shorter (template m : str) (c : caps) :
  In (PMatch m c) (scan re_for template 0) -> length (cap c 3) < length template.
Proof.
  intros Hin. apply scan_In in Hin as (s' & Hle & Hm).
  pose proof (match_here_length _ _ _ _ Hm) as Hlen.
  assert (Hl : js "{%" <> []) by (vm_compute; discriminate).
  unfold re_for in Hm.
  unfold cap. destruct (c 3) as [x|] eqn:E; simpl.
  - pose proof (match_here_lit_caps _ _ _ _ _ 3 x Hl Hm E). lia.
  - pose proof (match_here_lit_nonempty _ _ _ _ _ Hl Hm). lia.
Qed.


Lemma handleForLoops_ext (render1 render2 : str -> context -> result str)
    (template : str) (ctx : context) :
  (forall body ctx', length body < length template ->
                     render1 body ctx' = render2 body ctx') ->
  handleForLoops render1 template ctx = handleForLoops render2 template ctx.
Proof.
  intros Hr. apply replaceM_ext. intros m c Hin. cbv beta zeta.
  apply loop_body_shorter in Hin.
  destruct (elements (ctx_get ctx (cap c 2))) as [l|]; [|reflexivity].
  rewrite (mapM_result_ext _ (fun item => render2 (cap c 3) (<[cap c 1 := item]> ctx)));
    [reflexivity|].
  intros item _. apply Hr, Hin.
Qed.


Lemma render_fuel_stable (fuel1 fuel2 : nat) (template : str) (ctx : context) :
  length template < fuel1 -> length template < fuel2 ->
  render_fuel fuel1 template ctx = render_fuel fuel2 template ctx.
Proof.
  revert fuel2 template ctx.
  induction fuel1 as [|fuel1 IH]; intros fuel2 template ctx H1 H2; [lia|].
  destruct fuel2 as [|fuel2]; [lia|].
  simpl. destruct template as [|a template]; [reflexivity|].
  set (t0 := a :: template) in *.
  pose proof (handleConditionals_length t0 ctx) as Hc.
  rewrite (handleForLoops_ext (render_fuel fuel1) (render_fuel fuel2)); [reflexivity|].
  intros body ctx' Hb. apply IH; lia.
Qed.

(** The equation of the source: [renderTemplate] runs the four stages in
    order, and the loop stage calls [renderTemplate] itself. *)
Lemma renderTemplate_unfold (template : str) (ctx : context) :
  renderTemplate template ctx =
  match template with
  | [] => Ok []
  | _ =>
      r2 ← handleForLoops renderTemplate (handleConditionals template ctx) ctx;
      r3 ← handleVariables r2 ctx;
      handleFilters r3 ctx
  end.
Proof.
  unfold renderTemplate at 1. simpl. destruct template as [|a template]; [reflexivity|].
  set (t0 := a :: template) in *.
  pose proof (handleConditionals_length t0 ctx) as Hc.
  rewrite (handleForLoops_ext (render_fuel (length t0)) renderTemplate); [reflexivity|].
  intros body ctx' Hb. unfold renderTemplate. apply render_fuel_stable; lia.
Qed.


Lemma replaceM_of_scan_none (r : regex) (f : str -> caps -> result str) (s : str) :
  scan r s 0 = map PChar s -> replaceM r f s = Ok s.
Proof.
  intros Hs. rewrite replaceM_fill, Hs, mapM_result_chars. simpl.
  rewrite concat_singletons. reflexivity.
Qed.

Lemma replaceM_of_scan_one (r : regex) (f : str -> caps -> result str) (s m : str) (c : caps) :
  scan r s 0 = [PMatch m c] -> replaceM r f s = f m c.
Proof.
  intros Hs. rewrite replaceM_fill, Hs. simpl. destruct (f m c); simpl; [|reflexivity].
  rewrite app_nil_r. reflexivity.
Qed.

(** ** Contexts that every string conversion accepts *)









(** ** The properties of a context *)

Lemma find_property_own (ctx : context) (k : str) (v : value) :
  ctx !! k = Some v -> find_property (Data (VObj ctx)) k = Some (Data v).
Proof. intros Hk. cbn [find_property]. rewrite Hk. reflexivity. Qed.

Lemma find_property_absent (ctx : context) (k : str) :
  ctx !! k = None ->
  find_property (Data (VObj ctx)) k = object_prototype_get ObjectPrototype k.
Proof. intros Hk. cbn [find_property]. rewrite Hk. reflexivity. Qed.

Lemma has_property_own (ctx : context) (k : str) (v : value) :
  ctx !! k = Some v -> has_property k (Data (VObj ctx)) = true.
Proof. intros Hk. unfold has_property. rewrite (find_property_own ctx k v Hk). reflexivity. Qed.

Lemma ctx_get_own (ctx : context) (k : str) (v : value) :
  ctx !! k = Some v -> ctx_get ctx k = Data v.
Proof.
  intros Hk. unfold ctx_get, get_property. rewrite (find_property_own ctx k v Hk). reflexivity.
Qed.

Lemma has_property_absent (ctx : context) (k : str) :
  ctx !! k = None -> has_property k (Data (VObj ctx)) = inherited_name k.
Proof.
  intros Hk. unfold has_property, inherited_name. rewrite (find_property_absent ctx k Hk).
  unfold object_prototype_get. destruct (str_eqb k (js "__proto__")); [reflexivity|].
  destruct (object_method k); reflexivity.
Qed.

Lemma ctx_get_absent (ctx : context) (k : str) :
  ctx !! k = None -> inherited_name k = false -> ctx_get ctx k = Data VUndef.
Proof.
  intros Hk Hi. unfold ctx_get, get_property. rewrite (find_property_absent ctx k Hk).
  unfold inherited_name in Hi. unfold object_prototype_get.
  destruct (str_eqb k (js "__proto__")); [discriminate|].
  destruct (object_method k); [discriminate|reflexivity].
Qed.

(** What a context inherits is an object or a function: truthy, not a
    string and not an array. *)
Lemma ctx_get_inherited (ctx : context) (k : str) :
  ctx !! k = None -> inherited_name k = true ->
  ToBoolean (ctx_get ctx k) = true
  /\ (forall s, strict_eq_str (ctx_get ctx k) s = false)
  /\ elements (ctx_get ctx k) = None.
Proof.
  intros Hk Hi. unfold ctx_get, get_property. rewrite (find_property_absent ctx k Hk).
  unfold inherited_name in Hi. unfold object_prototype_get.
  destruct (str_eqb k (js "__proto__")); [repeat split|].
  destruct (object_method k); [repeat split|discriminate].
Qed.

Lemma has_property_false (ctx : context) (k : str) :
  has_property k (Data (VObj ctx)) = false -> ctx !! k = None /\ inherited_name k = false.
Proof.
  intros Hp. destruct (ctx !! k) as [v|] eqn:Hk.
  - rewrite (has_property_own ctx k v Hk) in Hp. discriminate.
  - rewrite (has_property_absent ctx k Hk) in Hp. split; [reflexivity|exact Hp].
Qed.

(** ** What a match has read *)

Lemma search_inv (r : regex) (s : str) (x : str * caps) :
  search r s = Some x -> exists p1 p2, s = p1 ++ p2 /\ match_here r p2 = Some x.
Proof.
  induction s as [|a s IH]; cbn [search]; intros Hs.
  - destruct (match_here r []) eqn:E; [|discriminate]. exists [], []. split; [reflexivity|congruence].
  - destruct (match_here r (a :: s)) eqn:E.
    + exists [], (a :: s). split; [reflexivity|congruence].
    + destruct (IH Hs) as (p1 & p2 & -> & Hm). exists (a :: p1), p2. split; [reflexivity|exact Hm].
Qed.

Lemma rmatch_seq_inv (r1 r2 : regex) (s : str) (c : caps) (k : str -> caps -> mres)
    (x : str * caps) :
  rmatch (r1 &> r2) s c k = Some x ->
  exists w s' c', s = w ++ s' /\ rmatch r2 s' c' k = Some x.
Proof. cbn [rmatch]. apply rmatch_inv. Qed.

Lemma rmatch_seq_lit_inv (l : str) (r2 : regex) (s : str) (c : caps)
    (k : str -> caps -> mres) (x : str * caps) :
  rmatch (RLit l &> r2) s c k = Some x ->
  exists s', s = l ++ s' /\ rmatch r2 s' c k = Some x.
Proof.
  cbn [rmatch]. destruct (strip_prefix l s) as [s'|] eqn:E; [|discriminate].
  apply strip_prefix_Some in E. eauto.
Qed.

Lemma rmatch_lit_inv (l : str) (s : str) (c : caps) (k : str -> caps -> mres)
    (x : str * caps) :
  rmatch (RLit l) s c k = Some x -> exists s', s = l ++ s' /\ k s' c = Some x.
Proof.
  cbn [rmatch]. destruct (strip_prefix l s) as [s'|] eqn:E; [|discriminate].
  apply strip_prefix_Some in E. eauto.
Qed.



End EngineProperties.

Ltac seq_lit H := apply rmatch_seq_lit_inv in H as (? & -> & H).
Ltac seq_any H w := apply rmatch_seq_inv in H as (w & ? & ? & -> & H).

Section StageProperties.
Context {H : Host}.

(** ** Conditions *)


Lemma re_compare_none (op s : str) :
  occurs op s = false -> search (re_compare op) s = None.
Proof.
  intros Ho. apply search_none. intros p1 p2 ->.
  unfold match_here.
  destruct (rmatch (re_compare op) p2 no_caps accept) as [x|] eqn:E; [|reflexivity].
  exfalso. unfold re_compare in E. cbn [rmatch] in E.
  apply rmatch_inv in E as (w & s' & c' & -> & E).
  apply rstar_inv in E as (w' & s'' & -> & _ & E).
  destruct (strip_prefix op s'') as [t|] eqn:Es; [|discriminate].
  rewrite !app_assoc in Ho. apply occurs_false_suffix in Ho. congruence.
Qed.













(** ** The filters *)

Lemma plain_literal_nonquote (lit : str) :
  plain_literal lit = true -> forallb (cmatch nonquote_class) lit = true.
Proof.
  unfold plain_literal. induction lit as [|a lit IH]; simpl; [reflexivity|].
  intros Hl. apply andb_true_iff in Hl as [Ha Hl]. apply andb_true_iff in Ha as [Ha1 Ha2].
  simpl in Ha1. rewrite Ha1. simpl. auto.
Qed.

Lemma plain_literal_noparen (lit : str) :
  plain_literal lit = true -> forallb (cmatch (CNoneOf [41%N])) lit = true.
Proof.
  unfold plain_literal. induction lit as [|a lit IH]; simpl; [reflexivity|].
  intros Hl. apply andb_true_iff in Hl as [Ha Hl]. apply andb_true_iff in Ha as [Ha1 Ha2].
  simpl in Ha2. rewrite Ha2. simpl. auto.
Qed.

Lemma filter_call_default (q : N) (lit : str) :
  is_quote q -> plain_literal lit = true ->
  exists c, search re_filter_call (js "default(" ++ q :: lit ++ q :: js ")") =
              Some (js "default(" ++ q :: lit ++ q :: js ")", c)
            /\ c 1 = Some (js "default") /\ c 2 = Some (q :: lit ++ [q]).
Proof.
  intros Hq Hlit. apply plain_literal_noparen in Hlit.
  assert (Hq' : cmatch (CNoneOf [41%N]) q = true) by (destruct Hq as [->| ->]; reflexivity).
  eexists. split; [apply search_here, match_here_intro_all|].
  - unfold re_filter_call, ROpt, RPlus. norm_str. rx. apply rmatch_alt_l. rx. reflexivity.
  - caps_eval. norm_str. split; f_equal; solve_consumed.
Qed.

Lemma quoted_literal (q : N) (lit : str) :
  is_quote q -> plain_literal lit = true ->
  match search re_quoted (q :: lit ++ [q]) with
  | Some (_, d) => cap d 1
  | None => []
  end = lit.
Proof.
  intros Hq Hlit. apply plain_literal_nonquote in Hlit.
  assert (Hq' : cmatch quote_class q = true) by (destruct Hq as [->| ->]; reflexivity).
  destruct lit as [|a lit].
  - destruct Hq as [->| ->]; reflexivity.
  - simpl in Hlit. apply andb_true_iff in Hlit as [Ha Hlit].
    assert (Hq'' : cmatch nonquote_class q = false) by (destruct Hq as [->| ->]; reflexivity).
    erewrite search_here; [|apply match_here_intro_all].
    2:{ unfold re_quoted, RPlus. norm_str. rx. reflexivity. }
    caps_eval. solve_consumed.
Qed.

Lemma applyFilter_default_quoted (v : jsvalue) (q : N) (lit : str) :
  is_quote q -> plain_literal lit = true ->
  applyFilter v (js "default(" ++ q :: lit ++ q :: js ")") =
  Ok (if is_missing v then Data (VStr lit) else v).
Proof.
  intros Hq Hlit.
  destruct (filter_call_default q lit Hq Hlit) as (c & Hs & Hc1 & Hc2).
  pose proof (quoted_literal q lit Hq Hlit) as Hd.
  unfold applyFilter. rewrite Hs. unfold cap at 1. rewrite Hc1. simpl default.
  replace (str_eqb (js "default") (js "default")) with true by reflexivity.
  rewrite Hc2.
  destruct (search re_quoted (q :: lit ++ [q])) as [[m d]|];
    destruct v as [[| |b|n|[|a s]|l|o]|f| |]; simpl; rewrite ?Hd; reflexivity.
Qed.

(** C7, as amended.  The [default] filter: applied with a literal
    written between two quotes, the literal holding neither a quote nor a
    closing parenthesis, it returns the literal when the value is
    [undefined], [null] or the empty string, and the value unchanged
    otherwise; so the placeholder [{{a|default(Qz Q)}}] (with [Q] a double
    quote) renders [z] when [a] is the empty string and [v] when [a] is
    [v]. *)
Theorem applyFilter_default :
  (forall (v : jsvalue) (q : N) (lit : str),
      is_quote q -> plain_literal lit = true ->
      applyFilter v (js "default(" ++ q :: lit ++ q :: js ")") =
      Ok (if is_missing v then Data (VStr lit) else v))
  /\ renderTemplate (js "{{a|default(" ++ dquote :: js "z" ++ dquote :: js ")}}")
       {[ js "a" := VStr [] ]} = Ok (js "z")
  /\ renderTemplate (js "{{a|default(" ++ dquote :: js "z" ++ dquote :: js ")}}")
       {[ js "a" := VStr (js "v") ]} = Ok (js "v").
Proof.
  split; [exact applyFilter_default_quoted|split; vm_compute; reflexivity].
Qed.

Lemma renderTemplate_stages (template : str) (ctx : context) :
  template <> [] ->
  renderTemplate template ctx =
  (r2 ← handleForLoops renderTemplate (handleConditionals template ctx) ctx;
   r3 ← handleVariables r2 ctx;
   handleFilters r3 ctx).
Proof. intros Hne. rewrite renderTemplate_unfold. destruct template; congruence. Qed.

(** A path of one segment reads the property of that name. *)
Lemma getNestedValue_key (ctx : context) (k : str) (v : value) :
  split 46 k = [k] -> ctx !! k = Some v -> getNestedValue (VObj ctx) k = Ok v.
Proof.
  intros Hk Hv. unfold getNestedValue. rewrite Hk. cbn [walk_parts ToBoolean typeof_object].
  unfold get_property. rewrite (has_property_own ctx k v Hv), (find_property_own ctx k v Hv).
  reflexivity.
Qed.

Lemma getNestedValue_absent (ctx : context) (k : str) :
  split 46 k = [k] -> ctx !! k = None -> inherited_name k = false ->
  getNestedValue (VObj ctx) k = Ok VUndef.
Proof.
  intros Hk Hv Hi. unfold getNestedValue. rewrite Hk. cbn [walk_parts ToBoolean typeof_object].
  rewrite (has_property_absent ctx k Hv), Hi. reflexivity.
Qed.

Lemma bind_Ok {A} (m : result A) : (m ≫= fun a => Ok a) = m.
Proof. destruct m; reflexivity. Qed.

Lemma array_join_strings (ss : list str) (sep : str) :
  array_join (map VStr ss) sep = Ok (join sep ss).
Proof.
  unfold array_join.
  assert (Hm : mapM_result
                 (fun x => match x with VUndef | VNull => Ok [] | _ => string_of x end)
                 (map VStr ss) = Ok ss).
  { induction ss as [|s ss IH]; [reflexivity|]. cbn [map mapM_result string_of].
    rewrite IH. reflexivity. }
  rewrite Hm. reflexivity.
Qed.

(** C10. In the [join] filter a separator given as the empty string is
    treated as an omitted one: the argument with its quotes removed is
    tested for truthiness before the default [", "] is chosen.  So
    [join(QQ)] and [join] both join with [", "], while a separator that is
    not empty is used as given; and the placeholder [{{xs|join(QQ)}}]
    renders the elements separated by [", "], for every array bound to
    [xs]: for an array of strings, the strings with [", "] between
    them. *)
Theorem join_empty_separator :
  (forall l : list value,
      applyFilter (VArr l) (js "join(" ++ [dquote; dquote] ++ js ")")
      = (s ← array_join l (js ", "); Ok (Data (VStr s)))
      /\ applyFilter (VArr l) (js "join('')")
         = (s ← array_join l (js ", "); Ok (Data (VStr s)))
      /\ applyFilter (VArr l) (js "join")
         = (s ← array_join l (js ", "); Ok (Data (VStr s)))
      /\ applyFilter (VArr l) (js "join('-')")
         = (s ← array_join l (js "-"); Ok (Data (VStr s))))
  /\ (forall (ss : list str) (sep : str), array_join (map VStr ss) sep = Ok (join sep ss))
  /\ (forall (ctx : context) (l : list value),
         renderTemplate (js "{{xs|join(" ++ [dquote; dquote] ++ js ")}}")
           (<[js "xs" := VArr l]> ctx)
         = array_join l (js ", "))
  /\ (forall (ctx : context) (ss : list str),
         renderTemplate (js "{{xs|join(" ++ [dquote; dquote] ++ js ")}}")
           (<[js "xs" := VArr (map VStr ss)]> ctx)
         = Ok (join (js ", ") ss))
  /\ renderTemplate (js "{{xs|join(" ++ [dquote; dquote] ++ js ")}}")
       {[ js "xs" := VArr [VStr (js "a"); VStr (js "b"); VStr (js "c")] ]}
     = Ok (js "a, b, c")
  /\ renderTemplate (js "{{xs|join('-')}}")
       {[ js "xs" := VArr [VStr (js "a"); VStr (js "b"); VStr (js "c")] ]}
     = Ok (js "a-b-c").
Proof.
  assert (Hr : forall (ctx : context) (l : list value),
             renderTemplate (js "{{xs|join(" ++ [dquote; dquote] ++ js ")}}")
               (<[js "xs" := VArr l]> ctx)
             = array_join l (js ", ")).
  { intros ctx l.
    set (tpl := js "{{xs|join(" ++ [dquote; dquote] ++ js ")}}").
    set (ctx' := <[js "xs" := VArr l]> ctx).
    rewrite renderTemplate_stages by (vm_compute; discriminate).
    assert (Hc : handleConditionals tpl ctx' = tpl)
      by (apply replace_none, stage_none; reflexivity).
    rewrite Hc.
    assert (Hf : handleForLoops renderTemplate tpl ctx' = Ok tpl)
      by (apply replaceM_none, stage_none; reflexivity).
    rewrite Hf. cbv [mbind result_bind].
    assert (Hv : handleVariables tpl ctx' = Ok tpl)
      by (apply replaceM_of_scan_none; vm_compute; reflexivity).
    rewrite Hv.
    unfold handleFilters.
    erewrite replaceM_of_scan_one; [|vm_compute; reflexivity].
    cbv beta zeta.
    change (hd [] (map trim (split 124 (cap _ 1)))) with (js "xs").
    rewrite (getNestedValue_key ctx' (js "xs") (VArr l));
      [|reflexivity|apply lookup_insert_eq].
    cbn [mbind result_bind].
    replace (applyFilter _ _) with (s ← array_join l (js ", "); Ok (Data (VStr s)))
      by (vm_compute; reflexivity).
    destruct (array_join l (js ", ")); reflexivity. }
  split; [intros l; repeat apply conj; vm_compute; reflexivity|].
  split; [exact array_join_strings|].
  split; [exact Hr|].
  split; [intros ctx ss; rewrite Hr; apply array_join_strings|].
  split; vm_compute; reflexivity.
Qed.

(** ** The conditional stage *)

Lemma handleConditionals_else_block (pre c A B post : str) (ctx : context) :
  occurs (js "{%") (pre ++ js "{") = false ->
  is_condition c = true ->
  no_match_inside re_else_tag A (js "{% else %}" ++ B ++ js "{% endif %}" ++ post) = true ->
  no_match_inside re_endif_tag A (js "{% else %}" ++ B ++ js "{% endif %}" ++ post) = true ->
  no_match_inside re_endif_tag B (js "{% endif %}" ++ post) = true ->
  handleConditionals (pre ++ if_else_block c A B ++ post) ctx
  = pre ++ (if evaluateCondition c ctx then A else B) ++ handleConditionals post ctx.
Proof.
  intros Hpre Hc HA1 HA2 HB.
  destruct (re_conditional_else_match c A B post Hc HA1 HA2 HB) as (d & Hm & Hd1 & Hd2 & Hd3).
  unfold handleConditionals.
  rewrite replace_prefix.
  2:{ unfold if_else_block, re_conditional. norm_str. apply open_marker_clear. exact Hpre. }
  rewrite (replace_match _ _ _ _ d); [|unfold if_else_block; norm_str; discriminate|exact Hm].
  unfold cap. rewrite Hd1, Hd2, Hd3. reflexivity.
Qed.

Lemma handleConditionals_if_block (pre c A post : str) (ctx : context) :
  occurs (js "{%") (pre ++ js "{") = false ->
  is_condition c = true ->
  no_match_inside re_else_tag A (js "{% endif %}" ++ post) = true ->
  no_match_inside re_endif_tag A (js "{% endif %}" ++ post) = true ->
  handleConditionals (pre ++ if_block c A ++ post) ctx
  = pre ++ (if evaluateCondition c ctx then A else []) ++ handleConditionals post ctx.
Proof.
  intros Hpre Hc HA1 HA2.
  destruct (re_conditional_match c A post Hc HA1 HA2) as (d & Hm & Hd1 & Hd2 & Hd3).
  unfold handleConditionals.
  rewrite replace_prefix.
  2:{ unfold if_block, re_conditional. norm_str. apply open_marker_clear. exact Hpre. }
  rewrite (replace_match _ _ _ _ d); [|unfold if_block; norm_str; discriminate|exact Hm].
  unfold cap. rewrite Hd1, Hd2, Hd3. reflexivity.
Qed.

(** C2, as amended.  For a conditional block with or without an else
    branch, whose branches hold no further else or endif tag, the
    conditional stage replaces the entire matched span by the unrendered
    text of the chosen branch (by nothing when the condition is false and
    there is no else branch), and goes on behind the block.  The stage is
    one pass: the text it inserts is not scanned again and a block ends
    at the first endif tag, so an if-block nested in a branch is not
    resolved: its opening tag and the outer endif tag stay in the
    result. *)
Theorem handleConditionals_block :
  (forall (pre c A B post : str) (ctx : context),
      occurs (js "{%") (pre ++ js "{") = false ->
      is_condition c = true ->
      no_match_inside re_else_tag A (js "{% else %}" ++ B ++ js "{% endif %}" ++ post) = true ->
      no_match_inside re_endif_tag A (js "{% else %}" ++ B ++ js "{% endif %}" ++ post) = true ->
      no_match_inside re_endif_tag B (js "{% endif %}" ++ post) = true ->
      handleConditionals (pre ++ if_else_block c A B ++ post) ctx
      = pre ++ (if evaluateCondition c ctx then A else B) ++ handleConditionals post ctx)
  /\ (forall (pre c A post : str) (ctx : context),
         occurs (js "{%") (pre ++ js "{") = false ->
         is_condition c = true ->
         no_match_inside re_else_tag A (js "{% endif %}" ++ post) = true ->
         no_match_inside re_endif_tag A (js "{% endif %}" ++ post) = true ->
         handleConditionals (pre ++ if_block c A ++ post) ctx
         = pre ++ (if evaluateCondition c ctx then A else []) ++ handleConditionals post ctx)
  /\ (forall ctx : context,
         handleConditionals (js "{% if a %}X{% if b %}Y{% endif %}Z{% endif %}") ctx
         = (if evaluateCondition (js "a") ctx then js "X{% if b %}Y" else [])
             ++ js "Z{% endif %}").
Proof.
  split; [exact handleConditionals_else_block|]. split; [exact handleConditionals_if_block|].
  intros ctx.
  change (js "{% if a %}X{% if b %}Y{% endif %}Z{% endif %}")
    with ([] ++ if_block (js "a") (js "X{% if b %}Y") ++ js "Z{% endif %}").
  rewrite handleConditionals_if_block by reflexivity.
  cbn [app]. f_equal.
Qed.

(** ** The variable and filter stages *)

Lemma handleVariables_placeholder (pre w1 path w2 post : str) (ctx : context) (v : jsvalue) :
  occurs (js "{{") (pre ++ js "{") = false ->
  forallb is_space w1 = true -> forallb is_space w2 = true -> is_path path = true ->
  getNestedValue (VObj ctx) path = Ok v ->
  handleVariables (pre ++ placeholder w1 path w2 ++ post) ctx
  = (s ← substituted (placeholder w1 path w2) v;
     rest ← handleVariables post ctx;
     Ok (pre ++ s ++ rest)).
Proof.
  intros Hpre Hw1 Hw2 Hp Hv.
  destruct (re_variable_match w1 path w2 post Hw1 Hw2 Hp) as (d & Hm & Hd1).
  unfold handleVariables in *.
  rewrite replaceM_prefix.
  2:{ unfold placeholder, re_variable. norm_str. apply open_marker_clear. exact Hpre. }
  rewrite (replaceM_match _ _ _ _ d); [|unfold placeholder; norm_str; discriminate|exact Hm].
  unfold cap. rewrite Hd1. cbn [default from_option id].
  rewrite trim_spaces; [|assumption|assumption|].
  2:{ destruct path; [discriminate|]. apply paths_no_space, Hp. }
  rewrite Hv. cbn [mbind result_bind].
  change (match v with Data VUndef => Ok (placeholder w1 path w2) | _ => ToString v end)
    with (substituted (placeholder w1 path w2) v).
  destruct (substituted (placeholder w1 path w2) v) as [s|e]; cbn [mbind result_bind];
    [|reflexivity].
  destruct (replaceM re_variable _ post); reflexivity.
Qed.

Lemma handleFilters_placeholder (pre w1 path w2 w3 name : str) (arg : option str)
    (w4 post : str) (ctx : context) (v : jsvalue) :
  occurs (js "{{") (pre ++ js "{") = false ->
  forallb is_space w1 = true -> forallb is_space w2 = true ->
  forallb is_space w3 = true -> forallb is_space w4 = true ->
  is_path path = true -> is_identifier name = true ->
  (forall a, arg = Some a -> is_argument a = true) ->
  getNestedValue (VObj ctx) path = Ok v ->
  handleFilters (pre ++ filter_placeholder w1 path w2 w3 (filter_call name arg) w4 ++ post) ctx
  = (v' ← applyFilter v (filter_call name arg);
     s ← substituted (filter_placeholder w1 path w2 w3 (filter_call name arg) w4) v';
     rest ← handleFilters post ctx;
     Ok (pre ++ s ++ rest)).
Proof.
  intros Hpre Hw1 Hw2 Hw3 Hw4 Hp Hn Harg Hv.
  destruct (re_filter_match w1 path w2 w3 name arg w4 post Hw1 Hw2 Hw3 Hw4 Hp Hn Harg)
    as (d & Hm & Hd1).
  unfold handleFilters in *.
  rewrite replaceM_prefix.
  2:{ unfold filter_placeholder, re_filter. norm_str. apply open_marker_clear. exact Hpre. }
  rewrite (replaceM_match _ _ _ _ d);
    [|unfold filter_placeholder; norm_str; discriminate|exact Hm].
  unfold cap. rewrite Hd1. cbn [default from_option id].
  rewrite filter_expression_parts by assumption.
  cbn [hd tl tail join]. rewrite Hv. cbn [mbind result_bind].
  destruct (applyFilter v (filter_call name arg)) as [v'|e]; cbn [mbind result_bind];
    [|reflexivity].
  change (match v' with
          | Data VUndef => Ok (filter_placeholder w1 path w2 w3 (filter_call name arg) w4)
          | _ => ToString v'
          end)
    with (substituted (filter_placeholder w1 path w2 w3 (filter_call name arg) w4) v').
  destruct (substituted _ v') as [s|e]; cbn [mbind result_bind]; [|reflexivity].
  destruct (replaceM re_filter _ post); reflexivity.
Qed.

(** ** Loops *)

Lemma re_for_match (x xs body post : str) :
  is_identifier x = true -> is_identifier xs = true ->
  no_match_inside re_endfor_tag body (js "{% endfor %}" ++ post) = true ->
  exists c, match_here re_for (for_block x xs body ++ post) = Some (for_block x xs body, c)
            /\ c 1 = Some x /\ c 2 = Some xs /\ c 3 = Some body.
Proof.
  intros Hx Hxs Hbody.
  destruct x as [|a x]; [discriminate|]. cbn [is_identifier forallb] in Hx.
  apply andb_true_iff in Hx as [Ha Hx].
  destruct xs as [|b xs]; [discriminate|]. cbn [is_identifier forallb] in Hxs.
  apply andb_true_iff in Hxs as [Hb Hxs].
  assert (Has : cmatch CSpace a = false) by (apply word_not_space, Ha).
  assert (Hbs : cmatch CSpace b = false) by (apply word_not_space, Hb).
  pose proof (no_match_inside_spec _ _ _ Hbody) as Hfail.
  eexists. split; [apply match_here_intro|].
  - unfold for_block, re_for, RPlus. norm_str. rx.
    apply (rmatch_lazy_intro body).
    + intros w1 w2 Hw Hne. apply rmatch_none_accept. apply (Hfail w1 w2 Hw Hne).
    + rx. reflexivity.
  - caps_eval. unfold for_block. norm_str. repeat split; f_equal; solve_consumed.
Qed.

Lemma bind_assoc_loop (pre : str) (m1 m2 : result str) :
  (t ← (v ← m1; t' ← m2; Ok (v ++ t')); Ok (pre ++ t))
  = (out ← m1; rest ← m2; Ok (pre ++ out ++ rest)).
Proof. destruct m1; cbn; [|reflexivity]. destruct m2; reflexivity. Qed.

(** The loop stage on a template that holds a well-formed loop: the text
    in front of the loop is kept, the loop is replaced by its output, and
    the stage goes on behind the loop. *)
Lemma handleForLoops_block (render : str -> context -> result str)
    (pre x xs body post : str) (ctx : context) :
  occurs (js "{%") (pre ++ js "{") = false ->
  is_identifier x = true -> is_identifier xs = true ->
  no_match_inside re_endfor_tag body (js "{% endfor %}" ++ post) = true ->
  handleForLoops render (pre ++ for_block x xs body ++ post) ctx =
  (out ← loop_output render x body ctx (ctx_get ctx xs);
   rest ← handleForLoops render post ctx;
   Ok (pre ++ out ++ rest)).
Proof.
  intros Hpre Hx Hxs Hbody.
  destruct (re_for_match x xs body post Hx Hxs Hbody) as (c & Hm & Hc1 & Hc2 & Hc3).
  unfold handleForLoops.
  rewrite replaceM_prefix.
  2:{ unfold for_block, re_for. norm_str. apply open_marker_clear. exact Hpre. }
  rewrite (replaceM_match _ _ _ _ c); [|unfold for_block; norm_str; discriminate|exact Hm].
  unfold cap. rewrite Hc1, Hc2, Hc3. cbn [default from_option id].
  apply bind_assoc_loop.
Qed.

(** ** Degraded output *)


(** A template in which no pattern of the four stages matches is rendered
    to itself. *)
Lemma renderTemplate_no_match (s : str) (ctx : context) :
  scan re_conditional s 0 = map PChar s ->
  scan re_for s 0 = map PChar s ->
  scan re_variable s 0 = map PChar s ->
  scan re_filter s 0 = map PChar s ->
  renderTemplate s ctx = Ok s.
Proof.
  intros Hc Hf Hv Hp. rewrite renderTemplate_unfold. destruct s as [|a s]; [reflexivity|].
  unfold handleConditionals. rewrite (replace_of_scan_none _ _ _ Hc).
  unfold handleForLoops. rewrite (replaceM_of_scan_none _ _ _ Hf). cbn [mbind result_bind].
  unfold handleVariables. rewrite (replaceM_of_scan_none _ _ _ Hv). cbn [mbind result_bind].
  unfold handleFilters. apply (replaceM_of_scan_none _ _ _ Hp).
Qed.

Lemma renderTemplate_flat (s : str) (ctx : context) :
  s <> [] ->
  scan re_conditional s 0 = map PChar s ->
  scan re_for s 0 = map PChar s ->
  renderTemplate s ctx = (r3 ← handleVariables s ctx; handleFilters r3 ctx).
Proof.
  intros Hne Hc Hf. rewrite renderTemplate_stages by exact Hne.
  unfold handleConditionals. rewrite (replace_of_scan_none _ _ _ Hc).
  unfold handleForLoops. rewrite (replaceM_of_scan_none _ _ _ Hf). reflexivity.
Qed.

End StageProperties.

(** * The module from end to end *)

Section ModuleProperties.
Context {H : Host}.

Lemma scan_no_marker (l : str) (r : regex) (s : str) :
  occurs l s = false -> scan (RLit l &> r) s 0 = map PChar s.
Proof.
  intros Ho. apply scan_none. intros p1 p2 ->.
  apply match_here_lit_none. eapply occurs_false_suffix, Ho.
Qed.

Lemma no_brace_head (x : N) (l : str) (r : regex) (pre rest : str) :
  no_brace pre = true ->
  forall p1 p2, pre = p1 ++ p2 -> p2 <> [] ->
                match_here (RLit (123%N :: x :: l) &> r) (p2 ++ rest) = None.
Proof.
  intros Hp p1 p2 -> Hne. apply match_here_lit_none.
  unfold no_brace in Hp. rewrite forallb_app in Hp. apply andb_true_iff in Hp as [_ Hp].
  destruct p2 as [|a p2]; [congruence|]. cbn [forallb] in Hp.
  apply andb_true_iff in Hp as [Ha _]. apply negb_true_iff in Ha.
  cbn [app strip_prefix]. rewrite N.eqb_sym, Ha. reflexivity.
Qed.

Lemma handleConditionals_leading (pre t : str) (ctx : context) :
  no_brace pre = true ->
  handleConditionals (pre ++ t) ctx = pre ++ handleConditionals t ctx.
Proof.
  intros Hp. unfold handleConditionals. apply replace_prefix.
  unfold re_conditional. apply no_brace_head. exact Hp.
Qed.

Lemma handleForLoops_leading (render : str -> context -> result str) (pre t : str)
    (ctx : context) :
  no_brace pre = true ->
  handleForLoops render (pre ++ t) ctx = (r ← handleForLoops render t ctx; Ok (pre ++ r)).
Proof.
  intros Hp. unfold handleForLoops. apply replaceM_prefix.
  unfold re_for. apply no_brace_head. exact Hp.
Qed.

Lemma handleVariables_leading (pre t : str) (ctx : context) :
  no_brace pre = true ->
  handleVariables (pre ++ t) ctx = (r ← handleVariables t ctx; Ok (pre ++ r)).
Proof.
  intros Hp. unfold handleVariables. apply replaceM_prefix.
  unfold re_variable. apply no_brace_head. exact Hp.
Qed.

Lemma handleFilters_leading (pre t : str) (ctx : context) :
  no_brace pre = true ->
  handleFilters (pre ++ t) ctx = (r ← handleFilters t ctx; Ok (pre ++ r)).
Proof.
  intros Hp. unfold handleFilters. apply replaceM_prefix.
  unfold re_filter. apply no_brace_head. exact Hp.
Qed.

Lemma stages_nil (ctx : context) :
  handleConditionals [] ctx = []
  /\ (forall render, handleForLoops render [] ctx = Ok [])
  /\ handleVariables [] ctx = Ok [] /\ handleFilters [] ctx = Ok [].
Proof. repeat apply conj; reflexivity. Qed.

Lemma renderTemplate_leading_text_eq (pre t : str) (ctx : context) :
  no_brace pre = true ->
  renderTemplate (pre ++ t) ctx = (r ← renderTemplate t ctx; Ok (pre ++ r)).
Proof.
  intros Hp.
  assert (Hst : forall u, (r2 ← handleForLoops renderTemplate (handleConditionals (pre ++ u) ctx) ctx;
                           r3 ← handleVariables r2 ctx; handleFilters r3 ctx)
                = (r ← (r2 ← handleForLoops renderTemplate (handleConditionals u ctx) ctx;
                        r3 ← handleVariables r2 ctx; handleFilters r3 ctx); Ok (pre ++ r))).
  { intros u. rewrite handleConditionals_leading, handleForLoops_leading by exact Hp.
    destruct (handleForLoops renderTemplate (handleConditionals u ctx) ctx) as [r2|e];
      cbn [mbind result_bind]; [|reflexivity].
    rewrite handleVariables_leading by exact Hp.
    destruct (handleVariables r2 ctx) as [r3|e]; cbn [mbind result_bind]; [|reflexivity].
    apply handleFilters_leading, Hp. }
  rewrite (renderTemplate_unfold (pre ++ t)), (renderTemplate_unfold t).
  destruct pre as [|a pre].
  - cbn [app]. destruct t as [|b t]; [reflexivity|].
    specialize (Hst (b :: t)). cbn [app] in Hst.
    match goal with |- ?x = _ => destruct x; reflexivity end.
  - destruct t as [|b t].
    + specialize (Hst []). cbn [app] in *. rewrite Hst. reflexivity.
    + cbn [app] in *. apply Hst.
Qed.

(** Text without an opening brace in front of a template is copied. *)
Theorem renderTemplate_leading_text (pre t : str) (ctx : context) :
  no_brace pre = true ->
  renderTemplate (pre ++ t) ctx = (r ← renderTemplate t ctx; Ok (pre ++ r)).
Proof. apply renderTemplate_leading_text_eq. Qed.

Lemma escapeTemplate_markers_clear (t : str) :
  occurs (js "{{{") t = false ->
  occurs (js "{{") (escapeTemplate t) = false /\ occurs (js "{%") (escapeTemplate t) = false.
Proof.
  intros Ht. unfold escapeTemplate, re_open_var, re_close_var, re_open_tag, re_close_tag.
  set (e1 := replace (RLit (js "{{")) _ t).
  set (e2 := replace (RLit (js "}}")) _ e1).
  set (e3 := replace (RLit (js "{%")) _ e2).
  assert (H1 : occurs (js "{{") e1 = false).
  { apply (replace_pair_clear 123 123 t); [discriminate|discriminate|right; exact Ht]. }
  assert (H3 : occurs (js "{%") e3 = false).
  { apply (replace_pair_clear 123 37 e2); [discriminate|discriminate|left; discriminate]. }
  split.
  - apply (backslashed_pair_clear e1); [|discriminate|discriminate|exact H1].
    eapply backslashed_trans; [|apply replace_lit_backslashed; repeat constructor].
    eapply backslashed_trans; [|apply replace_lit_backslashed; repeat constructor].
    apply replace_lit_backslashed; repeat constructor.
  - apply (backslashed_pair_clear e3); [|discriminate|discriminate|exact H3].
    apply replace_lit_backslashed; repeat constructor.
Qed.

Lemma backslashed_length (t e : str) : backslashed t e -> length t <= length e.
Proof. induction 1; simpl; lia. Qed.

Lemma replace_lit_none (l : str) (f : str -> caps -> str) (s : str) :
  occurs l s = false -> replace (RLit l) f s = s.
Proof.
  intros Ho. apply replace_none. intros p1 p2 ->. unfold match_here. cbn [rmatch].
  rewrite (occurs_false_suffix _ _ _ Ho). reflexivity.
Qed.

Lemma occurs_nil_false (l : str) : l <> [] -> occurs l [] = false.
Proof. destruct l; [congruence|reflexivity]. Qed.

Lemma replace_lit_length (l e : str) (s : str) :
  l <> [] -> length l < length e ->
  length s <= length (replace (RLit l) (fun _ _ => e) s)
  /\ (occurs l s = true -> length s < length (replace (RLit l) (fun _ _ => e) s)).
Proof.
  intros Hl He. remember (length s) as n eqn:Hn. revert s Hn.
  induction n as [n IH] using lt_wf_ind. intros s Hn. subst n.
  destruct s as [|a s].
  - rewrite replace_lit_nil by exact Hl. rewrite occurs_nil_false by exact Hl.
    split; [lia|discriminate].
  - destruct (strip_prefix l (a :: s)) as [rest|] eqn:E.
    + apply strip_prefix_Some in E. rewrite E, replace_lit_match by exact Hl.
      assert (Hlen : length rest < length (a :: s)).
      { rewrite E, length_app. destruct l; [congruence|simpl; lia]. }
      destruct (IH _ Hlen rest eq_refl) as [IH1 _].
      rewrite !length_app. split; [lia|intros _; lia].
    + rewrite (replace_lit_skip _ _ _ _ E).
      destruct (IH (length s) ltac:(simpl; lia) s eq_refl) as [IH1 IH2].
      cbn [length]. split; [lia|]. cbn [occurs]. unfold startsWith. rewrite E.
      cbn [orb]. intros Ho. specialize (IH2 Ho). lia.
Qed.

Lemma backslashed_same_length (t e : str) :
  backslashed t e -> length e = length t -> e = t.
Proof.
  induction 1 as [|a t e Hb IH|t e Hb IH]; cbn [length]; intros Hl.
  - reflexivity.
  - f_equal. apply IH. lia.
  - apply backslashed_length in Hb. lia.
Qed.

(** [escapeTemplate] leaves a text as it is exactly when none of the
    four markers occurs in it; when one occurs, the result is strictly
    longer than the text. *)
Theorem escapeTemplate_fixed_point (t : str) :
  (escapeTemplate t = t <->
   occurs (js "{{") t = false /\ occurs (js "}}") t = false
   /\ occurs (js "{%") t = false /\ occurs (js "%}") t = false)
  /\ length t <= length (escapeTemplate t)
  /\ (occurs (js "{{") t = true \/ occurs (js "}}") t = true
      \/ occurs (js "{%") t = true \/ occurs (js "%}") t = true ->
      length t < length (escapeTemplate t)).
Proof.
  assert (Hiff : escapeTemplate t = t <->
                 occurs (js "{{") t = false /\ occurs (js "}}") t = false
                 /\ occurs (js "{%") t = false /\ occurs (js "%}") t = false).
  { unfold escapeTemplate, re_open_var, re_close_var, re_open_tag, re_close_tag.
    split.
    - intros Heq.
      destruct (replace_lit_length (js "{{") (js "\{\{") t) as [L1 S1];
        [discriminate|vm_compute; lia|].
      remember (replace (RLit (js "{{")) _ t) as e1 eqn:D1.
      destruct (replace_lit_length (js "}}") (js "\}\}") e1) as [L2 S2];
        [discriminate|vm_compute; lia|].
      remember (replace (RLit (js "}}")) _ e1) as e2 eqn:D2.
      destruct (replace_lit_length (js "{%") (js "\{\%") e2) as [L3 S3];
        [discriminate|vm_compute; lia|].
      remember (replace (RLit (js "{%")) _ e2) as e3 eqn:D3.
      destruct (replace_lit_length (js "%}") (js "\%\}") e3) as [L4 S4];
        [discriminate|vm_compute; lia|].
      rewrite Heq in L4, S4.
      destruct (occurs (js "{{") t) eqn:O1; [specialize (S1 eq_refl); lia|].
      rewrite (replace_lit_none _ _ _ O1) in D1. subst e1.
      destruct (occurs (js "}}") t) eqn:O2; [specialize (S2 eq_refl); lia|].
      rewrite (replace_lit_none _ _ _ O2) in D2. subst e2.
      destruct (occurs (js "{%") t) eqn:O3; [specialize (S3 eq_refl); lia|].
      rewrite (replace_lit_none _ _ _ O3) in D3. subst e3.
      destruct (occurs (js "%}") t) eqn:O4; [specialize (S4 eq_refl); lia|].
      auto.
    - intros (O1 & O2 & O3 & O4).
      rewrite (replace_lit_none _ _ _ O1), (replace_lit_none _ _ _ O2),
        (replace_lit_none _ _ _ O3). apply replace_lit_none, O4. }
  assert (Hb : backslashed t (escapeTemplate t)).
  { unfold escapeTemplate, re_open_var, re_close_var, re_open_tag, re_close_tag.
    eapply backslashed_trans; [|apply replace_lit_backslashed; repeat constructor].
    eapply backslashed_trans; [|apply replace_lit_backslashed; repeat constructor].
    eapply backslashed_trans; [|apply replace_lit_backslashed; repeat constructor].
    apply replace_lit_backslashed; repeat constructor. }
  pose proof (backslashed_length _ _ Hb) as Hle.
  split; [exact Hiff|]. split; [exact Hle|].
  intros Ho.
  destruct (Nat.eq_dec (length (escapeTemplate t)) (length t)) as [Heq|Hne]; [|lia].
  apply (backslashed_same_length _ _ Hb) in Heq. apply Hiff in Heq as (O1 & O2 & O3 & O4).
  destruct Ho as [Ho|[Ho|[Ho|Ho]]]; congruence.
Qed.

Lemma renderTemplate_no_open_marker (s : str) (ctx : context) :
  occurs (js "{{") s = false -> occurs (js "{%") s = false ->
  renderTemplate s ctx = Ok s.
Proof.
  intros H1 H2.
  apply renderTemplate_no_match; apply scan_no_marker; assumption.
Qed.

(** Escaped text passes through [renderTemplate] as it is. *)
Theorem renderTemplate_escaped (t : str) (ctx : context) :
  occurs (js "{{{") t = false ->
  renderTemplate (escapeTemplate t) ctx = Ok (escapeTemplate t).
Proof.
  intros Ht. destruct (escapeTemplate_markers_clear t Ht) as [H1 H2].
  apply renderTemplate_no_open_marker; assumption.
Qed.

(** Where a text without backslash is read in the escaped text, it is
    read in the original. *)
Lemma backslashed_strip (t e l e' : str) :
  backslashed t e -> no_backslash l = true -> strip_prefix l e = Some e' ->
  exists t', strip_prefix l t = Some t'.
Proof.
  intros Hb. revert l e'. induction Hb as [|a t e Hb IH|t e Hb IH]; intros l e' Hl Hs.
  - destruct l; [eauto|discriminate].
  - destruct l as [|x l]; [cbn; eauto|]. cbn [strip_prefix] in *.
    destruct (x =? a)%N; [|discriminate]. cbn [no_backslash forallb] in Hl.
    apply andb_true_iff in Hl as [_ Hl]. eapply IH; eassumption.
  - destruct l as [|x l]; [cbn; eauto|]. cbn [strip_prefix] in Hs.
    cbn [no_backslash forallb] in Hl. apply andb_true_iff in Hl as [Hx _].
    apply negb_true_iff in Hx. rewrite Hx in Hs. discriminate.
Qed.

(** Inserting backslashes brings no text without backslash about. *)
Lemma backslashed_clear (t e l : str) :
  backslashed t e -> no_backslash l = true -> occurs l t = false -> occurs l e = false.
Proof.
  intros Hb Hl. induction Hb as [|a t e Hb IH|t e Hb IH]; intros Ho.
  - exact Ho.
  - cbn [occurs] in *. apply orb_false_iff in Ho as [Ho1 Ho2].
    rewrite (IH Ho2), orb_false_r. unfold startsWith in *.
    destruct (strip_prefix l (a :: e)) as [e'|] eqn:E; [|reflexivity].
    destruct (backslashed_strip (a :: t) (a :: e) l e' (bs_keep a t e Hb) Hl E) as [t' Ht].
    rewrite Ht in Ho1. discriminate.
  - cbn [occurs]. rewrite (IH Ho), orb_false_r. unfold startsWith.
    destruct (strip_prefix l (backslash :: e)) as [e'|] eqn:E; [|reflexivity].
    destruct (backslashed_strip t (backslash :: e) l e' (bs_insert t e Hb) Hl E) as [t' Ht].
    assert (Hst : startsWith t l = true) by (unfold startsWith; rewrite Ht; reflexivity).
    destruct t; cbn [occurs] in Ho; rewrite Hst in Ho; discriminate.
Qed.

(** When no three braces of a kind stand in a row, the escaped text holds
    none of the four markers, and escaping it again changes nothing. *)
Theorem escapeTemplate_idempotent (t : str) :
  occurs (js "{{{") t = false -> occurs (js "}}}") t = false ->
  (occurs (js "{{") (escapeTemplate t) = false
   /\ occurs (js "}}") (escapeTemplate t) = false
   /\ occurs (js "{%") (escapeTemplate t) = false
   /\ occurs (js "%}") (escapeTemplate t) = false)
  /\ escapeTemplate (escapeTemplate t) = escapeTemplate t.
Proof.
  intros Ho Hc.
  assert (Hm : occurs (js "{{") (escapeTemplate t) = false
               /\ occurs (js "}}") (escapeTemplate t) = false
               /\ occurs (js "{%") (escapeTemplate t) = false
               /\ occurs (js "%}") (escapeTemplate t) = false).
  { destruct (escapeTemplate_markers_clear t Ho) as [H1 H3].
    split; [exact H1|]. split; [|split; [exact H3|]].
    - unfold escapeTemplate, re_open_var, re_close_var, re_open_tag, re_close_tag.
      set (e1 := replace (RLit (js "{{")) _ t).
      set (e2 := replace (RLit (js "}}")) _ e1).
      assert (B1 : backslashed t e1) by (apply replace_lit_backslashed; repeat constructor).
      assert (H2 : occurs (js "}}") e2 = false).
      { apply (replace_pair_clear 125 125 e1); [discriminate|discriminate|right].
        apply (backslashed_clear t e1); [exact B1|reflexivity|exact Hc]. }
      apply (backslashed_clear e2); [|reflexivity|exact H2].
      eapply backslashed_trans; [|apply replace_lit_backslashed; repeat constructor].
      apply replace_lit_backslashed; repeat constructor.
    - unfold escapeTemplate, re_open_var, re_close_var, re_open_tag, re_close_tag.
      apply (replace_pair_clear 37 125); [discriminate|discriminate|left; discriminate]. }
  split; [exact Hm|].
  destruct Hm as (M1 & M2 & M3 & M4).
  unfold escapeTemplate at 1. unfold re_open_var, re_close_var, re_open_tag, re_close_tag.
  rewrite (replace_lit_none _ _ _ M1), (replace_lit_none _ _ _ M2),
    (replace_lit_none _ _ _ M3). apply replace_lit_none, M4.
Qed.

Lemma search_some (r : regex) (p1 p2 : str) (x : str * caps) :
  match_here r p2 = Some x -> exists y, search r (p1 ++ p2) = Some y.
Proof.
  intros Hm. induction p1 as [|a p1 IH]; cbn [app].
  - exists x. apply search_here, Hm.
  - cbn [search]. destruct (match_here r (a :: p1 ++ p2)); eauto.
Qed.

Lemma rstar_lazy_some (p : N -> bool) (w s : str) (k : str -> mres) (x : str * caps) :
  forallb p w = true -> k s = Some x -> exists y, rstar p false (w ++ s) k = Some y.
Proof.
  intros Hw Hk. induction w as [|a w IH]; cbn [app].
  - exists x. destruct s as [|b s]; cbn [rstar]; [exact Hk|].
    destruct (p b); rewrite Hk; reflexivity.
  - cbn [forallb] in Hw. apply andb_true_iff in Hw as [Ha Hw]. cbn [rstar]. rewrite Ha.
    destruct (k (a :: w ++ s)); eauto.
Qed.

Lemma match_here_syntax_intro (open close body post : str) :
  (open = js "{{" /\ close = js "}}") \/ (open = js "{%" /\ close = js "%}") ->
  on_one_line body = true ->
  exists y, match_here re_syntax (open ++ body ++ close ++ post) = Some y.
Proof.
  intros Hoc Hb. unfold match_here, re_syntax. cbn [rmatch].
  assert (Hk : forall l, exists y,
             rstar (cmatch CDot) false (body ++ l ++ post)
               (fun s' => match strip_prefix l s' with
                          | Some s'' => accept s'' no_caps
                          | None => None
                          end) = Some y).
  { intros l. eapply rstar_lazy_some; [exact Hb|]. rewrite strip_prefix_app. reflexivity. }
  destruct Hoc as [[-> ->]|[-> ->]].
  - rewrite strip_prefix_app. destruct (Hk (js "}}")) as [[rest c] Hy]. rewrite Hy. eauto.
  - destruct (strip_prefix (js "{{") _) as [s1|].
    + destruct (rstar _ _ s1 _) as [[rest c]|]; [eauto|].
      rewrite strip_prefix_app. destruct (Hk (js "%}")) as [[rest c] Hy]. rewrite Hy. eauto.
    + rewrite strip_prefix_app. destruct (Hk (js "%}")) as [[rest c] Hy]. rewrite Hy. eauto.
Qed.

Lemma hasTemplateSyntax_intro (open close pre body post : str) :
  (open = js "{{" /\ close = js "}}") \/ (open = js "{%" /\ close = js "%}") ->
  on_one_line body = true ->
  hasTemplateSyntax (marked open close pre body post) = true.
Proof.
  intros Hoc Hb. unfold hasTemplateSyntax, test, marked.
  destruct (match_here_syntax_intro open close body post Hoc Hb) as [y Hy].
  destruct (search_some _ pre _ _ Hy) as [z Hz]. rewrite Hz. reflexivity.
Qed.

(** [hasTemplateSyntax] holds exactly of the texts that have, on one
    line, an opening marker and behind it the closing marker of its
    kind. *)
Theorem hasTemplateSyntax_spec (s : str) :
  hasTemplateSyntax s = true <->
  exists pre body post,
    on_one_line body = true
    /\ (s = marked (js "{{") (js "}}") pre body post
        \/ s = marked (js "{%") (js "%}") pre body post).
Proof.
  unfold hasTemplateSyntax, test, marked. split.
  - destruct (search re_syntax s) as [x|] eqn:E; [intros _|discriminate].
    apply search_inv in E as (p1 & p2 & -> & Hm).
    unfold match_here, re_syntax in Hm. cbn [rmatch] in Hm.
    assert (Hk : forall l u y,
               rstar (cmatch CDot) false u
                 (fun s' => match strip_prefix l s' with
                            | Some s'' => accept s'' no_caps
                            | None => None
                            end) = Some y ->
               exists body post, on_one_line body = true /\ u = body ++ l ++ post).
    { intros l u y Hy. apply rstar_inv in Hy as (w & s' & -> & Hw & Hs').
      destruct (strip_prefix l s') as [s''|] eqn:El; [|discriminate].
      apply strip_prefix_Some in El. subst s'. exists w, s''. split; [exact Hw|reflexivity]. }
    destruct (strip_prefix (js "{{") p2) as [u|] eqn:E1.
    + apply strip_prefix_Some in E1. subst p2.
      destruct (rstar _ _ u _) as [y|] eqn:Ey.
      * destruct (Hk _ _ _ Ey) as (body & post & Hb & ->).
        exists p1, body, post. split; [exact Hb|left; reflexivity].
      * vm_compute in Hm. discriminate.
    + destruct (strip_prefix (js "{%") p2) as [u|] eqn:E2; [|discriminate].
      apply strip_prefix_Some in E2. subst p2.
      destruct (rstar _ _ u _) as [y|] eqn:Ey; [|discriminate].
      destruct (Hk _ _ _ Ey) as (body & post & Hb & ->).
      exists p1, body, post. split; [exact Hb|right; reflexivity].
  - intros (pre & body & post & Hb & [-> | ->]).
    + apply (hasTemplateSyntax_intro (js "{{") (js "}}")); [left; split; reflexivity|exact Hb].
    + apply (hasTemplateSyntax_intro (js "{%") (js "%}")); [right; split; reflexivity|exact Hb].
Qed.

(** What a match of a stage pattern has read: an opening marker and,
    behind it, the closing marker of its kind. *)
Lemma re_conditional_shape (s : str) (x : str * caps) :
  match_here re_conditional s = Some x ->
  exists body post, s = js "{%" ++ body ++ js "%}" ++ post.
Proof.
  unfold match_here, re_conditional.
  destruct (rmatch _ s no_caps accept) as [y|] eqn:Hm; [intros _|discriminate].
  seq_lit Hm. seq_any Hm w1. seq_lit Hm. seq_any Hm w2. seq_any Hm w3. seq_any Hm w4.
  seq_lit Hm.
  eexists (w1 ++ js "if" ++ w2 ++ w3 ++ w4), _. rewrite <- !app_assoc. reflexivity.
Qed.

Lemma re_for_shape (s : str) (x : str * caps) :
  match_here re_for s = Some x ->
  exists body post, s = js "{%" ++ body ++ js "%}" ++ post.
Proof.
  unfold match_here, re_for.
  destruct (rmatch _ s no_caps accept) as [y|] eqn:Hm; [intros _|discriminate].
  seq_lit Hm. seq_any Hm w1. seq_lit Hm. seq_any Hm w2. seq_any Hm w3. seq_any Hm w4.
  seq_lit Hm. seq_any Hm w5. seq_any Hm w6. seq_any Hm w7. seq_lit Hm.
  eexists (w1 ++ js "for" ++ w2 ++ w3 ++ w4 ++ js "in" ++ w5 ++ w6 ++ w7), _.
  rewrite <- !app_assoc. reflexivity.
Qed.

Lemma re_variable_shape (s : str) (x : str * caps) :
  match_here re_variable s = Some x ->
  exists body post, s = js "{{" ++ body ++ js "}}" ++ post.
Proof.
  unfold match_here, re_variable.
  destruct (rmatch _ s no_caps accept) as [y|] eqn:Hm; [intros _|discriminate].
  seq_lit Hm. seq_any Hm w1. apply rmatch_lit_inv in Hm as (? & -> & _).
  eexists w1, _. reflexivity.
Qed.

Lemma re_filter_shape (s : str) (x : str * caps) :
  match_here re_filter s = Some x ->
  exists body post, s = js "{{" ++ body ++ js "}}" ++ post.
Proof.
  unfold match_here, re_filter.
  destruct (rmatch _ s no_caps accept) as [y|] eqn:Hm; [intros _|discriminate].
  seq_lit Hm. seq_any Hm w1. seq_any Hm w2. apply rmatch_lit_inv in Hm as (? & -> & _).
  eexists (w1 ++ w2), _. rewrite <- !app_assoc. reflexivity.
Qed.

Lemma on_one_line_app (a b : str) :
  on_one_line (a ++ b) = on_one_line a && on_one_line b.
Proof. apply forallb_app. Qed.

Lemma no_syntax_no_match (open close : str) (r : regex) (s : str) :
  (open = js "{{" /\ close = js "}}") \/ (open = js "{%" /\ close = js "%}") ->
  (forall u x, match_here r u = Some x -> exists body post, u = open ++ body ++ close ++ post) ->
  on_one_line s = true -> hasTemplateSyntax s = false ->
  scan r s 0 = map PChar s.
Proof.
  intros Hoc Hr Hl Hs. apply scan_none. intros p1 p2 ->.
  destruct (match_here r p2) as [x|] eqn:E; [exfalso|reflexivity].
  destruct (Hr _ _ E) as (body & post & ->).
  assert (Ht : hasTemplateSyntax (marked open close p1 body post) = true).
  { apply hasTemplateSyntax_intro; [exact Hoc|].
    rewrite !on_one_line_app in Hl. apply andb_true_iff in Hl as [_ Hl].
    apply andb_true_iff in Hl as [_ Hl]. apply andb_true_iff in Hl as [Hl _]. exact Hl. }
  unfold marked in Ht. congruence.
Qed.

Lemma stages_skip_no_syntax (s : str) (ctx : context) :
  on_one_line s = true -> hasTemplateSyntax s = false -> renderTemplate s ctx = Ok s.
Proof.
  intros Hl Hs. apply renderTemplate_no_match.
  - apply (no_syntax_no_match (js "{%") (js "%}")); [right; split; reflexivity| |exact Hl|exact Hs].
    exact re_conditional_shape.
  - apply (no_syntax_no_match (js "{%") (js "%}")); [right; split; reflexivity| |exact Hl|exact Hs].
    exact re_for_shape.
  - apply (no_syntax_no_match (js "{{") (js "}}")); [left; split; reflexivity| |exact Hl|exact Hs].
    exact re_variable_shape.
  - apply (no_syntax_no_match (js "{{") (js "}}")); [left; split; reflexivity| |exact Hl|exact Hs].
    exact re_filter_shape.
Qed.

(** On a text of one line, [hasTemplateSyntax] is a sound guard: where it
    is false, [renderTemplate] changes nothing.  Not so on a text of
    several lines: the stages read a line break inside a tag as white
    space, the dot of [hasTemplateSyntax] does not run over it. *)
Theorem renderTemplate_no_syntax :
  (forall (s : str) (ctx : context),
      on_one_line s = true -> hasTemplateSyntax s = false -> renderTemplate s ctx = Ok s)
  /\ (exists (s : str) (ctx : context),
         hasTemplateSyntax s = false /\ renderTemplate s ctx <> Ok s).
Proof.
  split; [exact stages_skip_no_syntax|].
  exists (js "{%" ++ newline ++ js "if a %}X{%" ++ newline ++ js "endif %}"),
         {[ js "a" := VBool true ]}.
  split; [reflexivity|]. vm_compute. discriminate.
Qed.

Lemma filter_call_parse (name arg : str) :
  is_identifier name = true -> no_paren arg = true ->
  exists c, search re_filter_call (name ++ js "(" ++ arg ++ js ")")
            = Some (name ++ js "(" ++ arg ++ js ")", c)
            /\ c 1 = Some name /\ c 2 = Some arg.
Proof.
  intros Hn Ha. destruct name as [|n0 name]; [discriminate|].
  cbn [is_identifier forallb] in Hn. apply andb_true_iff in Hn as [Hn0 Hn].
  unfold no_paren in Ha.
  eexists. split; [apply search_here, match_here_intro_all|].
  - unfold re_filter_call, RPlus, ROpt. norm_str. rx.
    apply rmatch_alt_l. rx. reflexivity.
  - caps_eval. norm_str. split; f_equal; solve_consumed.
Qed.

Lemma match_here_char (p : cclass) (a : N) (s : str) :
  match_here (RChar p) (a :: s) = if cmatch p a then Some ([a], no_caps) else None.
Proof.
  unfold match_here. cbn [rmatch]. destruct (cmatch p a); [|reflexivity].
  unfold accept. f_equal. f_equal. unfold consumed. cbn [length].
  replace (S (length s) - length s) with 1 by lia. reflexivity.
Qed.

Lemma replace_char_skip (p : cclass) (f : str -> caps -> str) (a : N) (s : str) :
  cmatch p a = false -> replace (RChar p) f (a :: s) = a :: replace (RChar p) f s.
Proof.
  intros Ha. apply (replace_prefix (RChar p) f [a] s).
  intros p1 p2 Hp Hne. destruct p1 as [|b p1].
  - cbn [app] in Hp. subst p2. cbn [app]. rewrite match_here_char, Ha. reflexivity.
  - destruct p1; destruct p2; try discriminate; congruence.
Qed.

Lemma replace_char_match (p : cclass) (f : str -> caps -> str) (a : N) (s : str) :
  cmatch p a = true -> replace (RChar p) f (a :: s) = f [a] no_caps ++ replace (RChar p) f s.
Proof.
  intros Ha. apply (replace_match (RChar p) f [a] s no_caps); [discriminate|].
  cbn [app]. rewrite match_here_char, Ha. reflexivity.
Qed.

(** Removing the units of a class with a global replace is filtering. *)
Lemma replace_char_delete (p : cclass) (s : str) :
  replace (RChar p) (fun _ _ => []) s = List.filter (fun a => negb (cmatch p a)) s.
Proof.
  induction s as [|a s IH]; [reflexivity|]. cbn [List.filter].
  destruct (cmatch p a) eqn:Ha; cbn [negb].
  - rewrite replace_char_match by exact Ha. exact IH.
  - rewrite replace_char_skip by exact Ha. f_equal. exact IH.
Qed.

Lemma search_quoted_none (arg : str) :
  forallb (cmatch nonquote_class) arg = true -> search re_quoted arg = None.
Proof.
  intros Ha. apply search_none. intros p1 p2 ->.
  rewrite forallb_app in Ha. apply andb_true_iff in Ha as [_ Ha].
  unfold match_here, re_quoted. cbn [rmatch]. destruct p2 as [|a p2]; [reflexivity|].
  cbn [forallb] in Ha. apply andb_true_iff in Ha as [Ha _].
  replace (cmatch quote_class a) with false; [reflexivity|].
  symmetry. apply negb_true_iff. exact Ha.
Qed.

End ModuleProperties.

Ltac name_is n :=
  unfold cap;
  match goal with Hc : _ 1 = Some _ |- _ => rewrite Hc end;
  cbn [default from_option id];
  repeat match goal with
         | |- context [str_eqb (js ?a) (js ?b)] =>
             let v := eval vm_compute in (str_eqb (js a) (js b)) in
             replace (str_eqb (js a) (js b)) with v by (vm_compute; reflexivity)
         end;
  cbv iota.

Section RenderingProperties.
Context {H : Host}.

Lemma mapM_result_raises {A B} (f : A -> result B) (l : list A) (a : A) (e : error) :
  In a l -> f a = Raise e -> exists e', mapM_result f l = Raise e'.
Proof.
  induction l as [|x l IH]; intros Hin Hf; [destruct Hin|].
  cbn [mapM_result]. destruct Hin as [->|Hin].
  - rewrite Hf. cbn. eauto.
  - destruct (f x); cbn; [|eauto]. destruct (IH Hin Hf) as [e' ->]. cbn. eauto.
Qed.

(** An array that holds an object with a property [toString] of its own
    cannot be joined. *)
Lemma array_join_raises (l : list value) (sep : str) (m : gmap str value) (x : value) :
  In (VObj m) l -> m !! js "toString" = Some x -> array_join l sep = Raise TypeError.
Proof.
  intros Hin Hm. pose proof (array_join_ended l sep) as He. unfold array_join in *.
  destruct (mapM_result_raises
              (fun x => match x with VUndef | VNull => Ok [] | _ => string_of x end)
              l (VObj m) TypeError Hin) as [e' Hr].
  { cbn [string_of]. rewrite Hm. rewrite bool_decide_eq_true_2 by eauto. reflexivity. }
  rewrite Hr in *. cbn in *. destruct e'; [reflexivity|destruct He].
Qed.

(** The separator of [join]: the argument with every quote taken out,
    or [", "] when nothing is left.  An array of strings gives the
    strings with the separator between them; an array that holds an
    object with a property [toString] of its own raises a TypeError.
    What is no array passes through. *)
Theorem applyFilter_join (arg : str) :
  no_paren arg = true ->
  (forall l : list value,
      applyFilter (VArr l) (filter_call (js "join") (Some arg))
      = (s ← array_join l (match without_quotes arg with
                           | [] => js ", "
                           | sep => sep
                           end);
         Ok (Data (VStr s))))
  /\ (forall ss : list str,
         applyFilter (VArr (map VStr ss)) (filter_call (js "join") (Some arg))
         = Ok (VStr (join (match without_quotes arg with
                           | [] => js ", "
                           | sep => sep
                           end) ss)))
  /\ (forall (l : list value) (m : gmap str value) (x : value),
         In (VObj m) l -> m !! js "toString" = Some x ->
         applyFilter (VArr l) (filter_call (js "join") (Some arg)) = Raise TypeError)
  /\ (forall v : jsvalue, isArray v = false ->
                          applyFilter v (filter_call (js "join") (Some arg)) = Ok v).
Proof.
  intros Ha.
  destruct (filter_call_parse (js "join") arg eq_refl Ha) as (c & Hs & Hc1 & Hc2).
  assert (Hj : forall l : list value,
             applyFilter (VArr l) (filter_call (js "join") (Some arg))
             = (s ← array_join l (match without_quotes arg with
                                  | [] => js ", "
                                  | sep => sep
                                  end);
                Ok (Data (VStr s)))).
  { intros l. unfold applyFilter, filter_call. rewrite Hs. name_is (js "join").
    rewrite Hc2. cbn [elements]. unfold re_quote. rewrite replace_char_delete.
    fold (without_quotes arg). destruct (without_quotes arg); reflexivity. }
  split; [exact Hj|]. split; [|split].
  - intros ss. rewrite Hj, array_join_strings. reflexivity.
  - intros l m x Hin Hm. rewrite Hj, (array_join_raises l _ m x Hin Hm). reflexivity.
  - intros v Hv. unfold applyFilter, filter_call. rewrite Hs. name_is (js "join").
    unfold isArray in Hv. destruct (elements v); [discriminate|reflexivity].
Qed.

(** [default] with an argument that holds no quoted literal puts the
    empty string in the place of a missing value. *)
Theorem applyFilter_default_unquoted (v : jsvalue) (arg : str) :
  is_missing v = true ->
  no_paren arg = true -> forallb (cmatch nonquote_class) arg = true ->
  applyFilter v (filter_call (js "default") (Some arg)) = Ok (VStr [])
  /\ applyFilter v (js "default") = Ok (VStr []).
Proof.
  intros Hv Ha Hq. split.
  - destruct (filter_call_parse (js "default") arg eq_refl Ha) as (c & Hs & Hc1 & Hc2).
    unfold applyFilter, filter_call. rewrite Hs. name_is (js "default").
    rewrite Hc2, (search_quoted_none arg Hq).
    destruct v as [[| |b|n|[|a s]|l|o]|f| |]; try discriminate; reflexivity.
  - destruct v as [[| |b|n|[|a s]|l|o]|f| |]; try discriminate; reflexivity.
Qed.

Lemma split_cons (c : N) (a b : str) :
  forallb (fun u => negb (u =? c)%N) a = true ->
  split c (a ++ c :: b) = a :: split c b.
Proof.
  induction a as [|x a IH]; cbn [app forallb split]; intros Ha.
  - rewrite N.eqb_refl. reflexivity.
  - apply andb_true_iff in Ha as [Hx Ha]. apply negb_true_iff in Hx. rewrite Hx.
    rewrite (IH Ha). reflexivity.
Qed.

Lemma split_parts_no_sep (c : N) (s : str) :
  Forall (fun p => forallb (fun u => negb (u =? c)%N) p = true) (split c s).
Proof.
  induction s as [|a s IH]; cbn [split].
  - repeat constructor.
  - destruct (N.eqb_spec a c) as [->|Hne].
    + constructor; [reflexivity|exact IH].
    + destruct (split c s) as [|p ps]; inversion IH; subst.
      * repeat constructor. cbn [forallb]. apply andb_true_iff. split; [|reflexivity].
        apply negb_true_iff, N.eqb_neq, Hne.
      * constructor; [|assumption]. cbn [forallb]. apply andb_true_iff. split; [|assumption].
        apply negb_true_iff, N.eqb_neq, Hne.
Qed.

Lemma split_head (c : N) (s : str) : exists p ps, split c s = p :: ps.
Proof.
  induction s as [|a s IH]; cbn [split]; [eauto|].
  destruct (a =? c)%N; [eauto|]. destruct (split c s); eauto.
Qed.

Lemma js_inj (a b : string) : js a = js b -> a = b.
Proof.
  unfold js. intros Hm.
  rewrite <- (string_of_list_ascii_of_string a), <- (string_of_list_ascii_of_string b).
  f_equal. revert Hm. generalize (list_ascii_of_string a) (list_ascii_of_string b).
  induction l as [|x l IH]; intros [|y l']; cbn [map]; try discriminate; [reflexivity|].
  intros [= Hxy Hl]. f_equal; [|apply IH, Hl].
  rewrite <- (ascii_N_embedding x), <- (ascii_N_embedding y), Hxy. reflexivity.
Qed.

Lemma nat_to_str_inj (i j : nat) : nat_to_str i = nat_to_str j -> i = j.
Proof.
  unfold nat_to_str. intros Hs. apply js_inj in Hs.
  assert (Hu : Nat.to_uint i = Nat.to_uint j).
  { assert (Some (Nat.to_uint i) = Some (Nat.to_uint j)) as [= ->]; [|reflexivity].
    rewrite <- !NilEmpty.usu, Hs. reflexivity. }
  rewrite <- (Unsigned.of_to i), <- (Unsigned.of_to j), Hu. reflexivity.
Qed.

Lemma string_of_uint_digits (d : Decimal.uint) :
  forallb is_digit (js (NilEmpty.string_of_uint d)) = true.
Proof. induction d; cbn; auto. Qed.

Lemma nat_to_str_digits (i : nat) : forallb is_digit (nat_to_str i) = true.
Proof. apply string_of_uint_digits. Qed.

Lemma nat_to_str_dot_free (i : nat) : dot_free (nat_to_str i) = true.
Proof.
  unfold dot_free. eapply forallb_impl; [|apply nat_to_str_digits].
  intros a Ha. unfold is_digit in Ha. apply andb_true_iff in Ha as [Ha _].
  apply negb_true_iff, N.eqb_neq. apply N.leb_le in Ha. lia.
Qed.

Lemma nat_to_str_not_length (i : nat) : nat_to_str i <> js "length".
Proof.
  intros Heq. pose proof (nat_to_str_digits i) as Hd. rewrite Heq in Hd. discriminate.
Qed.

Lemma find_index (i n : nat) :
  list_find (fun j => nat_to_str j = nat_to_str i) (seq 0 n)
  = if decide (i < n) then Some (i, i) else None.
Proof.
  destruct (decide (i < n)) as [Hlt|Hge].
  - apply list_find_Some. split; [apply lookup_seq; lia|].
    split; [reflexivity|]. intros k y Hk Hki Hy.
    apply lookup_seq in Hk as [-> _]. apply nat_to_str_inj in Hy. lia.
  - apply list_find_None. apply Forall_forall. intros j Hj Heq.
    apply nat_to_str_inj in Heq. subst j. apply elem_of_seq in Hj. lia.
Qed.

Lemma assoc_numeral {A} (l : list (str * A)) (k : str) :
  forallb (fun e => negb (forallb is_digit (fst e))) l = true ->
  forallb is_digit k = true -> assoc k l = None.
Proof.
  intros Hl Hk. induction l as [|[k' a] l IH]; [reflexivity|].
  cbn [forallb fst] in Hl. apply andb_true_iff in Hl as [Hk' Hl].
  cbn [assoc]. unfold str_eqb. rewrite bool_decide_eq_false_2; [apply IH, Hl|].
  intros ->. rewrite Hk in Hk'. discriminate.
Qed.

Lemma object_method_index (i : nat) : object_method (nat_to_str i) = None.
Proof.
  apply assoc_numeral; [apply object_methods_named|apply nat_to_str_digits].
Qed.

Lemma array_method_index (i : nat) : array_method (nat_to_str i) = None.
Proof.
  apply assoc_numeral; [apply array_methods_named|apply nat_to_str_digits].
Qed.

Lemma nat_to_str_not_proto (i : nat) : nat_to_str i <> js "__proto__".
Proof.
  intros Heq. pose proof (nat_to_str_digits i) as Hd. rewrite Heq in Hd. discriminate.
Qed.

Lemma getNestedValue_cons (obj : jsvalue) (k p : str) :
  dot_free k = true ->
  getNestedValue obj (k ++ js "." ++ p) = walk_parts (k :: split 46 p) obj.
Proof.
  intros Hk. unfold getNestedValue. change (js ".") with [46%N]. cbn [app].
  rewrite (split_cons 46 k p Hk). reflexivity.
Qed.

Lemma walk_parts_scalar (parts : list str) (v : value) :
  parts <> [] -> is_scalar v = true -> walk_parts parts v = Ok VUndef.
Proof.
  intros Hp Hv. destruct parts as [|part parts]; [congruence|].
  cbn [walk_parts]. destruct v as [| |[|]|n|[|a s]|l|m]; try discriminate; cbn;
    try reflexivity.
  destruct (num_truthy n); reflexivity.
Qed.

Lemma walk_parts_builtin (parts : list str) (f : builtin) :
  parts <> [] -> walk_parts parts (Builtin f) = Ok VUndef.
Proof. intros Hp. destruct parts as [|part parts]; [congruence|reflexivity]. Qed.

Lemma walk_parts_own (ctx : context) (k : str) (v : value) (rest : list str) :
  ctx !! k = Some v -> walk_parts (k :: rest) (VObj ctx) = walk_parts rest v.
Proof.
  intros Hv. cbn [walk_parts ToBoolean typeof_object]. unfold get_property.
  rewrite (has_property_own ctx k v Hv), (find_property_own ctx k v Hv). reflexivity.
Qed.

Lemma walk_parts_absent (ctx : context) (k : str) (rest : list str) :
  ctx !! k = None -> inherited_name k = false ->
  walk_parts (k :: rest) (VObj ctx) = Ok VUndef.
Proof.
  intros Hv Hi. cbn [walk_parts ToBoolean typeof_object].
  rewrite (has_property_absent ctx k Hv), Hi. reflexivity.
Qed.

Lemma walk_parts_method (ctx : context) (k : str) (f : builtin) (rest : list str) :
  ctx !! k = None -> k <> js "__proto__" -> object_method k = Some f ->
  walk_parts (k :: rest) (VObj ctx) = walk_parts rest (Builtin f).
Proof.
  intros Hv Hp Hf. cbn [walk_parts ToBoolean typeof_object]. unfold has_property, get_property.
  rewrite (find_property_absent ctx k Hv). unfold object_prototype_get, str_eqb.
  rewrite bool_decide_eq_false_2 by exact Hp. rewrite Hf. reflexivity.
Qed.

(** Dotted paths: a path goes down through objects, key by key, and a
    key is read back as it was put.  A path ends in [undefined] at a
    value that is neither an object nor an array, and at a key that the
    object neither holds nor inherits.  The name of a method that every
    object inherits gives that function, and [undefined] when the path
    goes on. *)
Theorem getNestedValue_descent (ctx : context) (k : str) :
  dot_free k = true ->
  (forall v : value, getNestedValue (VObj (<[k := v]> ctx)) k = Ok v)
  /\ (forall m p, ctx !! k = Some (VObj m) ->
                  getNestedValue (VObj ctx) (k ++ js "." ++ p) = getNestedValue (VObj m) p)
  /\ (forall (v : value) p, ctx !! k = Some v -> is_scalar v = true ->
                  getNestedValue (VObj ctx) (k ++ js "." ++ p) = Ok VUndef)
  /\ (ctx !! k = None -> inherited_name k = false ->
      getNestedValue (VObj ctx) k = Ok VUndef
      /\ forall p, getNestedValue (VObj ctx) (k ++ js "." ++ p) = Ok VUndef)
  /\ (forall f, ctx !! k = None -> k <> js "__proto__" -> object_method k = Some f ->
      getNestedValue (VObj ctx) k = Ok (Builtin f)
      /\ forall p, getNestedValue (VObj ctx) (k ++ js "." ++ p) = Ok VUndef).
Proof.
  intros Hk. split; [|split; [|split; [|split]]].
  - intros v. apply getNestedValue_key; [apply split_no_sep, Hk|apply lookup_insert_eq].
  - intros m p Hm. rewrite getNestedValue_cons by exact Hk.
    rewrite (walk_parts_own ctx k _ _ Hm). reflexivity.
  - intros v p Hv Hs. rewrite getNestedValue_cons by exact Hk.
    rewrite (walk_parts_own ctx k _ _ Hv). apply walk_parts_scalar; [|exact Hs].
    destruct (split_head 46 p) as (q & qs & ->). discriminate.
  - intros Hn Hi. split; [apply getNestedValue_absent; [apply split_no_sep, Hk|exact Hn|exact Hi]|].
    intros p. rewrite getNestedValue_cons by exact Hk. apply walk_parts_absent; assumption.
  - intros f Hn Hp Hf. split.
    + unfold getNestedValue. rewrite (split_no_sep 46 k Hk).
      rewrite (walk_parts_method ctx k f [] Hn Hp Hf). reflexivity.
    + intros p. rewrite getNestedValue_cons by exact Hk.
      rewrite (walk_parts_method ctx k f _ Hn Hp Hf). apply walk_parts_builtin.
      destruct (split_head 46 p) as (q & qs & ->). discriminate.
Qed.

Lemma getNestedValue_through_scalar (ctx : context) (k p : str) (v : value) :
  dot_free k = true -> ctx !! k = Some v -> is_scalar v = true ->
  getNestedValue (VObj ctx) (k ++ js "." ++ p) = Ok VUndef.
Proof.
  intros Hk Hv Hs. rewrite getNestedValue_cons by exact Hk.
  rewrite (walk_parts_own ctx k _ _ Hv). apply walk_parts_scalar; [|exact Hs].
  destruct (split_head 46 p) as (q & qs & ->). discriminate.
Qed.

Lemma find_property_index (l : list value) (i : nat) :
  find_property (VArr l) (nat_to_str i)
  = match l !! i with Some v => Some (Data v) | None => None end.
Proof.
  cbn [find_property]. unfold array_get, array_prototype_get, object_prototype_get, str_eqb.
  rewrite !(bool_decide_eq_false_2 (nat_to_str i = js "length"))
    by apply nat_to_str_not_length.
  rewrite (bool_decide_eq_false_2 (nat_to_str i = js "__proto__"))
    by apply nat_to_str_not_proto.
  rewrite array_method_index, object_method_index, find_index.
  destruct (decide (i < length l)) as [Hlt|Hge].
  - destruct (lookup_lt_is_Some_2 l i Hlt) as [v Hv]. rewrite Hv. reflexivity.
  - rewrite (lookup_ge_None_2 l i) by lia. reflexivity.
Qed.

(** Arrays: a path reaches the elements of an array by their index and
    its size by [length]; an index out of range gives [undefined]. *)
Theorem getNestedValue_array (ctx : context) (k : str) (l : list value) :
  dot_free k = true -> ctx !! k = Some (VArr l) ->
  getNestedValue (VObj ctx) (k ++ js ".length") = Ok (VNum (num_of_nat (length l)))
  /\ forall i, getNestedValue (VObj ctx) (k ++ js "." ++ nat_to_str i)
               = Ok (default VUndef (l !! i)).
Proof.
  intros Hk Hl. split.
  - change (k ++ js ".length") with (k ++ js "." ++ js "length").
    rewrite getNestedValue_cons by exact Hk.
    rewrite (walk_parts_own ctx k _ _ Hl). reflexivity.
  - intros i. rewrite getNestedValue_cons by exact Hk.
    rewrite (split_no_sep 46 (nat_to_str i)) by apply nat_to_str_dot_free.
    rewrite (walk_parts_own ctx k _ _ Hl).
    cbn [walk_parts ToBoolean typeof_object]. unfold has_property, get_property.
    rewrite find_property_index. destruct (l !! i); reflexivity.
Qed.

Lemma getNestedValue_dotted_key (ctx : context) (k path : str) (v : value) :
  has_dot k = true ->
  getNestedValue (VObj (<[k := v]> ctx)) path = getNestedValue (VObj ctx) path.
Proof.
  intros Hk. unfold getNestedValue.
  pose proof (split_parts_no_sep 46 path) as Hp.
  destruct (split_head 46 path) as (part & parts & Hs). rewrite Hs in *.
  inversion Hp as [|? ? Hpart _]; subst.
  assert (Hne : k <> part).
  { intros ->. unfold has_dot in Hk. apply existsb_exists in Hk as (u & Hin & Hu).
    rewrite forallb_forall in Hpart. specialize (Hpart u Hin). rewrite Hu in Hpart.
    discriminate. }
  cbn [walk_parts ToBoolean typeof_object]. unfold has_property, get_property.
  cbn [find_property]. rewrite lookup_insert_ne by exact Hne. reflexivity.
Qed.

Lemma path_not_eqsign (a : N) : cmatch path_class a = true -> negb (a =? 61)%N = true.
Proof.
  intros Ha. destruct (N.eqb_spec a 61) as [->|]; [discriminate Ha|reflexivity].
Qed.

Lemma path_not_blank (a : N) : cmatch path_class a = true -> negb (a =? 32)%N = true.
Proof.
  intros Ha. destruct (N.eqb_spec a 32) as [->|]; [discriminate Ha|reflexivity].
Qed.

Lemma startsWith_In (s l : str) (a : N) : startsWith s l = true -> In a l -> In a s.
Proof.
  unfold startsWith. destruct (strip_prefix l s) as [s'|] eqn:E; [|discriminate].
  apply strip_prefix_Some in E. subst s. intros _ Hin. apply in_or_app. left. exact Hin.
Qed.

Lemma evaluateCondition_path (cond : str) (ctx : context) :
  is_path cond = true -> evaluateCondition cond ctx = ToBoolean (ctx_get ctx cond).
Proof.
  intros Hp. unfold evaluateCondition.
  destruct (has_property cond (VObj ctx)) eqn:Hv; [reflexivity|].
  apply has_property_false in Hv as [Hv Hi].
  assert (Hc : forallb (cmatch path_class) cond = true)
    by (destruct cond; [discriminate|exact Hp]).
  assert (He : forall x, occurs [x; 61%N] cond = false).
  { intros x. apply occurs_no_char. eapply forallb_impl; [|exact Hc].
    intros a Ha. apply path_not_eqsign, Ha. }
  change re_eq with (re_compare (js "==")). change re_neq with (re_compare (js "!=")).
  rewrite !re_compare_none by apply He.
  destruct (startsWith cond (js "not ")) eqn:Hs; [exfalso|].
  - apply (startsWith_In _ _ 32%N) in Hs; [|vm_compute; tauto].
    rewrite forallb_forall in Hc. specialize (Hc _ Hs). discriminate.
  - rewrite (ctx_get_absent ctx cond Hv Hi). reflexivity.
Qed.

(** A condition that is a dotted path is looked up as one key of the
    context; the path is not followed.  The condition has the truth
    value of the value under that key, and without such a key it holds
    only when the whole text is a name that every object inherits: a
    path that leads to a value through an object of the context is a
    false condition, whatever the value. *)
Theorem evaluateCondition_dotted (cond : str) (ctx : context) :
  is_path cond = true ->
  evaluateCondition cond ctx = ToBoolean (ctx_get ctx cond)
  /\ (forall v : value, ctx !! cond = Some v -> evaluateCondition cond ctx = ToBoolean v)
  /\ (ctx !! cond = None -> evaluateCondition cond ctx = inherited_name cond)
  /\ (forall k p m, cond = k ++ js "." ++ p -> dot_free k = true ->
        ctx !! k = Some (VObj m) -> ctx !! cond = None -> inherited_name cond = false ->
        evaluateCondition cond ctx = false
        /\ getNestedValue (VObj ctx) cond = getNestedValue (VObj m) p).
Proof.
  intros Hp. pose proof (evaluateCondition_path cond ctx Hp) as He.
  split; [exact He|]. split; [|split].
  - intros v Hv. rewrite He, (ctx_get_own ctx cond v Hv). reflexivity.
  - intros Hn. rewrite He. destruct (inherited_name cond) eqn:Hi.
    + apply (ctx_get_inherited ctx cond Hn Hi).
    + rewrite (ctx_get_absent ctx cond Hn Hi). reflexivity.
  - intros k p m -> Hk Hm Hn Hi. split.
    + rewrite He, (ctx_get_absent ctx _ Hn Hi). reflexivity.
    + rewrite getNestedValue_cons by exact Hk. rewrite (walk_parts_own ctx k _ _ Hm). reflexivity.
Qed.

(** A key of the context that holds a dot is out of the reach of every
    path, and so of every placeholder: a path is cut at its dots before
    any key is read. *)
Theorem dotted_key_unreachable (k : str) (v : value) (ctx : context) :
  has_dot k = true ->
  (forall path, getNestedValue (VObj (<[k := v]> ctx)) path = getNestedValue (VObj ctx) path)
  /\ (forall t, handleVariables t (<[k := v]> ctx) = handleVariables t ctx)
  /\ (forall t, handleFilters t (<[k := v]> ctx) = handleFilters t ctx).
Proof.
  intros Hk. split; [|split].
  - intros path. apply getNestedValue_dotted_key, Hk.
  - intros t. unfold handleVariables. apply replaceM_ext. intros m c _. cbv zeta.
    rewrite getNestedValue_dotted_key by exact Hk. reflexivity.
  - intros t. unfold handleFilters. apply replaceM_ext. intros m c _. cbv zeta.
    rewrite getNestedValue_dotted_key by exact Hk. reflexivity.
Qed.

Lemma rstar_stop (p : N -> bool) (g : bool) (a : N) (s : str) (k : str -> mres) :
  p a = false -> rstar p g (a :: s) k = k (a :: s).
Proof. intros Ha. cbn [rstar]. rewrite Ha. reflexivity. Qed.

Lemma run_prefix (p : N -> bool) (u : str) (a : N) (t w s' : str) :
  forallb p u = true -> p a = false -> u ++ a :: t = w ++ s' -> forallb p w = true ->
  exists u2, u = w ++ u2 /\ s' = u2 ++ a :: t.
Proof.
  intros Hu Ha. revert w. induction u as [|x u IH]; intros w Heq Hw.
  - destruct w as [|y w].
    + exists []. split; [reflexivity|]. cbn [app] in *. congruence.
    + cbn [app] in Heq. injection Heq as <- _. cbn [forallb] in Hw.
      rewrite Ha in Hw. discriminate.
  - destruct w as [|y w].
    + exists (x :: u). split; [reflexivity|]. cbn [app] in *. congruence.
    + cbn [app] in Heq. injection Heq as <- Heq. cbn [forallb] in Hu, Hw.
      apply andb_true_iff in Hu as [_ Hu]. apply andb_true_iff in Hw as [_ Hw].
      destruct (IH Hu w Heq Hw) as (u2 & -> & ->). exists u2. split; reflexivity.
Qed.

(** A run of [p] followed by a unit outside [p]: the star fails when the
    rest of the pattern fails behind every part of the run. *)
Lemma rstar_none_run (p : N -> bool) (g : bool) (u : str) (a : N) (t : str)
    (k : str -> mres) :
  forallb p u = true -> p a = false ->
  (forall u1 u2, u = u1 ++ u2 -> k (u2 ++ a :: t) = None) ->
  rstar p g (u ++ a :: t) k = None.
Proof.
  intros Hu Ha Hk. apply rstar_none. intros w s' Heq Hw.
  destruct (run_prefix p u a t w s' Hu Ha Heq Hw) as (u2 & -> & ->).
  apply (Hk w u2). reflexivity.
Qed.

Lemma strip_prefix_head (x a : N) (l s : str) :
  x <> a -> strip_prefix (x :: l) (a :: s) = None.
Proof. intros Hne. cbn [strip_prefix]. apply N.eqb_neq in Hne. rewrite Hne. reflexivity. Qed.

Lemma path_not_bar (a : N) : cmatch path_class a = true -> a <> 124%N.
Proof. intros Ha ->. discriminate. Qed.

Lemma path_not_close (a : N) : cmatch path_class a = true -> a <> 125%N.
Proof. intros Ha ->. discriminate. Qed.

Lemma path_not_open (a : N) : cmatch path_class a = true -> a <> 123%N.
Proof. intros Ha ->. discriminate. Qed.

Lemma word_is_path (a : N) : is_word a = true -> cmatch path_class a = true.
Proof. intros Ha. cbn [cmatch path_class]. rewrite Ha. reflexivity. Qed.

Lemma forallb_app_r {A} (p : A -> bool) (u1 u2 : list A) :
  forallb p (u1 ++ u2) = true -> forallb p u2 = true.
Proof. rewrite forallb_app. intros Hu. apply andb_true_iff in Hu as [_ Hu]. exact Hu. Qed.

(** Behind a run of path units that a bar ends, neither white space nor
    the closing marker is found. *)
Lemma close_fails_at_bar (u tail : str) (K : str -> str -> mres) :
  forallb (cmatch path_class) u = true ->
  rstar (cmatch CSpace) true (u ++ 124%N :: tail)
    (fun s0 => match strip_prefix (js "}}") s0 with
               | Some s1 => K s0 s1
               | None => None
               end) = None.
Proof.
  intros Hu. change (js "}}") with [125%N; 125%N]. destruct u as [|x u]; cbn [app].
  - rewrite rstar_stop by reflexivity. reflexivity.
  - cbn [forallb] in Hu. apply andb_true_iff in Hu as [Hx _].
    rewrite rstar_stop by (apply path_not_space, Hx).
    rewrite strip_prefix_head; [reflexivity|]. intros <-. discriminate.
Qed.

Lemma variable_fails_at_bar (path tail : str) (c : caps) (k : str -> caps -> mres) :
  is_path path = true ->
  rmatch re_variable (js "{{" ++ path ++ js "|" ++ tail) c k = None.
Proof.
  intros Hp. destruct path as [|a path]; [discriminate|].
  cbn [is_path forallb] in Hp. apply andb_true_iff in Hp as [Ha Hp].
  unfold re_variable, RPlus. cbn [rmatch]. rewrite strip_prefix_app.
  cbn [app]. rewrite rstar_stop by (apply path_not_space, Ha). rewrite Ha.
  change (js "|") with [124%N]. cbn [app].
  apply rstar_none_run; [exact Hp|reflexivity|]. intros u1 u2 ->.
  apply (close_fails_at_bar u2 tail (fun s0 s1 => k s1 _)).
  apply (forallb_app_r _ u1), Hp.
Qed.

Lemma filter_fails_at_second_bar (path f tail : str) (c : caps) (k : str -> caps -> mres) :
  is_path path = true -> is_identifier f = true ->
  rmatch re_filter (js "{{" ++ path ++ js "|" ++ f ++ js "|" ++ tail) c k = None.
Proof.
  intros Hp Hf. destruct path as [|a path]; [discriminate|].
  cbn [is_path forallb] in Hp. apply andb_true_iff in Hp as [Ha Hp].
  destruct f as [|b f]; [discriminate|].
  cbn [is_identifier forallb] in Hf. apply andb_true_iff in Hf as [Hb Hf].
  unfold re_filter, RPlus, ROpt. cbn [rmatch]. rewrite strip_prefix_app.
  cbn [app]. rewrite rstar_stop by (apply path_not_space, Ha). rewrite Ha.
  change (js "|") with [124%N]. cbn [app].
  apply rstar_none_run; [exact Hp|reflexivity|]. intros u1 u2 ->.
  destruct u2 as [|x u2]; cbn [app].
  2:{ apply forallb_app_r in Hp. cbn [forallb] in Hp. apply andb_true_iff in Hp as [Hx _].
      rewrite rstar_stop by (apply path_not_space, Hx).
      rewrite strip_prefix_head; [reflexivity|]. intros <-. discriminate. }
  rewrite rstar_stop by reflexivity. cbn [strip_prefix N.eqb Pos.eqb].
  rewrite rstar_stop by (apply word_not_space, Hb).
  cbn [cmatch]. rewrite Hb.
  apply rstar_none_run; [exact Hf|reflexivity|]. intros v1 v2 ->.
  apply forallb_app_r in Hf.
  change (js "(") with [40%N]. change (js "}}") with [125%N; 125%N].
  destruct v2 as [|y v2]; cbn [app].
  - cbn [strip_prefix N.eqb Pos.eqb]. rewrite rstar_stop by reflexivity. reflexivity.
  - cbn [forallb] in Hf. apply andb_true_iff in Hf as [Hy _].
    rewrite (strip_prefix_head 40 y) by (intros <-; discriminate).
    rewrite rstar_stop by (apply word_not_space, Hy).
    rewrite strip_prefix_head; [reflexivity|]. intros <-. discriminate.
Qed.

Lemma no_brace_occurs (x : N) (l s : str) :
  no_brace s = true -> occurs (123%N :: x :: l) s = false.
Proof.
  induction s as [|a s IH]; [reflexivity|]. cbn [no_brace forallb]. intros Hs.
  apply andb_true_iff in Hs as [Ha Hs]. apply negb_true_iff in Ha.
  cbn [occurs]. rewrite (IH Hs), orb_false_r. unfold startsWith. cbn [strip_prefix].
  rewrite N.eqb_sym, Ha. reflexivity.
Qed.

(** In a text with one opening marker at its head only, a pattern that
    starts with the marker can match at the head only. *)
Lemma single_open (l : str) (r : regex) (a : N) (W : str) :
  a <> 123%N -> no_brace W = true ->
  forall p1 p2, p1 <> [] -> 123%N :: 123%N :: a :: W = p1 ++ p2 ->
                match_here (RLit (123%N :: 123%N :: l) &> r) p2 = None.
Proof.
  intros Ha HW p1 p2 Hne Heq. apply match_here_lit_none.
  destruct p1 as [|x1 p1]; [congruence|]. injection Heq as _ Heq.
  destruct p1 as [|x2 p1].
  - cbn [app] in Heq. subst p2. cbn [strip_prefix]. rewrite N.eqb_refl.
    apply N.eqb_neq in Ha. rewrite N.eqb_sym, Ha. reflexivity.
  - injection Heq as _ Heq.
    assert (Hp2 : no_brace p2 = true).
    { assert (Hn : no_brace (a :: W) = true).
      { cbn [no_brace forallb]. apply andb_true_iff. split; [|exact HW].
        apply negb_true_iff, N.eqb_neq, Ha. }
      rewrite Heq in Hn. apply (forallb_app_r _ p1), Hn. }
    destruct p2 as [|y p2]; [reflexivity|]. cbn [no_brace forallb] in Hp2.
    apply andb_true_iff in Hp2 as [Hy _]. apply negb_true_iff in Hy.
    cbn [strip_prefix]. rewrite N.eqb_sym, Hy. reflexivity.
Qed.

(** Filters are not chained: a placeholder with two filters in a row is
    matched by neither placeholder pattern and stays as it is. *)
Theorem renderTemplate_filter_chain (path f more : str) (ctx : context) :
  is_path path = true -> is_identifier f = true -> no_brace more = true ->
  renderTemplate (filter_chain path f more) ctx = Ok (filter_chain path f more).
Proof.
  intros Hp Hf Hm.
  assert (Hshape : exists a W, filter_chain path f more = 123%N :: 123%N :: a :: W
                               /\ cmatch path_class a = true /\ no_brace W = true).
  { destruct path as [|a path]; [discriminate|]. cbn [is_path forallb] in Hp.
    apply andb_true_iff in Hp as [Ha Hp].
    exists a, (path ++ js "|" ++ f ++ js "|" ++ more ++ js "}}").
    split; [reflexivity|]. split; [exact Ha|].
    unfold no_brace in *. rewrite !forallb_app.
    repeat (apply andb_true_iff; split); try reflexivity; try exact Hm.
    - eapply forallb_impl; [|exact Hp]. intros u Hu.
      apply negb_true_iff, N.eqb_neq, path_not_open, Hu.
    - destruct f; [discriminate|]. eapply forallb_impl; [|exact Hf]. intros u Hu.
      apply negb_true_iff, N.eqb_neq, path_not_open, word_is_path, Hu. }
  destruct Hshape as (a & W & Hshape & Hpa & HW).
  assert (Ha : a <> 123%N) by (apply path_not_open, Hpa).
  assert (Hno : occurs (js "{%") (filter_chain path f more) = false).
  { rewrite Hshape. change (js "{%") with [123%N; 37%N]. cbn [occurs].
    rewrite (no_brace_occurs 37 [] W HW), orb_false_r.
    rewrite !startsWith_two, !startsWith_one.
    replace (37 =? a)%N with false
      by (symmetry; apply N.eqb_neq; intros <-; discriminate).
    replace (123 =? a)%N with false by (symmetry; apply N.eqb_neq; congruence).
    reflexivity. }
  apply renderTemplate_no_match; try (apply scan_no_marker; exact Hno).
  - apply scan_none. intros p1 p2 Heq. destruct p1 as [|x p1].
    + cbn [app] in Heq. subst p2. unfold match_here, filter_chain.
      rewrite variable_fails_at_bar by exact Hp. reflexivity.
    + rewrite Hshape in Heq. unfold re_variable.
      apply (single_open [] _ a W Ha HW (x :: p1) p2); [discriminate|exact Heq].
  - apply scan_none. intros p1 p2 Heq. destruct p1 as [|x p1].
    + cbn [app] in Heq. subst p2. unfold match_here, filter_chain.
      rewrite filter_fails_at_second_bar by assumption. reflexivity.
    + rewrite Hshape in Heq. unfold re_filter.
      apply (single_open [] _ a W Ha HW (x :: p1) p2); [discriminate|exact Heq].
Qed.

Lemma chunk_no_match (y : N) (r : regex) (tail : str) (a : N) (rest : str) :
  match_here (RLit [123%N; y] &> r) (123%N :: tail ++ a :: rest) = None ->
  occurs [123%N; y] (tail ++ [a]) = false ->
  forall p1 p2, 123%N :: tail = p1 ++ p2 -> p2 <> [] ->
                match_here (RLit [123%N; y] &> r) (p2 ++ a :: rest) = None.
Proof.
  intros Hh Ht p1 p2 Heq Hne. destruct p1 as [|x p1].
  - cbn [app] in Heq. subst p2. exact Hh.
  - injection Heq as _ Heq. eapply open_marker_clear; eassumption.
Qed.

Lemma occurs_skip_no_brace (x : N) (l u v : str) :
  no_brace u = true -> occurs (123%N :: x :: l) (u ++ v) = occurs (123%N :: x :: l) v.
Proof.
  induction u as [|a u IH]; [reflexivity|]. cbn [no_brace forallb]. intros Hu.
  apply andb_true_iff in Hu as [Ha Hu]. apply negb_true_iff in Ha.
  cbn [app occurs]. rewrite (IH Hu). unfold startsWith. cbn [strip_prefix].
  rewrite N.eqb_sym, Ha. reflexivity.
Qed.

Lemma word_no_brace (s : str) : forallb is_word s = true -> no_brace s = true.
Proof.
  intros Hs. eapply forallb_impl; [|exact Hs]. intros a Ha.
  apply negb_true_iff, N.eqb_neq, path_not_open, word_is_path, Ha.
Qed.

Lemma identifier_no_brace (s : str) : is_identifier s = true -> no_brace s = true.
Proof. destruct s; [discriminate|]. apply word_no_brace. Qed.

Lemma no_brace_app (u v : str) : no_brace (u ++ v) = no_brace u && no_brace v.
Proof. apply forallb_app. Qed.

Lemma for_block_tag (x xs body : str) :
  for_block x xs body = for_tag x xs ++ body ++ js "{% endfor %}".
Proof. unfold for_block, for_tag. rewrite <- !app_assoc. reflexivity. Qed.

Lemma for_tag_shape (x xs : str) :
  is_identifier x = true -> is_identifier xs = true ->
  exists tail, for_tag x xs = 123%N :: 37%N :: 32%N :: 102%N :: tail
               /\ no_brace (37%N :: 32%N :: 102%N :: tail) = true.
Proof.
  intros Hx Hxs. exists (js "or " ++ x ++ js " in " ++ xs ++ js " %}"). split; [reflexivity|].
  change (37%N :: 32%N :: 102%N :: js "or " ++ x ++ js " in " ++ xs ++ js " %}")
    with (js "% for " ++ x ++ js " in " ++ xs ++ js " %}").
  rewrite !no_brace_app, (identifier_no_brace x Hx), (identifier_no_brace xs Hxs).
  reflexivity.
Qed.

Lemma conditional_not_for (tail : str) :
  match_here re_conditional (123%N :: 37%N :: 32%N :: 102%N :: tail) = None.
Proof. reflexivity. Qed.

Lemma conditional_not_endfor (tail : str) :
  match_here re_conditional (js "{% endfor %}" ++ tail) = None.
Proof. reflexivity. Qed.

Lemma scan_chunk (r : regex) (pre rest : str) :
  (forall p1 p2, pre = p1 ++ p2 -> p2 <> [] -> match_here r (p2 ++ rest) = None) ->
  scan r rest 0 = map PChar rest ->
  scan r (pre ++ rest) 0 = map PChar (pre ++ rest).
Proof. intros Hp Hr. rewrite scan_prefix by exact Hp. rewrite Hr, map_app. reflexivity. Qed.

Lemma occurs_false_app_r (l s t : str) : occurs l (s ++ t) = false -> occurs l s = false.
Proof.
  induction s as [|a s IH]; cbn [app].
  - destruct l as [|x l]; [|reflexivity]. destruct t; discriminate.
  - cbn [occurs]. intros Ho. apply orb_false_iff in Ho as [Ho1 Ho2].
    rewrite (IH Ho2), orb_false_r. unfold startsWith in *.
    destruct (strip_prefix l (a :: s)) as [s'|] eqn:E; [|reflexivity].
    apply strip_prefix_Some in E. change (a :: s ++ t) with ((a :: s) ++ t) in Ho1.
    rewrite E, <- app_assoc, strip_prefix_app in Ho1.
    discriminate.
Qed.

(** The conditional stage leaves a loop without inner tags as it is. *)
Lemma conditional_skips_loop (x xs body : str) :
  is_identifier x = true -> is_identifier xs = true ->
  occurs (js "{%") (body ++ js "{") = false ->
  scan re_conditional (for_block x xs body) 0 = map PChar (for_block x xs body).
Proof.
  intros Hx Hxs Hb. rewrite for_block_tag.
  destruct (for_tag_shape x xs Hx Hxs) as (tl & -> & Hnb).
  rewrite app_assoc. apply scan_chunk; [|vm_compute; reflexivity].
  change (js "{% endfor %}") with (123%N :: js "% endfor %}").
  change ((123%N :: 37%N :: 32%N :: 102%N :: tl) ++ body)
    with (123%N :: (37%N :: 32%N :: 102%N :: tl) ++ body).
  unfold re_conditional. change (js "{%") with [123%N; 37%N].
  apply chunk_no_match; [reflexivity|].
  rewrite <- app_assoc, occurs_skip_no_brace by exact Hnb. exact Hb.
Qed.

Lemma map_const_replicate {A B} (b : B) (l : list A) :
  map (fun _ => b) l = replicate (length l) b.
Proof. induction l as [|a l IH]; cbn; congruence. Qed.

Lemma no_brace_concat_replicate (n : nat) (s : str) :
  no_brace s = true -> no_brace (concat (replicate n s)) = true.
Proof.
  intros Hs. induction n as [|n IH]; [reflexivity|]. cbn [replicate concat].
  rewrite no_brace_app, Hs, IH. reflexivity.
Qed.

Lemma renderTemplate_no_brace (s : str) (ctx : context) :
  no_brace s = true -> renderTemplate s ctx = Ok s.
Proof.
  intros Hs. apply renderTemplate_no_open_marker; apply no_brace_occurs, Hs.
Qed.

Lemma placeholder_stages_no_brace (s : str) (ctx : context) :
  no_brace s = true -> (r3 ← handleVariables s ctx; handleFilters r3 ctx) = Ok s.
Proof.
  intros Hs.
  assert (Hv : handleVariables s ctx = Ok s).
  { apply replaceM_of_scan_none, scan_no_marker, no_brace_occurs, Hs. }
  rewrite Hv. cbn [mbind result_bind].
  apply replaceM_of_scan_none, scan_no_marker, no_brace_occurs, Hs.
Qed.

Lemma loop_rendered (x xs body : str) (ctx : context) :
  is_identifier x = true -> is_identifier xs = true ->
  occurs (js "{%") (body ++ js "{") = false ->
  renderTemplate (for_block x xs body) ctx
  = (out ← loop_output renderTemplate x body ctx (ctx_get ctx xs);
     r3 ← handleVariables out ctx; handleFilters r3 ctx).
Proof.
  intros Hx Hxs Hb.
  rewrite renderTemplate_stages by (unfold for_block; norm_str; discriminate).
  unfold handleConditionals.
  rewrite (replace_of_scan_none _ _ _ (conditional_skips_loop x xs body Hx Hxs Hb)).
  pose proof (handleForLoops_block renderTemplate [] x xs body [] ctx) as Hl.
  cbn [app] in Hl. rewrite !app_nil_r in Hl. rewrite Hl; [|reflexivity|exact Hx|exact Hxs|].
  2:{ unfold re_endfor_tag. change (js "{%") with [123%N; 37%N].
      change (js "{% endfor %}") with (123%N :: js "% endfor %}").
      apply no_match_inside_clear. exact Hb. }
  destruct (loop_output renderTemplate x body ctx (ctx_get ctx xs)) as [out|e];
    cbn [mbind result_bind]; [|reflexivity].
  replace (handleForLoops renderTemplate [] ctx) with (@Ok str []) by reflexivity.
  cbn [mbind result_bind]. rewrite app_nil_r. reflexivity.
Qed.

(** A loop whose body holds no tag, from end to end: every element gives
    one rendering of the body under the context extended with the loop
    variable; the renderings, put together, then pass through the variable
    and filter stages of the enclosing template, under its context. *)
Theorem renderTemplate_loop (x xs body : str) (ctx : context) :
  is_identifier x = true -> is_identifier xs = true ->
  occurs (js "{%") (body ++ js "{") = false ->
  (forall items, ctx !! xs = Some (VArr items) ->
     renderTemplate (for_block x xs body) ctx
     = (outs ← mapM_result (fun item => renderTemplate body (<[x := item]> ctx)) items;
        r3 ← handleVariables (concat outs) ctx;
        handleFilters r3 ctx))
  /\ (isArray (ctx_get ctx xs) = false -> renderTemplate (for_block x xs body) ctx = Ok [])
  /\ (forall items, no_brace body = true -> ctx !! xs = Some (VArr items) ->
        renderTemplate (for_block x xs body) ctx
        = Ok (concat (replicate (length items) body))).
Proof.
  intros Hx Hxs Hb. pose proof (loop_rendered x xs body ctx Hx Hxs Hb) as Hstage.
  split; [|split].
  - intros items Hi. rewrite Hstage, (ctx_get_own ctx xs _ Hi).
    cbn [loop_output elements].
    destruct (mapM_result _ items); reflexivity.
  - intros Hi. rewrite Hstage. unfold loop_output. unfold isArray in Hi.
    destruct (elements (ctx_get ctx xs)); [discriminate|reflexivity].
  - intros items Hn Hi. rewrite Hstage, (ctx_get_own ctx xs _ Hi).
    cbn [loop_output elements].
    rewrite (mapM_result_ext _ (fun _ => Ok body))
      by (intros item _; apply renderTemplate_no_brace, Hn).
    rewrite (mapM_result_pure (fun _ => body)). cbn [mbind result_bind].
    rewrite map_const_replicate.
    apply placeholder_stages_no_brace, no_brace_concat_replicate, Hn.
Qed.

Lemma no_brace_occurs_end (x : N) (l s : str) (a : N) :
  no_brace s = true -> occurs (123%N :: x :: l) (s ++ [a]) = false.
Proof.
  intros Hs. rewrite occurs_skip_no_brace by exact Hs.
  cbn [occurs]. unfold startsWith. cbn [strip_prefix].
  destruct (123 =? a)%N; reflexivity.
Qed.

Lemma handleConditionals_tag_free (s : str) (ctx : context) :
  occurs (js "{%") (s ++ js "{") = false -> handleConditionals s ctx = s.
Proof.
  intros Hs. apply replace_of_scan_none, scan_no_marker.
  eapply occurs_false_app_r, Hs.
Qed.

Lemma stages_after_conditionals (s : str) (ctx : context) :
  occurs (js "{%") (s ++ js "{") = false ->
  (r2 ← handleForLoops renderTemplate s ctx; r3 ← handleVariables r2 ctx; handleFilters r3 ctx)
  = renderTemplate s ctx.
Proof.
  intros Hs. rewrite renderTemplate_unfold. destruct s as [|a s]; [reflexivity|].
  rewrite handleConditionals_tag_free by exact Hs. reflexivity.
Qed.

(** A conditional block whose branches hold no tag renders as the branch
    that the condition chooses renders. *)
Theorem renderTemplate_conditional (c A B : str) (ctx : context) :
  is_condition c = true ->
  occurs (js "{%") (A ++ js "{") = false -> occurs (js "{%") (B ++ js "{") = false ->
  renderTemplate (if_else_block c A B) ctx
  = renderTemplate (if evaluateCondition c ctx then A else B) ctx
  /\ renderTemplate (if_block c A) ctx
     = renderTemplate (if evaluateCondition c ctx then A else []) ctx.
Proof.
  intros Hc HA HB. change (js "{%") with [123%N; 37%N] in HA, HB. split.
  - rewrite renderTemplate_stages by (unfold if_else_block; norm_str; discriminate).
    pose proof (handleConditionals_else_block [] c A B [] ctx) as Hs.
    cbn [app] in Hs. rewrite !app_nil_r in Hs. rewrite Hs; [|reflexivity|exact Hc| | |].
    + apply stages_after_conditionals.
      destruct (evaluateCondition c ctx); assumption.
    + unfold re_else_tag. change (js "{%") with [123%N; 37%N].
      change (js "{% else %}") with (123%N :: js "% else %}").
      apply no_match_inside_clear, HA.
    + unfold re_endif_tag. change (js "{%") with [123%N; 37%N].
      change (js "{% else %}") with (123%N :: js "% else %}").
      apply no_match_inside_clear, HA.
    + unfold re_endif_tag. change (js "{%") with [123%N; 37%N].
      change (js "{% endif %}") with (123%N :: js "% endif %}").
      apply no_match_inside_clear, HB.
  - rewrite renderTemplate_stages by (unfold if_block; norm_str; discriminate).
    pose proof (handleConditionals_if_block [] c A [] ctx) as Hs.
    cbn [app] in Hs. rewrite !app_nil_r in Hs. rewrite Hs; [|reflexivity|exact Hc| |].
    + apply stages_after_conditionals.
      destruct (evaluateCondition c ctx); [assumption|reflexivity].
    + unfold re_else_tag. change (js "{%") with [123%N; 37%N].
      change (js "{% endif %}") with (123%N :: js "% endif %}").
      apply no_match_inside_clear, HA.
    + unfold re_endif_tag. change (js "{%") with [123%N; 37%N].
      change (js "{% endif %}") with (123%N :: js "% endif %}").
      apply no_match_inside_clear, HA.
Qed.



Lemma word_dot_free (s : str) : forallb is_word s = true -> dot_free s = true.
Proof.
  intros Hs. eapply forallb_impl; [|exact Hs]. intros a Ha.
  destruct (N.eqb_spec a 46) as [->|]; [discriminate Ha|reflexivity].
Qed.

Lemma identifier_is_path (s : str) : is_identifier s = true -> is_path s = true.
Proof.
  destruct s as [|a s]; [discriminate|]. intros Hs. unfold is_path.
  eapply forallb_impl; [|exact Hs]. intros u Hu. apply word_is_path, Hu.
Qed.

Lemma path_no_brace (s : str) : forallb (cmatch path_class) s = true -> no_brace s = true.
Proof.
  intros Hs. eapply forallb_impl; [|exact Hs]. intros a Ha.
  apply negb_true_iff, N.eqb_neq, path_not_open, Ha.
Qed.

(** A placeholder holds no opening tag marker. *)
Lemma placeholder_no_tag (path : str) :
  is_path path = true -> occurs (js "{%") (placeholder [] path []) = false.
Proof.
  intros Hp. destruct path as [|a path]; [discriminate|].
  cbn [is_path forallb] in Hp. apply andb_true_iff in Hp as [Ha Hp].
  unfold placeholder. change (js "{{") with [123%N; 123%N].
  change (js "{%") with [123%N; 37%N]. cbn [app occurs].
  rewrite !startsWith_two, !startsWith_one.
  replace (37 =? a)%N with false by (symmetry; apply N.eqb_neq; intros <-; discriminate).
  replace (123 =? a)%N with false by (symmetry; apply N.eqb_neq; intros <-; discriminate).
  cbn [andb orb N.eqb Pos.eqb].
  rewrite occurs_skip_no_brace by (apply path_no_brace, Hp). reflexivity.
Qed.

Lemma filter_fails_at_close (path tail : str) (c : caps) (k : str -> caps -> mres) :
  is_path path = true ->
  rmatch re_filter (js "{{" ++ path ++ js "}}" ++ tail) c k = None.
Proof.
  intros Hp. destruct path as [|a path]; [discriminate|].
  cbn [is_path forallb] in Hp. apply andb_true_iff in Hp as [Ha Hp].
  unfold re_filter, RPlus, ROpt. cbn [rmatch]. rewrite strip_prefix_app.
  cbn [app]. rewrite rstar_stop by (apply path_not_space, Ha). rewrite Ha.
  change (js "}}") with [125%N; 125%N]. cbn [app].
  apply rstar_none_run; [exact Hp|reflexivity|]. intros u1 u2 ->.
  apply forallb_app_r in Hp. change (js "|") with [124%N].
  destruct u2 as [|x u2]; cbn [app].
  - rewrite rstar_stop by reflexivity. reflexivity.
  - cbn [forallb] in Hp. apply andb_true_iff in Hp as [Hx _].
    rewrite rstar_stop by (apply path_not_space, Hx).
    rewrite strip_prefix_head; [reflexivity|]. intros <-. discriminate.
Qed.

(** The filter stage leaves a placeholder without filter as it is. *)
Lemma handleFilters_bare (path : str) (ctx : context) :
  is_path path = true ->
  handleFilters (placeholder [] path []) ctx = Ok (placeholder [] path []).
Proof.
  intros Hp. apply replaceM_of_scan_none, scan_none. intros p1 p2 Heq.
  destruct p1 as [|x p1].
  - cbn [app] in Heq. subst p2. unfold match_here.
    change (placeholder [] path []) with (js "{{" ++ path ++ js "}}" ++ []).
    rewrite filter_fails_at_close by exact Hp. reflexivity.
  - destruct path as [|a path]; [discriminate|].
    cbn [is_path forallb] in Hp. apply andb_true_iff in Hp as [Ha Hp].
    unfold re_filter.
    apply (single_open [] _ a (path ++ js "}}") (path_not_open a Ha)
             ltac:(rewrite no_brace_app, (path_no_brace path Hp); reflexivity)
             (x :: p1) p2); [discriminate|exact Heq].
Qed.

Lemma bind_nil_r (m : result str) : (s ← m; Ok (s ++ [])) = m.
Proof. destruct m as [s|e]; cbn [mbind result_bind]; [rewrite app_nil_r|]; reflexivity. Qed.

(** A placeholder without filter up to the filter stage. *)
Lemma placeholder_rendered (path : str) (ctx : context) (v : jsvalue) :
  is_path path = true -> getNestedValue (VObj ctx) path = Ok v ->
  renderTemplate (placeholder [] path []) ctx
  = (s ← substituted (placeholder [] path []) v; handleFilters s ctx).
Proof.
  intros Hp Hv.
  rewrite renderTemplate_flat;
    [|unfold placeholder; norm_str; discriminate
     |apply scan_no_marker, placeholder_no_tag, Hp
     |apply scan_no_marker, placeholder_no_tag, Hp].
  pose proof (handleVariables_placeholder [] [] path [] [] ctx v) as Hx.
  cbn [app] in Hx. rewrite !app_nil_r in Hx.
  rewrite Hx; [|reflexivity|reflexivity|reflexivity|exact Hp|exact Hv].
  replace (handleVariables [] ctx) with (@Ok str []) by reflexivity.
  cbn [mbind result_bind]. rewrite bind_nil_r. reflexivity.
Qed.

(** A placeholder whose value is a string that holds a placeholder with
    a filter: the filter stage expands the string. *)
Lemma placeholder_holding_filter (path p name : str) (ctx : context) (u : jsvalue) :
  is_path path = true -> is_path p = true -> is_identifier name = true ->
  getNestedValue (VObj ctx) path = Ok (Data (VStr (filter_placeholder [] p [] [] name []))) ->
  getNestedValue (VObj ctx) p = Ok u ->
  renderTemplate (placeholder [] path []) ctx
  = (u' ← applyFilter u name; substituted (filter_placeholder [] p [] [] name []) u').
Proof.
  intros Hp Hq Hn Hv Hu. rewrite (placeholder_rendered path ctx _ Hp Hv).
  cbn [substituted ToString string_of mbind result_bind].
  pose proof (handleFilters_placeholder [] [] p [] [] name None [] [] ctx u) as Hf.
  unfold filter_call in Hf. cbn [app] in Hf. rewrite !app_nil_r in Hf.
  rewrite Hf; try reflexivity; try assumption; [|discriminate].
  replace (handleFilters [] ctx) with (@Ok str []) by reflexivity.
  destruct (applyFilter u name) as [u'|e]; cbn [mbind result_bind]; [|reflexivity].
  apply bind_nil_r.
Qed.

(** What the variable stage puts in is read by the filter stage: the
    text that stands for a placeholder without filter goes through
    [handleFilters], and a value that [String] cannot print ends the
    rendering with the exception.  A string value that holds a
    placeholder without filter is not expanded; one that holds a
    placeholder with a filter is: the filter is applied to the value of
    its path, as for [upper] on a string.  A placeholder whose path is
    undefined stays as it is. *)
Theorem renderTemplate_value_rescanned (path : str) (ctx : context) (v : jsvalue) :
  is_path path = true -> getNestedValue (VObj ctx) path = Ok v ->
  renderTemplate (placeholder [] path []) ctx
  = (s ← substituted (placeholder [] path []) v; handleFilters s ctx)
  /\ (v = VUndef -> renderTemplate (placeholder [] path []) ctx = Ok (placeholder [] path []))
  /\ (forall e, ToString v = Raise e ->
                renderTemplate (placeholder [] path []) ctx = Raise e)
  /\ (forall p, is_path p = true -> v = VStr (placeholder [] p []) ->
                renderTemplate (placeholder [] path []) ctx = Ok (placeholder [] p []))
  /\ (forall p name u,
         is_path p = true -> is_identifier name = true ->
         v = VStr (filter_placeholder [] p [] [] name []) ->
         getNestedValue (VObj ctx) p = Ok u ->
         renderTemplate (placeholder [] path []) ctx
         = (u' ← applyFilter u name;
            substituted (filter_placeholder [] p [] [] name []) u'))
  /\ (forall p s,
         is_path p = true -> v = VStr (filter_placeholder [] p [] [] (js "upper") []) ->
         getNestedValue (VObj ctx) p = Ok (Data (VStr s)) ->
         renderTemplate (placeholder [] path []) ctx = Ok (toUpperCase s)).
Proof.
  intros Hp Hv. pose proof (placeholder_rendered path ctx v Hp Hv) as Hr.
  split; [exact Hr|]. split; [|split; [|split; [|split]]].
  - intros ->. rewrite Hr. apply handleFilters_bare, Hp.
  - intros e He. rewrite Hr. unfold substituted.
    destruct v as [[]| | |]; try (rewrite He; reflexivity). discriminate He.
  - intros p Hq ->. rewrite Hr. apply handleFilters_bare, Hq.
  - intros p name u Hq Hn -> Hu. apply placeholder_holding_filter; assumption.
  - intros p s Hq -> Hu.
    rewrite (placeholder_holding_filter path p (js "upper") ctx (Data (VStr s)) Hp Hq eq_refl Hv Hu).
    reflexivity.
Qed.

Lemma argument_no_brace (arg : option str) :
  (forall a, arg = Some a -> no_brace a = true) ->
  no_brace (match arg with Some a => js "(" ++ a ++ js ")" | None => [] end) = true.
Proof.
  intros Ha. destruct arg as [a|]; [|reflexivity].
  rewrite !no_brace_app, (Ha a eq_refl). reflexivity.
Qed.

(** A placeholder with one filter is a text with its two opening braces
    at the head only. *)
Lemma filter_placeholder_shape (path name : str) (arg : option str) :
  is_path path = true -> is_identifier name = true ->
  (forall a, arg = Some a -> no_brace a = true) ->
  exists a W, filter_placeholder [] path [] [] (filter_call name arg) []
              = 123%N :: 123%N :: a :: W
              /\ cmatch path_class a = true /\ no_brace W = true.
Proof.
  intros Hp Hn Ha. destruct path as [|a path]; [discriminate|].
  cbn [is_path forallb] in Hp. apply andb_true_iff in Hp as [Hpa Hp].
  exists a, (path ++ js "|" ++ filter_call name arg ++ js "}}").
  split; [reflexivity|]. split; [exact Hpa|].
  unfold filter_call. rewrite !no_brace_app, (path_no_brace path Hp),
    (identifier_no_brace name Hn), (argument_no_brace arg Ha). reflexivity.
Qed.

Lemma open_pair_no_tag (a : N) (W : str) :
  cmatch path_class a = true -> no_brace W = true ->
  occurs (js "{%") (123%N :: 123%N :: a :: W) = false.
Proof.
  intros Ha HW. change (js "{%") with [123%N; 37%N]. cbn [occurs].
  rewrite (no_brace_occurs 37 [] W HW), orb_false_r.
  rewrite !startsWith_two, !startsWith_one.
  replace (37 =? a)%N with false by (symmetry; apply N.eqb_neq; intros <-; discriminate).
  replace (123 =? a)%N with false by (symmetry; apply N.eqb_neq; intros <-; discriminate).
  reflexivity.
Qed.

Lemma handleVariables_filter_placeholder (path name : str) (arg : option str) (ctx : context) :
  is_path path = true -> is_identifier name = true ->
  (forall a, arg = Some a -> no_brace a = true) ->
  handleVariables (filter_placeholder [] path [] [] (filter_call name arg) []) ctx
  = Ok (filter_placeholder [] path [] [] (filter_call name arg) []).
Proof.
  intros Hp Hn Ha. apply replaceM_of_scan_none, scan_none. intros p1 p2 Heq.
  destruct p1 as [|x p1].
  - cbn [app] in Heq. subst p2. unfold match_here.
    change (filter_placeholder [] path [] [] (filter_call name arg) [])
      with (js "{{" ++ path ++ js "|" ++ (filter_call name arg ++ js "}}")).
    rewrite variable_fails_at_bar by exact Hp. reflexivity.
  - destruct (filter_placeholder_shape path name arg Hp Hn Ha) as (a & W & Hs & Hpa & HW).
    rewrite Hs in Heq. unfold re_variable.
    apply (single_open [] _ a W (path_not_open a Hpa) HW (x :: p1) p2);
      [discriminate|exact Heq].
Qed.

Lemma substituted_undefined (m : str) : substituted m VUndef = Ok m.
Proof. reflexivity. Qed.

Lemma substituted_defined (m : str) (v : jsvalue) :
  v <> VUndef -> substituted m v = ToString v.
Proof. intros Hv. destruct v as [[]| | |]; try reflexivity. congruence. Qed.

Lemma substituted_raises (m : str) (v : jsvalue) (e : error) :
  ToString v = Raise e -> substituted m v = Raise e.
Proof. intros He. destruct v as [[]| | |]; try exact He. discriminate He. Qed.

(** A placeholder with one filter, from end to end. *)
Lemma filter_placeholder_rendered (path name : str) (arg : option str) (ctx : context)
    (v : jsvalue) :
  is_path path = true -> is_identifier name = true ->
  (forall a, arg = Some a -> is_argument a = true /\ no_brace a = true) ->
  getNestedValue (VObj ctx) path = Ok v ->
  renderTemplate (filter_placeholder [] path [] [] (filter_call name arg) []) ctx
  = (v' ← applyFilter v (filter_call name arg);
     substituted (filter_placeholder [] path [] [] (filter_call name arg) []) v').
Proof.
  intros Hp Hn Ha Hv.
  assert (Ha1 : forall a, arg = Some a -> is_argument a = true) by (intros a E; apply Ha, E).
  assert (Ha2 : forall a, arg = Some a -> no_brace a = true) by (intros a E; apply Ha, E).
  destruct (filter_placeholder_shape path name arg Hp Hn Ha2) as (a & W & Hs & Hpa & HW).
  rewrite renderTemplate_flat;
    [|rewrite Hs; discriminate
     |apply scan_no_marker; rewrite Hs; apply open_pair_no_tag; assumption
     |apply scan_no_marker; rewrite Hs; apply open_pair_no_tag; assumption].
  rewrite handleVariables_filter_placeholder by assumption. cbn [mbind result_bind].
  pose proof (handleFilters_placeholder [] [] path [] [] name arg [] [] ctx v) as Hf.
  cbn [app] in Hf. rewrite !app_nil_r in Hf.
  rewrite Hf; try reflexivity; try assumption.
  replace (handleFilters [] ctx) with (@Ok str []) by reflexivity.
  destruct (applyFilter v (filter_call name arg)) as [v'|e]; cbn [mbind result_bind];
    [|reflexivity].
  apply bind_nil_r.
Qed.

(** A placeholder with a filter, from end to end: the value of the path
    goes through the filter, and the text of the result is final; no
    stage reads it again.  A result that is [undefined] leaves the
    placeholder as it is; an exception of the filter, or of [String] on
    its result, ends the rendering. *)
Theorem renderTemplate_filter_placeholder (path name : str) (arg : option str)
    (ctx : context) (v : jsvalue) :
  is_path path = true -> is_identifier name = true ->
  (forall a, arg = Some a -> is_argument a = true /\ no_brace a = true) ->
  getNestedValue (VObj ctx) path = Ok v ->
  renderTemplate (filter_placeholder [] path [] [] (filter_call name arg) []) ctx
  = (v' ← applyFilter v (filter_call name arg);
     substituted (filter_placeholder [] path [] [] (filter_call name arg) []) v')
  /\ (applyFilter v (filter_call name arg) = Ok (Data VUndef) ->
      renderTemplate (filter_placeholder [] path [] [] (filter_call name arg) []) ctx
      = Ok (filter_placeholder [] path [] [] (filter_call name arg) []))
  /\ (forall v' s, applyFilter v (filter_call name arg) = Ok v' -> v' <> VUndef ->
        ToString v' = Ok s ->
        renderTemplate (filter_placeholder [] path [] [] (filter_call name arg) []) ctx = Ok s)
  /\ (forall v' e, applyFilter v (filter_call name arg) = Ok v' -> ToString v' = Raise e ->
        renderTemplate (filter_placeholder [] path [] [] (filter_call name arg) []) ctx
        = Raise e)
  /\ (forall e, applyFilter v (filter_call name arg) = Raise e ->
        renderTemplate (filter_placeholder [] path [] [] (filter_call name arg) []) ctx
        = Raise e).
Proof.
  intros Hp Hn Ha Hv.
  pose proof (filter_placeholder_rendered path name arg ctx v Hp Hn Ha Hv) as Hr.
  split; [exact Hr|]. split; [|split; [|split]].
  - intros Hu. rewrite Hr, Hu. reflexivity.
  - intros v' s Hv' Hne Hs. rewrite Hr, Hv'. cbn [mbind result_bind].
    rewrite substituted_defined by exact Hne. exact Hs.
  - intros v' e Hv' He. rewrite Hr, Hv'. cbn [mbind result_bind].
    apply substituted_raises, He.
  - intros e He. rewrite Hr, He. reflexivity.
Qed.

(** The filters on a string: [upper], [lower] and [capitalize] print
    the string in their case, [length] prints the number of its code
    units.  The path [k.length] does not: a string is no object for
    [getNestedValue], and the placeholder stays. *)
Theorem renderTemplate_string_filters (k s : str) (ctx : context) :
  is_identifier k = true -> ctx !! k = Some (VStr s) ->
  renderTemplate (filter_placeholder [] k [] [] (js "upper") []) ctx = Ok (toUpperCase s)
  /\ renderTemplate (filter_placeholder [] k [] [] (js "lower") []) ctx = Ok (toLowerCase s)
  /\ renderTemplate (filter_placeholder [] k [] [] (js "capitalize") []) ctx
     = Ok (capitalize s)
  /\ renderTemplate (filter_placeholder [] k [] [] (js "length") []) ctx
     = Ok (num_to_string (num_of_nat (length s)))
  /\ renderTemplate (placeholder [] (k ++ js ".length") []) ctx
     = Ok (placeholder [] (k ++ js ".length") []).
Proof.
  intros Hk Hs.
  assert (Hp : is_path k = true) by (apply identifier_is_path, Hk).
  assert (Hd : dot_free k = true) by (destruct k; [discriminate|apply word_dot_free, Hk]).
  assert (Hv : getNestedValue (VObj ctx) k = Ok (Data (VStr s)))
    by (apply getNestedValue_key; [apply split_no_sep, Hd|exact Hs]).
  assert (Hf : forall name r,
             is_identifier name = true ->
             applyFilter (Data (VStr s)) name = Ok (Data (VStr r)) ->
             renderTemplate (filter_placeholder [] k [] [] name []) ctx = Ok r).
  { intros name r Hn Ha.
    pose proof (filter_placeholder_rendered k name None ctx (Data (VStr s)) Hp Hn) as Hr.
    unfold filter_call in Hr. rewrite app_nil_r in Hr.
    rewrite Hr; [|discriminate|exact Hv]. rewrite Ha. reflexivity. }
  split; [apply Hf; reflexivity|]. split; [apply Hf; reflexivity|].
  split; [apply Hf; reflexivity|]. split.
  - pose proof (filter_placeholder_rendered k (js "length") None ctx (Data (VStr s))
                  Hp eq_refl) as Hr.
    unfold filter_call in Hr. rewrite app_nil_r in Hr.
    rewrite Hr; [reflexivity|discriminate|exact Hv].
  - assert (Hpl : is_path (k ++ js ".length") = true).
    { destruct k as [|a k]; [discriminate|]. cbn [is_path app forallb] in *.
      apply andb_true_iff in Hp as [Ha Hp]. rewrite Ha, forallb_app, Hp. reflexivity. }
    rewrite (placeholder_rendered (k ++ js ".length") ctx (Data VUndef) Hpl).
    + cbn [substituted mbind result_bind]. apply handleFilters_bare, Hpl.
    + change (k ++ js ".length") with (k ++ js "." ++ js "length").
      apply (getNestedValue_through_scalar ctx k (js "length") (VStr s));
        [exact Hd|exact Hs|reflexivity].
Qed.

(** A match of the loop pattern has read two opening tag markers. *)
Lemma re_for_two_tags (s : str) (x : str * caps) :
  match_here re_for s = Some x ->
  exists u v, s = js "{%" ++ u ++ js "{%" ++ v.
Proof.
  unfold match_here, re_for.
  destruct (rmatch _ s no_caps accept) as [y|] eqn:Hm; [intros _|discriminate].
  seq_lit Hm. seq_any Hm w1. seq_lit Hm. seq_any Hm w2. seq_any Hm w3. seq_any Hm w4.
  seq_lit Hm. seq_any Hm w5. seq_any Hm w6. seq_any Hm w7. seq_lit Hm. seq_any Hm w8.
  seq_lit Hm.
  eexists (w1 ++ js "for" ++ w2 ++ w3 ++ w4 ++ js "in" ++ w5 ++ w6 ++ w7 ++ js "%}" ++ w8), _.
  rewrite <- !app_assoc. reflexivity.
Qed.

Lemma no_brace_In (s : str) : no_brace s = true -> ~ In 123%N s.
Proof.
  intros Hs Hin. unfold no_brace in Hs. rewrite forallb_forall in Hs.
  specialize (Hs _ Hin). discriminate.
Qed.

Lemma second_open (t p1 u v : str) :
  123%N :: t = p1 ++ js "{%" ++ u ++ js "{%" ++ v -> In 123%N t.
Proof.
  change (js "{%") with [123%N; 37%N]. intros Heq. destruct p1 as [|z p1].
  - cbn [app] in Heq. assert (Ht : t = 37%N :: u ++ 123%N :: 37%N :: v) by congruence.
    rewrite Ht. right. apply in_or_app. right. left. reflexivity.
  - cbn [app] in Heq. assert (Ht : t = p1 ++ 123%N :: 37%N :: u ++ 123%N :: 37%N :: v)
      by congruence.
    rewrite Ht. apply in_or_app. right. left. reflexivity.
Qed.

(** An opening tag of a loop that no closing tag follows: nothing in it
    for any stage. *)
Lemma open_loop_scans (b bs X : str) :
  is_identifier b = true -> is_identifier bs = true -> no_brace X = true ->
  scan re_conditional (for_tag b bs ++ X) 0 = map PChar (for_tag b bs ++ X)
  /\ scan re_for (for_tag b bs ++ X) 0 = map PChar (for_tag b bs ++ X)
  /\ occurs (js "{{") (for_tag b bs ++ X) = false.
Proof.
  intros Hb Hbs HX. destruct (for_tag_shape b bs Hb Hbs) as (tl & -> & Hnb).
  assert (Hn : no_brace ((37%N :: 32%N :: 102%N :: tl) ++ X) = true)
    by (rewrite no_brace_app, Hnb, HX; reflexivity).
  split; [|split].
  - rewrite <- (app_nil_r (_ ++ X)). apply scan_chunk; [|reflexivity].
    intros p1 p2 Heq Hne. rewrite app_nil_r. destruct p1 as [|y p1].
    + cbn [app] in Heq. subst p2. reflexivity.
    + injection Heq as _ Heq. unfold re_conditional. change (js "{%") with [123%N; 37%N].
      rewrite <- (app_nil_r p2). eapply no_brace_head; [exact Hn|exact Heq|exact Hne].
  - apply scan_none. intros p1 p2 Heq.
    destruct (match_here re_for p2) as [y|] eqn:E; [exfalso|reflexivity].
    destruct (re_for_two_tags _ _ E) as (u & v & ->).
    apply (no_brace_In _ Hn). apply (second_open _ p1 u v). exact Heq.
  - change (js "{{") with [123%N; 123%N].
    change ((123%N :: 37%N :: 32%N :: 102%N :: tl) ++ X)
      with (123%N :: (37%N :: 32%N :: 102%N :: tl) ++ X).
    cbn [occurs]. rewrite (no_brace_occurs 123 [] _ Hn). reflexivity.
Qed.

Lemma occurs_open_chunk (t rest : str) (a : N) :
  a <> 123%N -> no_brace t = true ->
  occurs [123%N; 123%N] (123%N :: a :: t ++ rest) = occurs [123%N; 123%N] rest.
Proof.
  intros Ha Ht. cbn [occurs]. rewrite !startsWith_two, !startsWith_one.
  apply N.eqb_neq in Ha. rewrite (N.eqb_sym 123 a), Ha, andb_false_r. cbn [andb orb].
  apply (occurs_skip_no_brace 123 [] t rest Ht).
Qed.

Lemma mapM_result_const {A B} (b : B) (f : A -> result B) (l : list A) :
  (forall a, f a = Ok b) -> mapM_result f l = Ok (replicate (length l) b).
Proof.
  intros Hf. rewrite (mapM_result_ext f (fun _ => Ok b)) by (intros a _; apply Hf).
  rewrite (mapM_result_pure (fun _ => b)), map_const_replicate. reflexivity.
Qed.

(** Loops do not nest: the outer loop ends at the closing tag of the
    inner one.  The opening tag of the inner loop, left without its
    closing tag, is copied once per element, and the closing tag of the
    outer loop stays behind. *)
Theorem renderTemplate_nested_loops (a ys b bs X Y : str) (ctx : context)
    (items : list value) :
  is_identifier a = true -> is_identifier ys = true ->
  is_identifier b = true -> is_identifier bs = true ->
  no_brace X = true -> no_brace Y = true ->
  ctx !! ys = Some (VArr items) ->
  renderTemplate (for_block a ys (for_block b bs X ++ Y)) ctx
  = Ok (concat (replicate (length items) (for_tag b bs ++ X)) ++ Y ++ js "{% endfor %}").
Proof.
  intros Ha Hys Hb Hbs HX HY Hi.
  destruct (open_loop_scans b bs X Hb Hbs HX) as (Sc & Sf & So).
  set (inner := for_tag b bs ++ X) in *.
  set (post := Y ++ js "{% endfor %}").
  assert (Hshape : for_block a ys (for_block b bs X ++ Y) = for_block a ys inner ++ post).
  { unfold inner, post. rewrite !for_block_tag, <- !app_assoc. reflexivity. }
  rewrite Hshape.
  assert (Hinner : forall ctx', renderTemplate inner ctx' = Ok inner).
  { intros ctx'. apply renderTemplate_no_match; try assumption;
      apply scan_no_marker; exact So. }
  destruct (for_tag_shape a ys Ha Hys) as (tla & Hta & Hnba).
  destruct (for_tag_shape b bs Hb Hbs) as (tlb & Htb & Hnbb).
  assert (Hpost : forall r, scan (RLit (js "{%") &> r) (js "{% endfor %}") 0
                            = map PChar (js "{% endfor %}") ->
                            scan (RLit (js "{%") &> r) post 0 = map PChar post).
  { intros r Hr. unfold post. apply scan_chunk; [|exact Hr].
    change (js "{%") with [123%N; 37%N]. apply no_brace_head, HY. }
  (* the conditional stage *)
  assert (Hc : scan re_conditional (for_block a ys inner ++ post) 0
               = map PChar (for_block a ys inner ++ post)).
  { rewrite for_block_tag, <- !app_assoc. unfold inner. rewrite <- !app_assoc.
    rewrite Hta, Htb.
    apply scan_chunk.
    { unfold re_conditional. change (js "{%") with [123%N; 37%N].
      change ((123%N :: 37%N :: 32%N :: 102%N :: tlb) ++ X ++ js "{% endfor %}" ++ post)
        with (123%N :: (37%N :: 32%N :: 102%N :: tlb) ++ X ++ js "{% endfor %}" ++ post).
      apply chunk_no_match; [reflexivity|].
      apply (no_brace_occurs_end 37 [] (37%N :: 32%N :: 102%N :: tla) 123 Hnba). }
    rewrite app_assoc. apply scan_chunk.
    { unfold re_conditional. change (js "{%") with [123%N; 37%N].
      change (js "{% endfor %}" ++ post) with (123%N :: js "% endfor %}" ++ post).
      change ((123%N :: 37%N :: 32%N :: 102%N :: tlb) ++ X)
        with (123%N :: (37%N :: 32%N :: 102%N :: tlb) ++ X).
      apply chunk_no_match; [reflexivity|].
      apply no_brace_occurs_end. rewrite no_brace_app, Hnbb, HX. reflexivity. }
    change (js "{% endfor %}" ++ post) with (js "{% endfor %}" ++ Y ++ js "{% endfor %}").
    rewrite app_assoc. apply scan_chunk; [|reflexivity].
    unfold re_conditional. change (js "{%") with [123%N; 37%N].
    change (js "{% endfor %}") with (123%N :: js "% endfor %}").
    change ((123%N :: js "% endfor %}") ++ Y) with (123%N :: js "% endfor %}" ++ Y).
    apply chunk_no_match; [reflexivity|].
    apply no_brace_occurs_end. rewrite no_brace_app, HY. reflexivity. }
  rewrite renderTemplate_stages by (unfold for_block; norm_str; discriminate).
  unfold handleConditionals. rewrite (replace_of_scan_none _ _ _ Hc).
  (* the loop stage *)
  pose proof (handleForLoops_block renderTemplate [] a ys inner post ctx) as Hl.
  cbn [app] in Hl. rewrite Hl; [|reflexivity|exact Ha|exact Hys|].
  2:{ apply no_match_inside_intro. intros b1 b2 Heq Hne. unfold inner in Heq.
      rewrite Htb in Heq. destruct b1 as [|z b1].
      - cbn [app] in Heq. subst b2. reflexivity.
      - cbn [app] in Heq. injection Heq as _ Heq.
        assert (Hn2 : no_brace b2 = true).
        { assert (Hn : no_brace ((37%N :: 32%N :: 102%N :: tlb) ++ X) = true)
            by (rewrite no_brace_app, Hnbb, HX; reflexivity).
          cbn [app] in Hn. rewrite Heq in Hn. apply (forallb_app_r _ b1), Hn. }
        destruct b2 as [|y b2]; [congruence|]. cbn [no_brace forallb] in Hn2.
        apply andb_true_iff in Hn2 as [Hy _]. apply negb_true_iff in Hy.
        unfold re_endfor_tag. cbn [rmatch app]. change (js "{%") with [123%N; 37%N].
        cbn [strip_prefix]. rewrite N.eqb_sym, Hy. reflexivity. }
  rewrite (ctx_get_own ctx ys _ Hi). cbn [loop_output elements].
  rewrite (mapM_result_const inner) by (intros item; apply Hinner).
  cbn [mbind result_bind].
  assert (Hrest : handleForLoops renderTemplate post ctx = Ok post).
  { apply replaceM_of_scan_none. unfold re_for. apply Hpost. reflexivity. }
  rewrite Hrest. cbn [mbind result_bind].
  (* nothing is left for the variable and filter stages *)
  assert (Hno : occurs (js "{{") (concat (replicate (length items) inner) ++ post) = false).
  { change (js "{{") with [123%N; 123%N] in *.
    induction (length items) as [|n IH]; cbn [replicate concat app].
    - unfold post. rewrite occurs_skip_no_brace by exact HY. reflexivity.
    - rewrite <- app_assoc. unfold inner at 1. rewrite Htb.
      change (((123%N :: 37%N :: 32%N :: 102%N :: tlb) ++ X)
                ++ concat (replicate n inner) ++ post)
        with (123%N :: 37%N :: ((32%N :: 102%N :: tlb) ++ X)
                ++ concat (replicate n inner) ++ post).
      rewrite occurs_open_chunk; [exact IH|discriminate|].
      rewrite no_brace_app, HX, andb_true_r.
      cbn [no_brace forallb] in Hnbb |- *. apply andb_true_iff in Hnbb as [_ Hnbb].
      exact Hnbb. }
  cbn [app]. unfold handleVariables.
  rewrite (replaceM_of_scan_none re_variable) by (apply scan_no_marker, Hno).
  cbn [mbind result_bind].
  apply replaceM_of_scan_none, scan_no_marker, Hno.
Qed.

Lemma for_fails_at_dot (x k tail : str) (c : caps) (k0 : str -> caps -> mres) :
  is_identifier x = true -> is_identifier k = true ->
  rmatch re_for (js "{% for " ++ x ++ js " in " ++ k ++ js "." ++ tail) c k0 = None.
Proof.
  intros Hx Hk. destruct x as [|x0 x]; [discriminate|].
  cbn [is_identifier forallb] in Hx. apply andb_true_iff in Hx as [Hx0 Hx].
  destruct k as [|k1 k]; [discriminate|].
  cbn [is_identifier forallb] in Hk. apply andb_true_iff in Hk as [Hk1 Hk].
  unfold re_for, RPlus. cbn [rmatch].
  change (js "{% for ") with (js "{%" ++ js " for "). rewrite <- app_assoc, strip_prefix_app.
  change (js " for ") with [32%N; 102%N; 111%N; 114%N; 32%N]. cbn [app].
  cbn [rstar cmatch]. change (is_space 32) with true. change (is_space 102) with false.
  cbv iota. change (js "for") with [102%N; 111%N; 114%N].
  cbn [strip_prefix N.eqb Pos.eqb]. change (is_space 32) with true. cbv iota.
  rewrite rstar_stop by (apply word_not_space, Hx0). rewrite Hx0.
  change (js " in ") with [32%N; 105%N; 110%N; 32%N]. cbn [app].
  rewrite rstar_none_run; [reflexivity|exact Hx|reflexivity|]. intros u1 u2 ->.
  apply forallb_app_r in Hx. destruct u2 as [|y u2]; cbn [app].
  2:{ cbn [forallb] in Hx. apply andb_true_iff in Hx as [Hy _].
      rewrite (word_not_space y Hy). reflexivity. }
  change (is_space 32) with true. cbv iota.
  rewrite rstar_stop by reflexivity. change (js "in") with [105%N; 110%N].
  cbn [strip_prefix N.eqb Pos.eqb]. change (is_space 32) with true. cbv iota.
  rewrite rstar_stop by (apply word_not_space, Hk1). rewrite Hk1.
  change (js ".") with [46%N]. cbn [app].
  apply rstar_none_run; [exact Hk|reflexivity|]. intros v1 v2 ->.
  apply forallb_app_r in Hk. change (js "%}") with [37%N; 125%N].
  destruct v2 as [|z v2]; cbn [app].
  - rewrite rstar_stop by reflexivity. reflexivity.
  - cbn [forallb] in Hk. apply andb_true_iff in Hk as [Hz _].
    rewrite rstar_stop by (apply word_not_space, Hz).
    rewrite strip_prefix_head; [reflexivity|]. intros <-. discriminate.
Qed.

(** A loop can only run over a key of the context itself: with a dotted
    path as its target the block is not a loop for the loop stage, and
    it stays in the text. *)
Theorem renderTemplate_loop_dotted_target (x k1 k2 body : str) (ctx : context) :
  is_identifier x = true -> is_identifier k1 = true -> is_path k2 = true ->
  occurs (js "{%") (body ++ js "{") = false ->
  handleForLoops renderTemplate (for_block x (k1 ++ js "." ++ k2) body) ctx
  = Ok (for_block x (k1 ++ js "." ++ k2) body)
  /\ (no_brace body = true ->
      renderTemplate (for_block x (k1 ++ js "." ++ k2) body) ctx
      = Ok (for_block x (k1 ++ js "." ++ k2) body)).
Proof.
  intros Hx Hk1 Hk2 Hb.
  set (nb := js "% for " ++ x ++ js " in " ++ k1 ++ js "." ++ k2 ++ js " %}").
  assert (Hnb : no_brace nb = true).
  { unfold nb. rewrite !no_brace_app, (identifier_no_brace x Hx), (identifier_no_brace k1 Hk1).
    rewrite (path_no_brace k2) by (destruct k2; [discriminate|exact Hk2]). reflexivity. }
  assert (Hshape : for_block x (k1 ++ js "." ++ k2) body
                   = (123%N :: nb ++ body) ++ js "{% endfor %}").
  { unfold for_block, nb. norm_str. reflexivity. }
  assert (Hclear : occurs [123%N; 37%N] ((nb ++ body) ++ [123%N]) = false).
  { rewrite <- app_assoc, occurs_skip_no_brace by exact Hnb. exact Hb. }
  assert (Hfor : scan re_for (for_block x (k1 ++ js "." ++ k2) body) 0
                 = map PChar (for_block x (k1 ++ js "." ++ k2) body)).
  { rewrite Hshape. apply scan_chunk; [|reflexivity].
    unfold re_for. change (js "{%") with [123%N; 37%N].
    change (js "{% endfor %}") with (123%N :: js "% endfor %}").
    apply chunk_no_match; [|exact Hclear].
    unfold match_here.
    replace (123%N :: (nb ++ body) ++ 123%N :: js "% endfor %}")
      with (js "{% for " ++ x ++ js " in " ++ k1 ++ js "." ++ k2 ++ js " %}" ++ body
              ++ js "{% endfor %}")
      by (unfold nb; norm_str; reflexivity).
    fold re_for.
    change (RLit [123%N; 37%N] &> _)%re with re_for.
    rewrite for_fails_at_dot by assumption. reflexivity. }
  assert (Hopen : no_brace body = true ->
                  occurs (js "{{") (for_block x (k1 ++ js "." ++ k2) body) = false).
  { intros Hbody. rewrite Hshape. change (js "{{") with [123%N; 123%N].
    change ((123%N :: nb ++ body) ++ js "{% endfor %}")
      with (123%N :: 37%N :: ((js " for " ++ x ++ js " in " ++ k1 ++ js "." ++ k2 ++ js " %}")
                                ++ body) ++ js "{% endfor %}").
    rewrite occurs_open_chunk; [reflexivity|discriminate|].
    rewrite no_brace_app, Hbody, andb_true_r.
    unfold nb in Hnb. exact Hnb. }
  split; [apply replaceM_of_scan_none, Hfor|].
  intros Hbody. apply renderTemplate_no_match; [|exact Hfor| |].
  - rewrite Hshape. apply scan_chunk; [|reflexivity].
    unfold re_conditional. change (js "{%") with [123%N; 37%N].
    change (js "{% endfor %}") with (123%N :: js "% endfor %}").
    apply chunk_no_match; [|exact Hclear]. unfold nb. reflexivity.
  - apply scan_no_marker, Hopen, Hbody.
  - apply scan_no_marker, Hopen, Hbody.
Qed.

Lemma first_outside (q : N -> bool) (u u' : str) (x y : N) (t t' : str) :
  forallb q u = true -> forallb q u' = true -> q x = false -> q y = false ->
  u ++ x :: t = u' ++ y :: t' -> x = y.
Proof.
  revert u'. induction u as [|a u IH]; intros [|b u'] Hu Hu' Hx Hy Heq; cbn [app] in Heq.
  - congruence.
  - injection Heq as -> _. cbn [forallb] in Hu'. rewrite Hx in Hu'. discriminate.
  - injection Heq as -> _. cbn [forallb] in Hu. rewrite Hy in Hu. discriminate.
  - injection Heq as _ Heq. cbn [forallb] in Hu, Hu'.
    apply andb_true_iff in Hu as [_ Hu]. apply andb_true_iff in Hu' as [_ Hu'].
    apply (IH u' Hu Hu' Hx Hy Heq).
Qed.

(** The filter pattern does not match at a placeholder without filter,
    whatever its white space. *)
Lemma filter_fails_laid (w1 path w2 tail : str) :
  forallb is_space w1 = true -> forallb is_space w2 = true -> is_path path = true ->
  match_here re_filter (placeholder w1 path w2 ++ tail) = None.
Proof.
  intros Hw1 Hw2 Hp. unfold match_here.
  destruct (rmatch re_filter _ no_caps accept) as [x|] eqn:E; [exfalso|reflexivity].
  unfold re_filter, RPlus, placeholder in E. rewrite <- app_assoc in E.
  cbn [rmatch] in E. rewrite strip_prefix_app in E.
  apply rstar_inv in E as (a & s1 & Hs1 & Ha & E).
  destruct s1 as [|c s1]; [discriminate|].
  destruct (cmatch path_class c) eqn:Hc; [|discriminate].
  apply rstar_inv in E as (d & s2 & -> & Hd & E).
  apply rstar_inv in E as (e & s3 & -> & He & E).
  destruct (strip_prefix (js "|") s3) as [s4|] eqn:Hb; [|discriminate].
  apply strip_prefix_Some in Hb. subst s3.
  set (q := fun u => is_space u || cmatch path_class u).
  assert (Hq1 : forall l, forallb is_space l = true -> forallb q l = true).
  { intros l. apply forallb_impl. intros u Hu. unfold q. rewrite Hu. reflexivity. }
  assert (Hq2 : forall l, forallb (cmatch path_class) l = true -> forallb q l = true).
  { intros l. apply forallb_impl. intros u Hu. unfold q. rewrite Hu. apply orb_true_r. }
  assert (Hpp : forallb (cmatch path_class) path = true)
    by (destruct path; [discriminate|exact Hp]).
  assert (Habs : 125%N = 124%N); [|discriminate].
  apply (first_outside q (w1 ++ path ++ w2) (a ++ (c :: d) ++ e) 125 124
           (125%N :: tail) s4).
  - rewrite !forallb_app, (Hq1 w1 Hw1), (Hq2 path Hpp), (Hq1 w2 Hw2). reflexivity.
  - rewrite !forallb_app, (Hq1 a Ha), (Hq1 e He). cbn [forallb].
    rewrite (Hq2 d Hd). unfold q. rewrite Hc, orb_true_r. reflexivity.
  - reflexivity.
  - reflexivity.
  - rewrite <- !app_assoc in Hs1. rewrite <- !app_assoc. cbn [app] in *. exact Hs1.
Qed.

Lemma spaces_no_brace (w : str) : forallb is_space w = true -> no_brace w = true.
Proof.
  apply forallb_impl. intros a Ha.
  destruct (N.eqb_spec a 123) as [->|]; [discriminate Ha|reflexivity].
Qed.

(** A placeholder and a text without braces behind it: the two opening
    braces at the head are the only ones. *)
Lemma placeholder_shape (w1 path w2 post : str) :
  forallb is_space w1 = true -> forallb is_space w2 = true -> is_path path = true ->
  no_brace post = true ->
  exists a W, placeholder w1 path w2 ++ post = 123%N :: 123%N :: a :: W
              /\ a <> 123%N /\ a <> 37%N /\ no_brace W = true.
Proof.
  intros Hw1 Hw2 Hp Hpost. destruct path as [|b path]; [discriminate|].
  cbn [is_path forallb] in Hp. apply andb_true_iff in Hp as [Hb Hp].
  assert (Htail : no_brace (path ++ w2 ++ js "}}" ++ post) = true).
  { rewrite !no_brace_app, (path_no_brace path Hp), (spaces_no_brace w2 Hw2), Hpost.
    reflexivity. }
  destruct w1 as [|a w1].
  - exists b, (path ++ w2 ++ js "}}" ++ post).
    split; [unfold placeholder; rewrite <- !app_assoc; reflexivity|].
    split; [intros ->; discriminate|]. split; [intros ->; discriminate|exact Htail].
  - cbn [forallb] in Hw1. apply andb_true_iff in Hw1 as [Ha Hw1].
    exists a, (w1 ++ b :: path ++ w2 ++ js "}}" ++ post).
    split; [unfold placeholder; rewrite <- !app_assoc; reflexivity|].
    split; [intros ->; discriminate|]. split; [intros ->; discriminate|].
    rewrite no_brace_app, (spaces_no_brace w1 Hw1). cbn [andb no_brace forallb].
    apply andb_true_iff. split; [|exact Htail].
    apply negb_true_iff, N.eqb_neq, path_not_open, Hb.
Qed.

Lemma open_pair_clear (a : N) (W : str) :
  a <> 123%N -> a <> 37%N -> no_brace W = true ->
  occurs (js "{%") (123%N :: 123%N :: a :: W) = false.
Proof.
  intros Ha1 Ha2 HW. change (js "{%") with [123%N; 37%N]. cbn [occurs].
  rewrite (no_brace_occurs 37 [] W HW), orb_false_r.
  rewrite !startsWith_two, !startsWith_one.
  replace (37 =? a)%N with false by (symmetry; apply N.eqb_neq; congruence).
  replace (123 =? a)%N with false by (symmetry; apply N.eqb_neq; congruence).
  reflexivity.
Qed.

(** The filter stage leaves a placeholder without filter as it is,
    whatever its white space, and with it a text without braces behind
    it. *)
Lemma handleFilters_kept (w1 path w2 post : str) (ctx : context) :
  forallb is_space w1 = true -> forallb is_space w2 = true -> is_path path = true ->
  no_brace post = true ->
  handleFilters (placeholder w1 path w2 ++ post) ctx = Ok (placeholder w1 path w2 ++ post).
Proof.
  intros Hw1 Hw2 Hp Hpost. apply replaceM_of_scan_none, scan_none. intros p1 p2 Heq.
  destruct p1 as [|x p1].
  - cbn [app] in Heq. subst p2. apply filter_fails_laid; assumption.
  - destruct (placeholder_shape w1 path w2 post Hw1 Hw2 Hp Hpost) as (a & W & Hs & Ha & _ & HW).
    rewrite Hs in Heq. unfold re_filter.
    apply (single_open [] _ a W Ha HW (x :: p1) p2); [discriminate|exact Heq].
Qed.


Lemma handleVariables_no_brace (s : str) (ctx : context) :
  no_brace s = true -> handleVariables s ctx = Ok s.
Proof. intros Hs. apply replaceM_of_scan_none, scan_no_marker, no_brace_occurs, Hs. Qed.

(** A placeholder without filter between two texts without braces, up to
    the filter stage: the variable stage puts in the text that stands for
    the placeholder, and the filter stage reads it. *)
Lemma text_placeholder_staged (pre w1 p w2 post : str) (ctx : context) (v : jsvalue) :
  no_brace pre = true -> no_brace post = true ->
  forallb is_space w1 = true -> forallb is_space w2 = true -> is_path p = true ->
  getNestedValue (VObj ctx) p = Ok v ->
  renderTemplate (pre ++ placeholder w1 p w2 ++ post) ctx
  = (s ← substituted (placeholder w1 p w2) v;
     r ← handleFilters (s ++ post) ctx;
     Ok (pre ++ r)).
Proof.
  intros Hpre Hpost Hw1 Hw2 Hp Hv.
  rewrite renderTemplate_leading_text_eq by exact Hpre.
  destruct (placeholder_shape w1 p w2 post Hw1 Hw2 Hp Hpost) as (a & W & Hs & Ha1 & Ha2 & HW).
  assert (Hno : occurs (js "{%") (placeholder w1 p w2 ++ post) = false)
    by (rewrite Hs; apply open_pair_clear; assumption).
  rewrite renderTemplate_flat;
    [|rewrite Hs; discriminate|apply scan_no_marker, Hno|apply scan_no_marker, Hno].
  pose proof (handleVariables_placeholder [] w1 p w2 post ctx v) as Hx.
  cbn [app] in Hx. rewrite Hx; [|reflexivity|exact Hw1|exact Hw2|exact Hp|exact Hv].
  rewrite (handleVariables_no_brace post ctx Hpost). cbn [mbind result_bind].
  destruct (substituted (placeholder w1 p w2) v) as [s|e]; reflexivity.
Qed.

(** The same from end to end: an undefined value leaves the placeholder,
    a value whose text holds no opening brace is printed, and a value
    that [String] cannot print ends the rendering. *)
Lemma text_placeholder_rendered (pre w1 p w2 post : str) (ctx : context) (v : jsvalue) :
  no_brace pre = true -> no_brace post = true ->
  forallb is_space w1 = true -> forallb is_space w2 = true -> is_path p = true ->
  getNestedValue (VObj ctx) p = Ok v ->
  (v = VUndef ->
   renderTemplate (pre ++ placeholder w1 p w2 ++ post) ctx
   = Ok (pre ++ placeholder w1 p w2 ++ post))
  /\ (forall s, v <> VUndef -> ToString v = Ok s -> occurs (js "{{") (s ++ post) = false ->
        renderTemplate (pre ++ placeholder w1 p w2 ++ post) ctx = Ok (pre ++ s ++ post))
  /\ (forall e, ToString v = Raise e ->
        renderTemplate (pre ++ placeholder w1 p w2 ++ post) ctx = Raise e).
Proof.
  intros Hpre Hpost Hw1 Hw2 Hp Hv.
  pose proof (text_placeholder_staged pre w1 p w2 post ctx v Hpre Hpost Hw1 Hw2 Hp Hv) as Hr.
  split; [|split].
  - intros ->. rewrite Hr. cbn [substituted mbind result_bind].
    rewrite handleFilters_kept by assumption. reflexivity.
  - intros s Hne Hs Hb. rewrite Hr, substituted_defined, Hs by exact Hne.
    cbn [mbind result_bind]. unfold handleFilters.
    rewrite replaceM_of_scan_none by (apply scan_no_marker, Hb). reflexivity.
  - intros e He. rewrite Hr, (substituted_raises _ v e He). reflexivity.
Qed.

(** What one element of a loop gives when the body prints one path. *)
Lemma item_rendered (pre p post : str) (ctx : context) (v : jsvalue) (s : str) :
  no_brace pre = true -> no_brace post = true -> is_path p = true ->
  getNestedValue (VObj ctx) p = Ok v -> v <> VUndef -> ToString v = Ok s ->
  no_brace s = true ->
  renderTemplate (pre ++ placeholder [] p [] ++ post) ctx = Ok (pre ++ s ++ post).
Proof.
  intros Hpre Hpost Hp Hv Hne Hs Hb.
  apply (text_placeholder_rendered pre [] p [] post ctx v); auto.
  apply no_brace_occurs. rewrite no_brace_app, Hb, Hpost. reflexivity.
Qed.

Lemma no_brace_concat (l : list str) :
  Forall (fun s => no_brace s = true) l -> no_brace (concat l) = true.
Proof.
  induction 1 as [|s l Hs _ IH]; [reflexivity|]. cbn [concat].
  rewrite no_brace_app, Hs, IH. reflexivity.
Qed.

Lemma placeholder_body_tag_free (pre w1 p w2 post : str) :
  no_brace pre = true -> no_brace post = true ->
  forallb is_space w1 = true -> forallb is_space w2 = true -> is_path p = true ->
  occurs (js "{%") ((pre ++ placeholder w1 p w2 ++ post) ++ js "{") = false.
Proof.
  intros Hpre Hpost Hw1 Hw2 Hp. change (js "{%") with [123%N; 37%N].
  rewrite <- app_assoc, occurs_skip_no_brace by exact Hpre.
  destruct (placeholder_shape w1 p w2 post Hw1 Hw2 Hp Hpost) as (a & W & Hs & Ha1 & Ha2 & HW).
  rewrite Hs. cbn [app occurs]. rewrite !startsWith_two, !startsWith_one.
  replace (37 =? a)%N with false by (symmetry; apply N.eqb_neq; congruence).
  replace (123 =? a)%N with false by (symmetry; apply N.eqb_neq; congruence).
  cbn [andb orb N.eqb Pos.eqb].
  apply (no_brace_occurs_end 37 [] _ 123), HW.
Qed.

(** A loop that prints a path once per element: when the values are
    defined and their text holds no opening brace, the result is the text
    of the values, each between the text in front of the placeholder and
    the text behind it.  An element whose value [String] cannot print
    ends the rendering with an exception. *)
Theorem renderTemplate_loop_placeholder (x xs pre p post : str) (ctx : context)
    (items : list value) :
  is_identifier x = true -> is_identifier xs = true ->
  no_brace pre = true -> no_brace post = true -> is_path p = true ->
  ctx !! xs = Some (VArr items) ->
  (forall ss : list str,
     Forall2 (fun item s => exists v : jsvalue,
                getNestedValue (VObj (<[x := item]> ctx)) p = Ok v
                /\ v <> VUndef /\ ToString v = Ok s /\ no_brace s = true) items ss ->
     renderTemplate (for_block x xs (pre ++ placeholder [] p [] ++ post)) ctx
     = Ok (concat (map (fun s => pre ++ s ++ post) ss)))
  /\ (forall item (v : jsvalue) e,
        In item items -> getNestedValue (VObj (<[x := item]> ctx)) p = Ok v ->
        ToString v = Raise e ->
        exists e', renderTemplate (for_block x xs (pre ++ placeholder [] p [] ++ post)) ctx
                   = Raise e').
Proof.
  intros Hx Hxs Hpre Hpost Hp Hi.
  pose proof (placeholder_body_tag_free pre [] p [] post Hpre Hpost eq_refl eq_refl Hp) as Hb.
  pose proof (loop_rendered x xs _ ctx Hx Hxs Hb) as Hl.
  rewrite (ctx_get_own ctx xs _ Hi) in Hl. cbn [loop_output elements] in Hl.
  split.
  - intros ss Hvs. rewrite Hl.
    rewrite (mapM_result_Forall2 _ items (map (fun s => pre ++ s ++ post) ss)).
    2:{ clear Hi Hl. induction Hvs as [|item s items ss (v & Hv & Hne & Hs & Hn) _ IH];
          cbn [map]; constructor; [apply (item_rendered pre p post _ v s); assumption|exact IH]. }
    cbn [mbind result_bind]. apply placeholder_stages_no_brace, no_brace_concat.
    clear Hi Hl. induction Hvs as [|item s items ss (v & Hv & Hne & Hs & Hn) _ IH]; cbn [map];
      constructor; [|exact IH].
    rewrite !no_brace_app, Hpre, Hn, Hpost. reflexivity.
  - intros item v e Hin Hv He. rewrite Hl.
    destruct (mapM_result_raises
                (fun item => renderTemplate (pre ++ placeholder [] p [] ++ post) (<[x := item]> ctx))
                items item e Hin) as [e' He'].
    + apply (text_placeholder_rendered pre [] p [] post _ v); auto.
    + exists e'. rewrite He'. reflexivity.
Qed.

(** ** Tags in any layout *)

Lemma gap_cons (w : str) :
  is_gap w = true -> exists s w', w = s :: w' /\ is_space s = true /\ forallb is_space w' = true.
Proof.
  destruct w as [|s w']; [discriminate|]. cbn [is_gap forallb]. intros Hw.
  apply andb_true_iff in Hw as [Hs Hw]. eauto.
Qed.

Lemma tag_free_suffix (r : regex) (body b1 b2 tail : str) (d : caps)
    (k : str -> caps -> mres) :
  occurs (js "{%") (body ++ js "{") = false -> body = b1 ++ b2 -> b2 <> [] ->
  rmatch (RLit [123%N; 37%N] &> r) (b2 ++ 123%N :: tail) d k = None.
Proof.
  intros Hb Heq Hne. apply rmatch_none_accept.
  pose proof (open_marker_clear 123 37 r body tail 123 Hb b1 b2 Heq Hne) as Hm.
  unfold match_here in Hm.
  destruct (rmatch (RLit [123%N; 37%N] &> r) (b2 ++ 123%N :: tail) no_caps accept) as [[? ?]|];
    [discriminate|reflexivity].
Qed.

Lemma re_for_match_laid (w1 w2 x w3 w4 xs w5 body w6 w7 post : str) :
  is_identifier x = true -> is_identifier xs = true ->
  forallb is_space w1 = true -> is_gap w2 = true -> is_gap w3 = true -> is_gap w4 = true ->
  forallb is_space w5 = true -> forallb is_space w6 = true -> forallb is_space w7 = true ->
  occurs (js "{%") (body ++ js "{") = false ->
  exists c, match_here re_for (for_block_laid w1 w2 x w3 w4 xs w5 body w6 w7 ++ post)
            = Some (for_block_laid w1 w2 x w3 w4 xs w5 body w6 w7, c)
            /\ c 1 = Some x /\ c 2 = Some xs /\ c 3 = Some body.
Proof.
  intros Hx Hxs Hw1 Hw2 Hw3 Hw4 Hw5 Hw6 Hw7 Hbody.
  destruct x as [|a x]; [discriminate|]. cbn [is_identifier forallb] in Hx.
  apply andb_true_iff in Hx as [Ha Hx].
  destruct xs as [|b xs]; [discriminate|]. cbn [is_identifier forallb] in Hxs.
  apply andb_true_iff in Hxs as [Hb Hxs].
  destruct (gap_cons w2 Hw2) as (s2 & w2' & -> & Hs2 & Hw2').
  destruct (gap_cons w3 Hw3) as (s3 & w3' & -> & Hs3 & Hw3').
  destruct (gap_cons w4 Hw4) as (s4 & w4' & -> & Hs4 & Hw4').
  assert (Has : cmatch CSpace a = false) by (apply word_not_space, Ha).
  assert (Hbs : cmatch CSpace b = false) by (apply word_not_space, Hb).
  assert (Hs3w : cmatch CWord s3 = false) by (apply space_not_word, Hs3).
  pose proof (spaces_not_words w5 Hw5) as Hw5w.
  eexists. split; [apply match_here_intro|].
  - unfold for_block_laid, tag, re_for, RPlus. norm_str. rx.
    apply (rmatch_lazy_intro body).
    + intros u1 u2 Hu Hne. apply (tag_free_suffix _ body u1 u2 _ _ _ Hbody Hu Hne).
    + rx. reflexivity.
  - caps_eval. unfold for_block_laid, tag. norm_str. repeat split; f_equal; solve_consumed.
Qed.

(** The loop stage on a loop in any layout. *)
Lemma handleForLoops_laid (render : str -> context -> result str)
    (pre w1 w2 x w3 w4 xs w5 body w6 w7 post : str) (ctx : context) :
  occurs (js "{%") (pre ++ js "{") = false ->
  is_identifier x = true -> is_identifier xs = true ->
  forallb is_space w1 = true -> is_gap w2 = true -> is_gap w3 = true -> is_gap w4 = true ->
  forallb is_space w5 = true -> forallb is_space w6 = true -> forallb is_space w7 = true ->
  occurs (js "{%") (body ++ js "{") = false ->
  handleForLoops render (pre ++ for_block_laid w1 w2 x w3 w4 xs w5 body w6 w7 ++ post) ctx =
  (out ← loop_output render x body ctx (ctx_get ctx xs);
   rest ← handleForLoops render post ctx;
   Ok (pre ++ out ++ rest)).
Proof.
  intros Hpre Hx Hxs Hw1 Hw2 Hw3 Hw4 Hw5 Hw6 Hw7 Hbody.
  destruct (re_for_match_laid w1 w2 x w3 w4 xs w5 body w6 w7 post
              Hx Hxs Hw1 Hw2 Hw3 Hw4 Hw5 Hw6 Hw7 Hbody) as (c & Hm & Hc1 & Hc2 & Hc3).
  unfold handleForLoops.
  rewrite replaceM_prefix.
  2:{ unfold for_block_laid, tag, re_for. norm_str. apply open_marker_clear. exact Hpre. }
  rewrite (replaceM_match _ _ _ _ c);
    [|unfold for_block_laid, tag; norm_str; discriminate|exact Hm].
  unfold cap. rewrite Hc1, Hc2, Hc3. cbn [default from_option id].
  apply bind_assoc_loop.
Qed.

Lemma for_block_layout (x xs body : str) :
  for_block x xs body
  = for_block_laid (js " ") (js " ") x (js " ") (js " ") xs (js " ") body (js " ") (js " ").
Proof. unfold for_block, for_block_laid, tag. norm_str. reflexivity. Qed.

(** A tag whose word is not the one the pattern asks for. *)
Lemma tag_keyword_fails (k0 : N) (kw w : str) (a : N) (tail : str) (r : regex) (d : caps)
    (k : str -> caps -> mres) :
  forallb is_space w = true -> is_space k0 = false -> is_space a = false ->
  strip_prefix (k0 :: kw) (a :: tail) = None ->
  rmatch (RLit (js "{%") &> RStar true CSpace &> RLit (k0 :: kw) &> r)
         (js "{%" ++ w ++ a :: tail) d k = None.
Proof.
  intros Hw Hk Ha Hs. cbn [rmatch]. rewrite strip_prefix_app.
  apply rstar_none_run; [exact Hw|exact Ha|]. intros u1 u2 ->.
  destruct u2 as [|s u2]; cbn [app].
  - rewrite Hs. reflexivity.
  - rewrite strip_prefix_head; [reflexivity|]. intros ->.
    rewrite forallb_app in Hw. apply andb_true_iff in Hw as [_ Hw].
    cbn [forallb] in Hw. apply andb_true_iff in Hw as [Hw _]. congruence.
Qed.

Lemma match_here_none (r : regex) (s : str) :
  rmatch r s no_caps accept = None -> match_here r s = None.
Proof. intros Hn. unfold match_here. rewrite Hn. reflexivity. Qed.

Lemma no_start_app (r : regex) (A B rest : str) :
  (forall p1 p2, A = p1 ++ p2 -> p2 <> [] -> match_here r (p2 ++ B ++ rest) = None) ->
  (forall p1 p2, B = p1 ++ p2 -> p2 <> [] -> match_here r (p2 ++ rest) = None) ->
  forall p1 p2, A ++ B = p1 ++ p2 -> p2 <> [] -> match_here r (p2 ++ rest) = None.
Proof.
  intros HA HB p1 p2 Heq Hne. apply app_eq_app in Heq as [l [[-> ->]|[-> ->]]].
  - destruct l as [|u l].
    + apply (HB [] B); [reflexivity|exact Hne].
    + rewrite <- app_assoc. apply (HA p1 (u :: l)); [reflexivity|discriminate].
  - apply (HB l p2); [reflexivity|exact Hne].
Qed.

(** Two tags with text between them, none of which the pattern matches
    at its head: no match starts anywhere in them. *)
Lemma two_tags_skipped (r : regex) (T1 body T2 post : str) :
  no_brace T1 = true -> occurs [123%N; 37%N] (body ++ [123%N]) = false ->
  no_brace T2 = true ->
  match_here (RLit [123%N; 37%N] &> r) (123%N :: T1 ++ body ++ 123%N :: T2 ++ 125%N :: post)
  = None ->
  match_here (RLit [123%N; 37%N] &> r) (123%N :: T2 ++ 125%N :: post) = None ->
  forall p1 p2, (123%N :: T1 ++ body) ++ (123%N :: T2) ++ [125%N] = p1 ++ p2 -> p2 <> [] ->
                match_here (RLit [123%N; 37%N] &> r) (p2 ++ post) = None.
Proof.
  intros HT1 Hb HT2 Hh1 Hh2. apply no_start_app.
  - intros p1 p2 Heq Hne. rewrite <- app_assoc. cbn [app].
    apply (chunk_no_match 37 r (T1 ++ body) 123 (T2 ++ 125%N :: post) ) with (p1 := p1);
      [rewrite <- app_assoc; exact Hh1| |exact Heq|exact Hne].
    rewrite <- app_assoc, occurs_skip_no_brace by exact HT1. exact Hb.
  - apply no_start_app.
    + intros p1 p2 Heq Hne. cbn [app].
      apply (chunk_no_match 37 r T2 125 post) with (p1 := p1);
        [exact Hh2|apply no_brace_occurs_end, HT2|exact Heq|exact Hne].
    + intros p1 p2 Heq Hne. destruct p1 as [|u p1].
      * cbn [app] in Heq. subst p2. apply match_here_lit_none. reflexivity.
      * injection Heq as _ Heq. destruct p1; [|discriminate]. cbn [app] in Heq. congruence.
Qed.

Lemma gap_spaces (w : str) : is_gap w = true -> forallb is_space w = true.
Proof. destruct w; [discriminate|]. intros Hw. exact Hw. Qed.

(** The conditional stage passes over a loop in any layout. *)
Lemma conditional_skips_laid (pre w1 w2 x w3 w4 xs w5 body w6 w7 post : str) (ctx : context) :
  occurs (js "{%") (pre ++ js "{") = false ->
  is_identifier x = true -> is_identifier xs = true ->
  forallb is_space w1 = true -> is_gap w2 = true -> is_gap w3 = true -> is_gap w4 = true ->
  forallb is_space w5 = true -> forallb is_space w6 = true -> forallb is_space w7 = true ->
  occurs (js "{%") (body ++ js "{") = false ->
  handleConditionals (pre ++ for_block_laid w1 w2 x w3 w4 xs w5 body w6 w7 ++ post) ctx
  = pre ++ for_block_laid w1 w2 x w3 w4 xs w5 body w6 w7 ++ handleConditionals post ctx.
Proof.
  intros Hpre Hx Hxs Hw1 Hw2 Hw3 Hw4 Hw5 Hw6 Hw7 Hbody.
  unfold handleConditionals.
  rewrite replace_prefix.
  2:{ unfold for_block_laid, tag, re_conditional. norm_str. apply open_marker_clear. exact Hpre. }
  f_equal. rewrite replace_prefix; [reflexivity|].
  set (T1 := 37%N :: w1 ++ js "for" ++ w2 ++ x ++ w3 ++ js "in" ++ w4 ++ xs ++ w5 ++ js "%}").
  set (T2 := 37%N :: w6 ++ js "endfor" ++ w7 ++ [37%N]).
  assert (Hl : for_block_laid w1 w2 x w3 w4 xs w5 body w6 w7
               = (123%N :: T1 ++ body) ++ (123%N :: T2) ++ [125%N]).
  { unfold for_block_laid, tag, T1, T2. norm_str. reflexivity. }
  rewrite Hl. unfold re_conditional. change (js "{%") with [123%N; 37%N].
  apply two_tags_skipped.
  - unfold T1. cbn [no_brace forallb]. fold (no_brace).
    rewrite !no_brace_app, (spaces_no_brace w1 Hw1), (spaces_no_brace w2 (gap_spaces w2 Hw2)),
      (spaces_no_brace w3 (gap_spaces w3 Hw3)), (spaces_no_brace w4 (gap_spaces w4 Hw4)),
      (spaces_no_brace w5 Hw5), (identifier_no_brace x Hx), (identifier_no_brace xs Hxs).
    reflexivity.
  - exact Hbody.
  - unfold T2. cbn [no_brace forallb]. fold (no_brace).
    rewrite !no_brace_app, (spaces_no_brace w6 Hw6), (spaces_no_brace w7 Hw7). reflexivity.
  - apply match_here_none. unfold T1. norm_str.
    apply (tag_keyword_fails 105 [102%N] w1 102); [exact Hw1|reflexivity|reflexivity|reflexivity].
  - apply match_here_none. unfold T2. norm_str.
    apply (tag_keyword_fails 105 [102%N] w6 101); [exact Hw6|reflexivity|reflexivity|reflexivity].
Qed.

Lemma laid_loop_rendered (pre w1 w2 x w3 w4 xs w5 body w6 w7 post : str) (ctx : context) :
  occurs (js "{%") (pre ++ js "{") = false ->
  is_identifier x = true -> is_identifier xs = true ->
  forallb is_space w1 = true -> is_gap w2 = true -> is_gap w3 = true -> is_gap w4 = true ->
  forallb is_space w5 = true -> forallb is_space w6 = true -> forallb is_space w7 = true ->
  occurs (js "{%") (body ++ js "{") = false ->
  renderTemplate (pre ++ for_block_laid w1 w2 x w3 w4 xs w5 body w6 w7 ++ post) ctx
  = (r2 ← (out ← loop_output renderTemplate x body ctx (ctx_get ctx xs);
           rest ← handleForLoops renderTemplate (handleConditionals post ctx) ctx;
           Ok (pre ++ out ++ rest));
     r3 ← handleVariables r2 ctx;
     handleFilters r3 ctx).
Proof.
  intros Hpre Hx Hxs Hw1 Hw2 Hw3 Hw4 Hw5 Hw6 Hw7 Hbody.
  rewrite renderTemplate_stages
    by (destruct pre; unfold for_block_laid, tag; norm_str; discriminate).
  rewrite conditional_skips_laid by assumption.
  rewrite handleForLoops_laid by assumption. reflexivity.
Qed.

(** The layout of the loop tags does not matter: whatever the runs of
    white space inside the tags are, where the pattern asks for some or
    allows some, the loop is expanded as the loop with single blanks is. *)
Theorem renderTemplate_loop_layout (pre w1 w2 x w3 w4 xs w5 body w6 w7 post : str)
    (ctx : context) :
  occurs (js "{%") (pre ++ js "{") = false ->
  is_identifier x = true -> is_identifier xs = true ->
  forallb is_space w1 = true -> is_gap w2 = true -> is_gap w3 = true -> is_gap w4 = true ->
  forallb is_space w5 = true -> forallb is_space w6 = true -> forallb is_space w7 = true ->
  occurs (js "{%") (body ++ js "{") = false ->
  handleForLoops renderTemplate
    (pre ++ for_block_laid w1 w2 x w3 w4 xs w5 body w6 w7 ++ post) ctx
  = handleForLoops renderTemplate (pre ++ for_block x xs body ++ post) ctx
  /\ renderTemplate (pre ++ for_block_laid w1 w2 x w3 w4 xs w5 body w6 w7 ++ post) ctx
     = renderTemplate (pre ++ for_block x xs body ++ post) ctx.
Proof.
  intros Hpre Hx Hxs Hw1 Hw2 Hw3 Hw4 Hw5 Hw6 Hw7 Hbody. split.
  - rewrite handleForLoops_laid by assumption.
    rewrite for_block_layout. rewrite handleForLoops_laid by (assumption || reflexivity).
    reflexivity.
  - rewrite laid_loop_rendered by assumption.
    rewrite for_block_layout. rewrite laid_loop_rendered by (assumption || reflexivity).
    reflexivity.
Qed.

(** ** Conditional blocks in any layout *)

Lemma re_conditional_else_match_laid (w1 w2 c w3 A w4 w5 B w6 w7 post : str) :
  is_condition c = true ->
  forallb is_space w1 = true -> is_gap w2 = true -> forallb is_space w3 = true ->
  forallb is_space w4 = true -> forallb is_space w5 = true ->
  forallb is_space w6 = true -> forallb is_space w7 = true ->
  occurs (js "{%") (A ++ js "{") = false -> occurs (js "{%") (B ++ js "{") = false ->
  exists d, match_here re_conditional (if_else_block_laid w1 w2 c w3 A w4 w5 B w6 w7 ++ post)
            = Some (if_else_block_laid w1 w2 c w3 A w4 w5 B w6 w7, d)
            /\ d 1 = Some c /\ d 2 = Some A /\ d 3 = Some B.
Proof.
  intros Hc Hw1 Hw2 Hw3 Hw4 Hw5 Hw6 Hw7 HA HB.
  pose proof (cond_close_fails c) as Hclose. specialize (fun tail r => Hclose tail r Hc).
  destruct (condition_head c Hc) as (c0 & c' & -> & Hc0).
  destruct (gap_cons w2 Hw2) as (s2 & w2' & -> & Hs2 & Hw2').
  eexists. split; [apply match_here_intro|].
  - unfold if_else_block_laid, tag, re_conditional, RPlus. norm_str. rx.
    apply (rmatch_lazy_intro (c0 :: c')).
    { intros u1 u2 Hu Hne. apply (Hclose _ _ u1 u2 Hu Hne). }
    rx.
    apply (rmatch_lazy_intro A).
    { intros u1 u2 Hu Hne.
      apply branch_continues; apply (tag_free_suffix _ A u1 u2 _ _ _ HA Hu Hne). }
    unfold ROpt. rx_step. apply rmatch_alt_l. rx.
    apply (rmatch_lazy_intro B).
    { intros u1 u2 Hu Hne. apply (tag_free_suffix _ B u1 u2 _ _ _ HB Hu Hne). }
    rx. reflexivity.
  - caps_eval. unfold if_else_block_laid, tag. norm_str. repeat split; f_equal; solve_consumed.
Qed.

Lemma re_conditional_match_laid (w1 w2 c w3 A w6 w7 post : str) :
  is_condition c = true ->
  forallb is_space w1 = true -> is_gap w2 = true -> forallb is_space w3 = true ->
  forallb is_space w6 = true -> forallb is_space w7 = true ->
  occurs (js "{%") (A ++ js "{") = false ->
  exists d, match_here re_conditional (if_block_laid w1 w2 c w3 A w6 w7 ++ post)
            = Some (if_block_laid w1 w2 c w3 A w6 w7, d)
            /\ d 1 = Some c /\ d 2 = Some A /\ d 3 = None.
Proof.
  intros Hc Hw1 Hw2 Hw3 Hw6 Hw7 HA.
  pose proof (cond_close_fails c) as Hclose. specialize (fun tail r => Hclose tail r Hc).
  destruct (condition_head c Hc) as (c0 & c' & -> & Hc0).
  destruct (gap_cons w2 Hw2) as (s2 & w2' & -> & Hs2 & Hw2').
  eexists. split; [apply match_here_intro|].
  - unfold if_block_laid, tag, re_conditional, RPlus. norm_str. rx.
    apply (rmatch_lazy_intro (c0 :: c')).
    { intros u1 u2 Hu Hne. apply (Hclose _ _ u1 u2 Hu Hne). }
    rx.
    apply (rmatch_lazy_intro A).
    { intros u1 u2 Hu Hne.
      apply branch_continues; apply (tag_free_suffix _ A u1 u2 _ _ _ HA Hu Hne). }
    unfold ROpt. rx_step. apply rmatch_alt_r.
    { apply (tag_keyword_fails 101 [108%N; 115%N; 101%N] w6 101);
        [exact Hw6|reflexivity|reflexivity|reflexivity]. }
    rx. reflexivity.
  - caps_eval. unfold if_block_laid, tag. norm_str. repeat split; try f_equal; solve_consumed.
Qed.

Lemma handleConditionals_laid_else (pre w1 w2 c w3 A w4 w5 B w6 w7 post : str)
    (ctx : context) :
  occurs (js "{%") (pre ++ js "{") = false ->
  is_condition c = true ->
  forallb is_space w1 = true -> is_gap w2 = true -> forallb is_space w3 = true ->
  forallb is_space w4 = true -> forallb is_space w5 = true ->
  forallb is_space w6 = true -> forallb is_space w7 = true ->
  occurs (js "{%") (A ++ js "{") = false -> occurs (js "{%") (B ++ js "{") = false ->
  handleConditionals (pre ++ if_else_block_laid w1 w2 c w3 A w4 w5 B w6 w7 ++ post) ctx
  = pre ++ (if evaluateCondition c ctx then A else B) ++ handleConditionals post ctx.
Proof.
  intros Hpre Hc Hw1 Hw2 Hw3 Hw4 Hw5 Hw6 Hw7 HA HB.
  destruct (re_conditional_else_match_laid w1 w2 c w3 A w4 w5 B w6 w7 post
              Hc Hw1 Hw2 Hw3 Hw4 Hw5 Hw6 Hw7 HA HB) as (d & Hm & Hd1 & Hd2 & Hd3).
  unfold handleConditionals.
  rewrite replace_prefix.
  2:{ unfold if_else_block_laid, tag, re_conditional. norm_str.
      apply open_marker_clear. exact Hpre. }
  rewrite (replace_match _ _ _ _ d);
    [|unfold if_else_block_laid, tag; norm_str; discriminate|exact Hm].
  unfold cap. rewrite Hd1, Hd2, Hd3. reflexivity.
Qed.

Lemma handleConditionals_laid_if (pre w1 w2 c w3 A w6 w7 post : str) (ctx : context) :
  occurs (js "{%") (pre ++ js "{") = false ->
  is_condition c = true ->
  forallb is_space w1 = true -> is_gap w2 = true -> forallb is_space w3 = true ->
  forallb is_space w6 = true -> forallb is_space w7 = true ->
  occurs (js "{%") (A ++ js "{") = false ->
  handleConditionals (pre ++ if_block_laid w1 w2 c w3 A w6 w7 ++ post) ctx
  = pre ++ (if evaluateCondition c ctx then A else []) ++ handleConditionals post ctx.
Proof.
  intros Hpre Hc Hw1 Hw2 Hw3 Hw6 Hw7 HA.
  destruct (re_conditional_match_laid w1 w2 c w3 A w6 w7 post Hc Hw1 Hw2 Hw3 Hw6 Hw7 HA)
    as (d & Hm & Hd1 & Hd2 & Hd3).
  unfold handleConditionals.
  rewrite replace_prefix.
  2:{ unfold if_block_laid, tag, re_conditional. norm_str. apply open_marker_clear. exact Hpre. }
  rewrite (replace_match _ _ _ _ d);
    [|unfold if_block_laid, tag; norm_str; discriminate|exact Hm].
  unfold cap. rewrite Hd1, Hd2, Hd3. reflexivity.
Qed.

Lemma if_else_block_layout (c A B : str) :
  if_else_block c A B
  = if_else_block_laid (js " ") (js " ") c (js " ") A (js " ") (js " ") B (js " ") (js " ").
Proof. unfold if_else_block, if_else_block_laid, tag. norm_str. reflexivity. Qed.

Lemma if_block_layout (c A : str) :
  if_block c A = if_block_laid (js " ") (js " ") c (js " ") A (js " ") (js " ").
Proof. unfold if_block, if_block_laid, tag. norm_str. reflexivity. Qed.

(** Templates that the conditional stage maps to the same text are
    rendered alike. *)
Lemma renderTemplate_by_conditionals (s t : str) (ctx : context) :
  s <> [] -> t <> [] -> handleConditionals s ctx = handleConditionals t ctx ->
  renderTemplate s ctx = renderTemplate t ctx.
Proof.
  intros Hs Ht Heq. rewrite !renderTemplate_stages by assumption. rewrite Heq. reflexivity.
Qed.

(** The layout of the tags of a conditional does not matter: whatever
    the runs of white space inside the tags are, the stage puts the chosen
    branch in the place of the block, as it does for the block with single
    blanks, and the template is rendered alike. *)
Theorem renderTemplate_conditional_layout (pre w1 w2 c w3 A w4 w5 B w6 w7 post : str)
    (ctx : context) :
  occurs (js "{%") (pre ++ js "{") = false ->
  is_condition c = true ->
  forallb is_space w1 = true -> is_gap w2 = true -> forallb is_space w3 = true ->
  forallb is_space w4 = true -> forallb is_space w5 = true ->
  forallb is_space w6 = true -> forallb is_space w7 = true ->
  occurs (js "{%") (A ++ js "{") = false -> occurs (js "{%") (B ++ js "{") = false ->
  handleConditionals (pre ++ if_else_block_laid w1 w2 c w3 A w4 w5 B w6 w7 ++ post) ctx
  = pre ++ (if evaluateCondition c ctx then A else B) ++ handleConditionals post ctx
  /\ handleConditionals (pre ++ if_block_laid w1 w2 c w3 A w6 w7 ++ post) ctx
     = pre ++ (if evaluateCondition c ctx then A else []) ++ handleConditionals post ctx
  /\ renderTemplate (pre ++ if_else_block_laid w1 w2 c w3 A w4 w5 B w6 w7 ++ post) ctx
     = renderTemplate (pre ++ if_else_block c A B ++ post) ctx
  /\ renderTemplate (pre ++ if_block_laid w1 w2 c w3 A w6 w7 ++ post) ctx
     = renderTemplate (pre ++ if_block c A ++ post) ctx.
Proof.
  intros Hpre Hc Hw1 Hw2 Hw3 Hw4 Hw5 Hw6 Hw7 HA HB.
  split; [apply handleConditionals_laid_else; assumption|].
  split; [apply handleConditionals_laid_if; assumption|].
  split.
  - apply renderTemplate_by_conditionals.
    + destruct pre; unfold if_else_block_laid, tag; norm_str; discriminate.
    + destruct pre; unfold if_else_block; norm_str; discriminate.
    + rewrite handleConditionals_laid_else by assumption.
      rewrite if_else_block_layout.
      rewrite handleConditionals_laid_else by (assumption || reflexivity). reflexivity.
  - apply renderTemplate_by_conditionals.
    + destruct pre; unfold if_block_laid, tag; norm_str; discriminate.
    + destruct pre; unfold if_block; norm_str; discriminate.
    + rewrite handleConditionals_laid_if by assumption.
      rewrite if_block_layout.
      rewrite handleConditionals_laid_if by (assumption || reflexivity). reflexivity.
Qed.

(** ** Templates that are rendered without an exception *)


















(** ** What is left as it is *)






(** ** A variable that the context does not hold *)




(** ** A loop in a text *)

Lemma handleConditionals_tagless (s : str) (ctx : context) :
  occurs (js "{%") s = false -> handleConditionals s ctx = s.
Proof. intros Hs. apply replace_of_scan_none, scan_no_marker, Hs. Qed.

Lemma handleForLoops_tagless (render : str -> context -> result str) (s : str)
    (ctx : context) :
  occurs (js "{%") s = false -> handleForLoops render s ctx = Ok s.
Proof. intros Hs. apply replaceM_of_scan_none, scan_no_marker, Hs. Qed.

(** A loop whose body holds no tag, in a template that holds no other
    tag: the loop stage puts the output of the loop in its place, and
    the variable and filter stages read the whole text. *)
Lemma loop_in_text (pre x xs body post : str) (ctx : context) :
  occurs (js "{%") (pre ++ js "{") = false ->
  is_identifier x = true -> is_identifier xs = true ->
  occurs (js "{%") (body ++ js "{") = false ->
  occurs (js "{%") post = false ->
  renderTemplate (pre ++ for_block x xs body ++ post) ctx
  = (out ← loop_output renderTemplate x body ctx (ctx_get ctx xs);
     r3 ← handleVariables (pre ++ out ++ post) ctx;
     handleFilters r3 ctx).
Proof.
  intros Hpre Hx Hxs Hb Hpost. rewrite for_block_layout.
  rewrite laid_loop_rendered by (assumption || reflexivity).
  rewrite (handleConditionals_tagless post ctx Hpost).
  rewrite (handleForLoops_tagless renderTemplate post ctx Hpost).
  destruct (loop_output renderTemplate x body ctx (ctx_get ctx xs)); reflexivity.
Qed.

Lemma isArray_absent (ctx : context) (xs : str) :
  ctx !! xs = None -> isArray (ctx_get ctx xs) = false.
Proof.
  intros Hn. unfold isArray. destruct (inherited_name xs) eqn:Hi.
  - destruct (ctx_get_inherited ctx xs Hn Hi) as (_ & _ & ->). reflexivity.
  - rewrite (ctx_get_absent ctx xs Hn Hi). reflexivity.
Qed.

Lemma stages_unmarked (s : str) (ctx : context) :
  occurs (js "{{") s = false -> (r3 ← handleVariables s ctx; handleFilters r3 ctx) = Ok s.
Proof.
  intros Hs. unfold handleVariables.
  rewrite replaceM_of_scan_none by (apply scan_no_marker, Hs). cbn [mbind result_bind].
  apply replaceM_of_scan_none, scan_no_marker, Hs.
Qed.

(** C3, as amended.  Loop expansion, from end to end, for a loop whose
    body holds no tag and that stands in a template with no other tag.
    When the name of the list is no key of the context, or its value is
    no array, the loop contributes the empty string.  When the value is
    an array, the loop contributes the renderings of the body, one per
    element and in the order of the elements, each under the context
    extended with the loop variable, put together without a separator.
    In both cases the text so obtained passes, with the text around the
    loop, through the variable and filter stages of the template, under
    the context of the template; it is the result when it holds no
    opening marker of a placeholder.  An empty array contributes the
    empty string. *)
Theorem handleForLoops_expansion (pre x xs body post : str) (ctx : context) :
  occurs (js "{%") (pre ++ js "{") = false ->
  is_identifier x = true -> is_identifier xs = true ->
  occurs (js "{%") (body ++ js "{") = false ->
  occurs (js "{%") post = false ->
  (ctx !! xs = None -> isArray (ctx_get ctx xs) = false)
  /\ (isArray (ctx_get ctx xs) = false ->
      renderTemplate (pre ++ for_block x xs body ++ post) ctx
      = (r3 ← handleVariables (pre ++ post) ctx; handleFilters r3 ctx))
  /\ (isArray (ctx_get ctx xs) = false -> occurs (js "{{") (pre ++ post) = false ->
      renderTemplate (pre ++ for_block x xs body ++ post) ctx = Ok (pre ++ post))
  /\ (forall items, ctx !! xs = Some (VArr items) ->
      renderTemplate (pre ++ for_block x xs body ++ post) ctx
      = (outs ← mapM_result (fun item => renderTemplate body (<[x := item]> ctx)) items;
         r3 ← handleVariables (pre ++ concat outs ++ post) ctx;
         handleFilters r3 ctx))
  /\ (forall items outs, ctx !! xs = Some (VArr items) ->
      Forall2 (fun item out => renderTemplate body (<[x := item]> ctx) = Ok out) items outs ->
      occurs (js "{{") (pre ++ concat outs ++ post) = false ->
      renderTemplate (pre ++ for_block x xs body ++ post) ctx = Ok (pre ++ concat outs ++ post))
  /\ (ctx !! xs = Some (VArr []) ->
      renderTemplate (pre ++ for_block x xs body ++ post) ctx
      = (r3 ← handleVariables (pre ++ post) ctx; handleFilters r3 ctx)).
Proof.
  intros Hpre Hx Hxs Hb Hpost.
  pose proof (loop_in_text pre x xs body post ctx Hpre Hx Hxs Hb Hpost) as Hr.
  assert (Hnone : isArray (ctx_get ctx xs) = false ->
                  renderTemplate (pre ++ for_block x xs body ++ post) ctx
                  = (r3 ← handleVariables (pre ++ post) ctx; handleFilters r3 ctx)).
  { intros Hi. rewrite Hr. unfold loop_output. unfold isArray in Hi.
    destruct (elements (ctx_get ctx xs)); [discriminate|reflexivity]. }
  assert (Harr : forall items, ctx !! xs = Some (VArr items) ->
      renderTemplate (pre ++ for_block x xs body ++ post) ctx
      = (outs ← mapM_result (fun item => renderTemplate body (<[x := item]> ctx)) items;
         r3 ← handleVariables (pre ++ concat outs ++ post) ctx;
         handleFilters r3 ctx)).
  { intros items Hi. rewrite Hr, (ctx_get_own ctx xs _ Hi). cbn [loop_output elements].
    destruct (mapM_result _ items); reflexivity. }
  split; [apply isArray_absent|]. split; [exact Hnone|]. split; [|split; [exact Harr|split]].
  - intros Hi Hno. rewrite (Hnone Hi). apply stages_unmarked, Hno.
  - intros items outs Hi Houts Hno. rewrite (Harr items Hi).
    rewrite (mapM_result_Forall2 _ items outs Houts). cbn [mbind result_bind].
    apply stages_unmarked, Hno.
  - intros Hi. rewrite (Harr [] Hi). reflexivity.
Qed.

(** ** The loop variable *)











(** ** Placeholders *)

Lemma ToString_object (o : gmap str value) :
  ToString (VObj o)
  = if bool_decide (is_Some (o !! js "toString")) then Raise TypeError
    else Ok (js "[object Object]").
Proof. reflexivity. Qed.

(** C5, as amended.  The two placeholder stages: a placeholder whose
    value, behind its filter if it has one, is [undefined] is left in
    the text as it is; for any other value the stage calls [String] on
    it and puts the text in, or ends with the exception of [String].
    [String] raises a TypeError on an object with a property [toString]
    of its own, and prints the function that a name inherited from
    [Object.prototype] stands for.  From end to end, for a placeholder
    without filter between two texts without braces: it is left as it is
    when its path is [undefined]; it is replaced by the text of its
    value when that text, with what follows, holds no opening marker;
    the exception of [String] ends the rendering.  The text that the
    variable stage puts in is read by the filter stage: a value that is
    a string holding a placeholder with a filter is expanded.  A
    placeholder with a filter is replaced by the text of the filtered
    value, which no stage reads again, and is left as it is when the
    filtered value is [undefined]. *)
Theorem placeholder_verbatim_on_undefined :
  (forall (pre w1 path w2 post : str) (ctx : context) (v : jsvalue),
      occurs (js "{{") (pre ++ js "{") = false ->
      forallb is_space w1 = true -> forallb is_space w2 = true -> is_path path = true ->
      getNestedValue (VObj ctx) path = Ok v ->
      handleVariables (pre ++ placeholder w1 path w2 ++ post) ctx
      = (s ← substituted (placeholder w1 path w2) v;
         rest ← handleVariables post ctx;
         Ok (pre ++ s ++ rest)))
  /\ (forall (pre w1 path w2 w3 name : str) (arg : option str) (w4 post : str)
             (ctx : context) (v : jsvalue),
         occurs (js "{{") (pre ++ js "{") = false ->
         forallb is_space w1 = true -> forallb is_space w2 = true ->
         forallb is_space w3 = true -> forallb is_space w4 = true ->
         is_path path = true -> is_identifier name = true ->
         (forall a, arg = Some a -> is_argument a = true) ->
         getNestedValue (VObj ctx) path = Ok v ->
         handleFilters
           (pre ++ filter_placeholder w1 path w2 w3 (filter_call name arg) w4 ++ post) ctx
         = (v' ← applyFilter v (filter_call name arg);
            s ← substituted (filter_placeholder w1 path w2 w3 (filter_call name arg) w4) v';
            rest ← handleFilters post ctx;
            Ok (pre ++ s ++ rest)))
  /\ (forall m : str, substituted m VUndef = Ok m)
  /\ (forall (m : str) (v : jsvalue), v <> VUndef -> substituted m v = ToString v)
  /\ (forall o : gmap str value,
         ToString (VObj o)
         = if bool_decide (is_Some (o !! js "toString")) then Raise TypeError
           else Ok (js "[object Object]"))
  /\ (forall f : builtin, ToString (Builtin f) = Ok (builtin_to_string f))
  /\ (forall (pre w1 p w2 post : str) (ctx : context) (v : jsvalue),
         no_brace pre = true -> no_brace post = true ->
         forallb is_space w1 = true -> forallb is_space w2 = true -> is_path p = true ->
         getNestedValue (VObj ctx) p = Ok v ->
         (v = VUndef ->
          renderTemplate (pre ++ placeholder w1 p w2 ++ post) ctx
          = Ok (pre ++ placeholder w1 p w2 ++ post))
         /\ (forall s, v <> VUndef -> ToString v = Ok s ->
               occurs (js "{{") (s ++ post) = false ->
               renderTemplate (pre ++ placeholder w1 p w2 ++ post) ctx = Ok (pre ++ s ++ post))
         /\ (forall e, ToString v = Raise e ->
               renderTemplate (pre ++ placeholder w1 p w2 ++ post) ctx = Raise e))
  /\ (forall (path p name : str) (ctx : context) (u : jsvalue),
         is_path path = true -> is_path p = true -> is_identifier name = true ->
         getNestedValue (VObj ctx) path
         = Ok (Data (VStr (filter_placeholder [] p [] [] name []))) ->
         getNestedValue (VObj ctx) p = Ok u ->
         renderTemplate (placeholder [] path []) ctx
         = (u' ← applyFilter u name; substituted (filter_placeholder [] p [] [] name []) u'))
  /\ (forall (path name : str) (arg : option str) (ctx : context) (v : jsvalue),
         is_path path = true -> is_identifier name = true ->
         (forall a, arg = Some a -> is_argument a = true /\ no_brace a = true) ->
         getNestedValue (VObj ctx) path = Ok v ->
         renderTemplate (filter_placeholder [] path [] [] (filter_call name arg) []) ctx
         = (v' ← applyFilter v (filter_call name arg);
            substituted (filter_placeholder [] path [] [] (filter_call name arg) []) v')).
Proof.
  split; [exact handleVariables_placeholder|]. split; [exact handleFilters_placeholder|].
  split; [exact substituted_undefined|]. split; [exact substituted_defined|].
  split; [exact ToString_object|]. split; [reflexivity|].
  split; [exact text_placeholder_rendered|]. split; [exact placeholder_holding_filter|].
  exact filter_placeholder_rendered.
Qed.

(** ** Totality *)




End RenderingProperties.

(** * Worked instances *)

Lemma renderTemplate_plain_text_witness :
  occurs (js "{{") (js "plain } text { 100% }") = false
  /\ occurs (js "{%") (js "plain } text { 100% }") = false
  /\ @renderTemplate ZHost (js "plain } text { 100% }") ∅ = Ok (js "plain } text { 100% }").
Proof.
  split; [reflexivity|]. split; [reflexivity|].
  apply (@renderTemplate_plain_text ZHost); reflexivity.
Defined.

Lemma applyFilter_default_witness :
  is_quote dquote /\ plain_literal (js "none") = true
  /\ @applyFilter ZHost (Data VNull) (js "default(" ++ dquote :: js "none" ++ dquote :: js ")")
     = Ok (Data (VStr (js "none")))
  /\ @applyFilter ZHost (Data (VStr (js "v")))
       (js "default(" ++ dquote :: js "none" ++ dquote :: js ")")
     = Ok (Data (VStr (js "v"))).
Proof.
  split; [left; reflexivity|]. split; [reflexivity|]. split.
  - apply (proj1 (@applyFilter_default ZHost) (Data VNull) dquote (js "none"));
      [left; reflexivity|reflexivity].
  - apply (proj1 (@applyFilter_default ZHost) (Data (VStr (js "v"))) dquote (js "none"));
      [left; reflexivity|reflexivity].
Defined.

Lemma handleConditionals_block_witness :
  occurs (js "{%") (js "Dear " ++ js "{") = false
  /\ is_condition (js "vip") = true
  /\ no_match_inside re_else_tag (js "{{name}}!")
       (js "{% else %}" ++ js "guest" ++ js "{% endif %}" ++ js ".") = true
  /\ no_match_inside re_endif_tag (js "{{name}}!")
       (js "{% else %}" ++ js "guest" ++ js "{% endif %}" ++ js ".") = true
  /\ no_match_inside re_endif_tag (js "guest") (js "{% endif %}" ++ js ".") = true
  /\ @handleConditionals ZHost
       (js "Dear " ++ if_else_block (js "vip") (js "{{name}}!") (js "guest") ++ js ".")
       {[ js "vip" := VBool true ]}
     = js "Dear {{name}}!.".
Proof.
  do 5 (split; [reflexivity|]).
  rewrite (proj1 (@handleConditionals_block ZHost)) by reflexivity.
  reflexivity.
Defined.

Lemma handleForLoops_expansion_witness :
  occurs (js "{%") (js "Items: " ++ js "{") = false
  /\ is_identifier (js "i") = true /\ is_identifier (js "xs") = true
  /\ occurs (js "{%") (js "[{{i}}]" ++ js "{") = false
  /\ occurs (js "{%") (js "!") = false
  /\ @renderTemplate ZHost
       (js "Items: " ++ for_block (js "i") (js "xs") (js "[{{i}}]") ++ js "!")
       {[ js "xs" := VArr [@VNum ZHost 1%Z; @VNum ZHost 2%Z; @VNum ZHost 3%Z] ]}
     = Ok (js "Items: [1][2][3]!")
  /\ @renderTemplate ZHost
       (js "Items: " ++ for_block (js "i") (js "xs") (js "[{{i}}]") ++ js "!")
       {[ js "xs" := VStr (js "no list") ]}
     = Ok (js "Items: !")
  /\ @renderTemplate ZHost
       (js "Items: " ++ for_block (js "i") (js "xs") (js "[{{i}}]") ++ js "!") ∅
     = Ok (js "Items: !").
Proof.
  do 5 (split; [reflexivity|]). split; [|split].
  - destruct (@handleForLoops_expansion ZHost
                (js "Items: ") (js "i") (js "xs") (js "[{{i}}]") (js "!")
                {[ js "xs" := VArr [@VNum ZHost 1%Z; @VNum ZHost 2%Z; @VNum ZHost 3%Z] ]}
                eq_refl eq_refl eq_refl eq_refl eq_refl) as (_ & _ & _ & _ & Harr & _).
    apply (Harr [@VNum ZHost 1%Z; @VNum ZHost 2%Z; @VNum ZHost 3%Z]
             [js "[1]"; js "[2]"; js "[3]"]).
    + reflexivity.
    + repeat constructor.
    + reflexivity.
  - destruct (@handleForLoops_expansion ZHost
                (js "Items: ") (js "i") (js "xs") (js "[{{i}}]") (js "!")
                {[ js "xs" := VStr (js "no list") ]}
                eq_refl eq_refl eq_refl eq_refl eq_refl) as (_ & _ & Hno & _).
    apply Hno; reflexivity.
  - destruct (@handleForLoops_expansion ZHost
                (js "Items: ") (js "i") (js "xs") (js "[{{i}}]") (js "!") ∅
                eq_refl eq_refl eq_refl eq_refl eq_refl) as (Habs & _ & Hno & _).
    apply Hno; [apply Habs|]; reflexivity.
Defined.


Lemma placeholder_verbatim_on_undefined_witness :
  no_brace (js "Hi ") = true /\ no_brace (js "!") = true
  /\ forallb is_space (js " ") = true
  /\ is_path (js "user.name") = true /\ is_path (js "user.age") = true
  /\ @renderTemplate ZHost
       (js "Hi " ++ placeholder (js " ") (js "user.name") (js " ") ++ js "!")
       {[ js "user" := VObj {[ js "name" := VStr (js "Ann") ]} ]}
     = Ok (js "Hi Ann!")
  /\ @renderTemplate ZHost
       (js "Hi " ++ placeholder (js " ") (js "user.age") (js " ") ++ js "!")
       {[ js "user" := VObj {[ js "name" := VStr (js "Ann") ]} ]}
     = Ok (js "Hi {{ user.age }}!")
  /\ @renderTemplate ZHost
       (js "Hi " ++ placeholder (js " ") (js "user.name") (js " ") ++ js "!")
       {[ js "user" := VObj {[ js "name" := VObj {[ js "toString" := VStr (js "x") ]} ]} ]}
     = Raise TypeError
  /\ @renderTemplate ZHost
       (filter_placeholder [] (js "user.name") [] [] (filter_call (js "upper") None) [])
       {[ js "user" := VObj {[ js "name" := VStr (js "Ann") ]} ]}
     = Ok (js "ANN").
Proof.
  do 5 (split; [reflexivity|]).
  destruct (@placeholder_verbatim_on_undefined ZHost)
    as (_ & _ & _ & _ & _ & _ & Hend & _ & Hfil).
  split; [|split; [|split]].
  - assert (Hg : @getNestedValue ZHost
                   (VObj {[ js "user" := VObj {[ js "name" := VStr (js "Ann") ]} ]})
                   (js "user.name") = Ok (Data (VStr (js "Ann")))) by reflexivity.
    destruct (Hend (js "Hi ") (js " ") (js "user.name") (js " ") (js "!") _ _
                eq_refl eq_refl eq_refl eq_refl eq_refl Hg) as (_ & Hd & _).
    apply (Hd (js "Ann")); [discriminate|reflexivity|reflexivity].
  - assert (Hg : @getNestedValue ZHost
                   (VObj {[ js "user" := VObj {[ js "name" := VStr (js "Ann") ]} ]})
                   (js "user.age") = Ok (Data VUndef)) by reflexivity.
    destruct (Hend (js "Hi ") (js " ") (js "user.age") (js " ") (js "!") _ _
                eq_refl eq_refl eq_refl eq_refl eq_refl Hg) as (Hu & _ & _).
    apply Hu. reflexivity.
  - assert (Hg : @getNestedValue ZHost
                   (VObj {[ js "user" :=
                              VObj {[ js "name" := VObj {[ js "toString" := VStr (js "x") ]} ]} ]})
                   (js "user.name")
                 = Ok (Data (VObj {[ js "toString" := VStr (js "x") ]}))) by reflexivity.
    destruct (Hend (js "Hi ") (js " ") (js "user.name") (js " ") (js "!") _ _
                eq_refl eq_refl eq_refl eq_refl eq_refl Hg) as (_ & _ & He).
    apply He. reflexivity.
  - assert (Hg : @getNestedValue ZHost
                   (VObj {[ js "user" := VObj {[ js "name" := VStr (js "Ann") ]} ]})
                   (js "user.name") = Ok (Data (VStr (js "Ann")))) by reflexivity.
    assert (Hn : forall a : str, @None str = Some a -> is_argument a = true /\ no_brace a = true)
      by discriminate.
    rewrite (Hfil (js "user.name") (js "upper") None _ _ eq_refl eq_refl Hn Hg).
    reflexivity.
Defined.



(** * Worked instances of the statements above *)

Lemma renderTemplate_leading_text_witness :
  no_brace (js "Hello, ") = true
  /\ @renderTemplate ZHost (js "Hello, " ++ js "{{name}}!") {[ js "name" := VStr (js "Ann") ]}
     = Ok (js "Hello, Ann!").
Proof.
  split; [reflexivity|].
  rewrite renderTemplate_leading_text by reflexivity. vm_compute. reflexivity.
Defined.

Lemma renderTemplate_escaped_witness :
  occurs (js "{{{") (js "a {{ b }} {% c %}") = false
  /\ @renderTemplate ZHost (escapeTemplate (js "a {{ b }} {% c %}")) ∅
     = Ok (escapeTemplate (js "a {{ b }} {% c %}")).
Proof. split; [reflexivity|apply renderTemplate_escaped; reflexivity]. Defined.

Lemma renderTemplate_no_syntax_witness :
  on_one_line (js "a }} b {{ c") = true
  /\ hasTemplateSyntax (js "a }} b {{ c") = false
  /\ @renderTemplate ZHost (js "a }} b {{ c") ∅ = Ok (js "a }} b {{ c").
Proof.
  split; [reflexivity|]. split; [reflexivity|].
  destruct (@renderTemplate_no_syntax ZHost) as [Hs _]. apply Hs; reflexivity.
Defined.

Lemma applyFilter_join_witness :
  no_paren (js "' - '") = true
  /\ @applyFilter ZHost (Data (VArr [VStr (js "a"); VStr (js "b")]))
       (filter_call (js "join") (Some (js "' - '")))
     = Ok (Data (VStr (js "a - b")))
  /\ @applyFilter ZHost
       (Data (VArr [VStr (js "a"); VObj {[ js "toString" := VStr (js "x") ]}]))
       (filter_call (js "join") (Some (js "' - '")))
     = Raise TypeError.
Proof.
  split; [reflexivity|].
  destruct (@applyFilter_join ZHost (js "' - '") eq_refl) as (_ & Hs & Hr & _).
  split; [apply (Hs [js "a"; js "b"])|].
  apply (Hr _ {[ js "toString" := VStr (js "x") ]} (VStr (js "x")));
    [right; left; reflexivity|reflexivity].
Defined.

Lemma applyFilter_default_unquoted_witness :
  @is_missing ZHost (Data VNull) = true /\ no_paren (js "0") = true
  /\ forallb (cmatch nonquote_class) (js "0") = true
  /\ @applyFilter ZHost (Data VNull) (filter_call (js "default") (Some (js "0")))
     = Ok (Data (VStr [])).
Proof.
  split; [reflexivity|]. split; [reflexivity|]. split; [reflexivity|].
  destruct (@applyFilter_default_unquoted ZHost (Data VNull) (js "0") eq_refl eq_refl eq_refl)
    as [Hd _]. exact Hd.
Defined.

Lemma getNestedValue_descent_witness :
  dot_free (js "user") = true /\ dot_free (js "constructor") = true
  /\ @getNestedValue ZHost
       (VObj {[ js "user" := VObj {[ js "name" := VStr (js "Ann") ]} ]}) (js "user.name")
     = @getNestedValue ZHost (VObj {[ js "name" := VStr (js "Ann") ]}) (js "name")
  /\ @getNestedValue ZHost (VObj {[ js "user" := VStr (js "Ann") ]}) (js "user.name")
     = Ok (Data VUndef)
  /\ @getNestedValue ZHost (VObj ∅) (js "user") = Ok (Data VUndef)
  /\ @getNestedValue ZHost (VObj ∅) (js "constructor") = Ok (Builtin (js "Object"))
  /\ @getNestedValue ZHost (VObj ∅) (js "constructor.name") = Ok (Data VUndef).
Proof.
  split; [reflexivity|]. split; [reflexivity|]. split; [|split; [|split]].
  - destruct (@getNestedValue_descent ZHost
                {[ js "user" := VObj {[ js "name" := VStr (js "Ann") ]} ]} (js "user") eq_refl)
      as (_ & Hd & _).
    apply (Hd {[ js "name" := VStr (js "Ann") ]} (js "name")). reflexivity.
  - destruct (@getNestedValue_descent ZHost
                {[ js "user" := VStr (js "Ann") ]} (js "user") eq_refl)
      as (_ & _ & Hs & _).
    apply (Hs (VStr (js "Ann")) (js "name")); reflexivity.
  - destruct (@getNestedValue_descent ZHost ∅ (js "user") eq_refl) as (_ & _ & _ & Hn & _).
    apply Hn; reflexivity.
  - destruct (@getNestedValue_descent ZHost ∅ (js "constructor") eq_refl)
      as (_ & _ & _ & _ & Hi).
    destruct (Hi (js "Object") eq_refl ltac:(discriminate) eq_refl) as [Hf Hp].
    split; [exact Hf|apply (Hp (js "name"))].
Defined.

Lemma getNestedValue_array_witness :
  dot_free (js "xs") = true
  /\ ({[ js "xs" := VArr [VStr (js "a"); VStr (js "b")] ]} : gmap str (@value ZHost)) !! js "xs"
     = Some (VArr [VStr (js "a"); VStr (js "b")])
  /\ @getNestedValue ZHost (VObj {[ js "xs" := VArr [VStr (js "a"); VStr (js "b")] ]})
       (js "xs.length") = Ok (VNum 2%Z).
Proof.
  split; [reflexivity|].
  assert (Hx : ({[ js "xs" := VArr [VStr (js "a"); VStr (js "b")] ]} : gmap str (@value ZHost))
               !! js "xs" = Some (VArr [VStr (js "a"); VStr (js "b")])) by reflexivity.
  split; [exact Hx|].
  destruct (@getNestedValue_array ZHost _ (js "xs") _ eq_refl Hx) as [Hl _].
  exact Hl.
Defined.

Lemma dotted_key_unreachable_witness :
  has_dot (js "a.b") = true
  /\ @handleVariables ZHost (js "{{a.b}}") (<[js "a.b" := VStr (js "x")]> ∅)
     = @handleVariables ZHost (js "{{a.b}}") ∅.
Proof.
  split; [reflexivity|].
  destruct (@dotted_key_unreachable ZHost (js "a.b") (VStr (js "x")) ∅ eq_refl)
    as (_ & Hv & _).
  apply Hv.
Defined.

Lemma evaluateCondition_dotted_witness :
  is_path (js "user.vip") = true
  /\ @getNestedValue ZHost (VObj {[ js "user" := VObj {[ js "vip" := VBool true ]} ]})
       (js "user.vip") = Ok (Data (VBool true))
  /\ @evaluateCondition ZHost (js "user.vip")
       {[ js "user" := VObj {[ js "vip" := VBool true ]} ]} = false
  /\ @evaluateCondition ZHost (js "user.vip") {[ js "user.vip" := VBool true ]} = true.
Proof.
  split; [reflexivity|]. split; [reflexivity|]. split.
  - destruct (@evaluateCondition_dotted ZHost (js "user.vip")
                {[ js "user" := VObj {[ js "vip" := VBool true ]} ]} eq_refl)
      as (_ & _ & Hn & _).
    apply Hn. reflexivity.
  - destruct (@evaluateCondition_dotted ZHost (js "user.vip")
                {[ js "user.vip" := VBool true ]} eq_refl) as (_ & Hv & _).
    apply (Hv (VBool true)). reflexivity.
Defined.

Lemma renderTemplate_filter_chain_witness :
  is_path (js "name") = true /\ is_identifier (js "lower") = true
  /\ no_brace (js "capitalize") = true
  /\ @renderTemplate ZHost (filter_chain (js "name") (js "lower") (js "capitalize"))
       {[ js "name" := VStr (js "ann") ]}
     = Ok (filter_chain (js "name") (js "lower") (js "capitalize")).
Proof.
  split; [reflexivity|]. split; [reflexivity|]. split; [reflexivity|].
  apply renderTemplate_filter_chain; reflexivity.
Defined.

Lemma renderTemplate_loop_witness :
  is_identifier (js "x") = true /\ is_identifier (js "xs") = true
  /\ occurs (js "{%") (js "ab" ++ js "{") = false
  /\ @renderTemplate ZHost (for_block (js "x") (js "xs") (js "ab"))
       {[ js "xs" := VArr [VNull; VNull; VNull] ]}
     = Ok (concat (replicate 3 (js "ab"))).
Proof.
  split; [reflexivity|]. split; [reflexivity|]. split; [reflexivity|].
  destruct (@renderTemplate_loop ZHost (js "x") (js "xs") (js "ab")
              {[ js "xs" := VArr [VNull; VNull; VNull] ]} eq_refl eq_refl eq_refl)
    as (_ & _ & Hp).
  apply (Hp [VNull; VNull; VNull]); reflexivity.
Defined.

Lemma renderTemplate_conditional_witness :
  is_condition (js "a") = true
  /\ occurs (js "{%") (js "{{x}}" ++ js "{") = false
  /\ occurs (js "{%") (js "none" ++ js "{") = false
  /\ @renderTemplate ZHost (if_else_block (js "a") (js "{{x}}") (js "none"))
       {[ js "a" := VBool true ]}
     = @renderTemplate ZHost
         (if @evaluateCondition ZHost (js "a") {[ js "a" := VBool true ]}
          then js "{{x}}" else js "none")
         {[ js "a" := VBool true ]}.
Proof.
  split; [reflexivity|]. split; [reflexivity|]. split; [reflexivity|].
  destruct (@renderTemplate_conditional ZHost (js "a") (js "{{x}}") (js "none")
              {[ js "a" := VBool true ]} eq_refl eq_refl eq_refl) as [He _].
  exact He.
Defined.


Lemma renderTemplate_value_rescanned_witness :
  is_path (js "a") = true /\ is_path (js "b") = true
  /\ @getNestedValue ZHost
       (VObj (<[js "a" := VStr (js "{{b|upper}}")]> {[ js "b" := VStr (js "x") ]})) (js "a")
     = Ok (Data (VStr (js "{{b|upper}}")))
  /\ @renderTemplate ZHost (placeholder [] (js "a") [])
       (<[js "a" := VStr (js "{{b|upper}}")]> {[ js "b" := VStr (js "x") ]})
     = Ok (js "X")
  /\ @renderTemplate ZHost (placeholder [] (js "a") [])
       {[ js "a" := VObj {[ js "toString" := VNull ]} ]}
     = Raise TypeError.
Proof.
  split; [reflexivity|]. split; [reflexivity|].
  assert (Ha : @getNestedValue ZHost
                 (VObj (<[js "a" := VStr (js "{{b|upper}}")]> {[ js "b" := VStr (js "x") ]}))
                 (js "a") = Ok (Data (VStr (js "{{b|upper}}")))) by reflexivity.
  split; [exact Ha|]. split.
  - destruct (@renderTemplate_value_rescanned ZHost (js "a") _ _ eq_refl Ha)
      as (_ & _ & _ & _ & _ & Hu).
    apply (Hu (js "b") (js "x")); reflexivity.
  - assert (Ho : @getNestedValue ZHost (VObj {[ js "a" := VObj {[ js "toString" := VNull ]} ]})
                   (js "a") = Ok (Data (VObj {[ js "toString" := VNull ]}))) by reflexivity.
    destruct (@renderTemplate_value_rescanned ZHost (js "a") _ _ eq_refl Ho)
      as (_ & _ & He & _).
    apply He. reflexivity.
Defined.

Lemma renderTemplate_filter_placeholder_witness :
  is_path (js "user.name") = true /\ is_identifier (js "default") = true
  /\ is_argument (js "'nobody'") = true /\ no_brace (js "'nobody'") = true
  /\ @renderTemplate ZHost
       (filter_placeholder [] (js "user.name") [] []
          (filter_call (js "default") (Some (js "'nobody'"))) [])
       {[ js "user" := VObj ∅ ]}
     = Ok (js "nobody")
  /\ @renderTemplate ZHost
       (filter_placeholder [] (js "user.name") [] []
          (filter_call (js "default") (Some (js "'nobody'"))) [])
       {[ js "user" := VObj {[ js "name" := VObj {[ js "toString" := VNull ]} ]} ]}
     = Raise TypeError.
Proof.
  do 4 (split; [reflexivity|]).
  assert (Harg : forall a : str, Some (js "'nobody'") = Some a ->
                                 is_argument a = true /\ no_brace a = true)
    by (intros a [= <-]; split; reflexivity).
  split.
  - assert (Hg : @getNestedValue ZHost (VObj {[ js "user" := VObj ∅ ]}) (js "user.name")
                 = Ok (Data VUndef)) by reflexivity.
    destruct (@renderTemplate_filter_placeholder ZHost (js "user.name") (js "default")
                (Some (js "'nobody'")) _ _ eq_refl eq_refl Harg Hg) as (_ & _ & Hs & _).
    apply (Hs (Data (VStr (js "nobody")))); [reflexivity|discriminate|reflexivity].
  - assert (Hg : @getNestedValue ZHost
                   (VObj {[ js "user" := VObj {[ js "name" := VObj {[ js "toString" := VNull ]} ]} ]})
                   (js "user.name") = Ok (Data (VObj {[ js "toString" := VNull ]})))
      by reflexivity.
    destruct (@renderTemplate_filter_placeholder ZHost (js "user.name") (js "default")
                (Some (js "'nobody'")) _ _ eq_refl eq_refl Harg Hg) as (_ & _ & _ & He & _).
    apply (He (Data (VObj {[ js "toString" := VNull ]}))); reflexivity.
Defined.

Lemma renderTemplate_string_filters_witness :
  is_identifier (js "name") = true
  /\ ({[ js "name" := VStr (js "aNN") ]} : gmap str (@value ZHost)) !! js "name"
     = Some (VStr (js "aNN"))
  /\ @renderTemplate ZHost (filter_placeholder [] (js "name") [] [] (js "capitalize") [])
       {[ js "name" := VStr (js "aNN") ]} = Ok (js "Ann")
  /\ @renderTemplate ZHost (filter_placeholder [] (js "name") [] [] (js "length") [])
       {[ js "name" := VStr (js "aNN") ]} = Ok (js "3").
Proof.
  split; [reflexivity|].
  assert (Hn : ({[ js "name" := VStr (js "aNN") ]} : gmap str (@value ZHost)) !! js "name"
               = Some (VStr (js "aNN"))) by reflexivity.
  split; [exact Hn|].
  destruct (@renderTemplate_string_filters ZHost (js "name") (js "aNN") _ eq_refl Hn)
    as (_ & _ & Hc & Hl & _).
  split; [exact Hc|exact Hl].
Defined.

Lemma renderTemplate_nested_loops_witness :
  is_identifier (js "a") = true /\ is_identifier (js "rows") = true
  /\ is_identifier (js "b") = true /\ is_identifier (js "cols") = true
  /\ no_brace (js "x") = true /\ no_brace (js ";") = true
  /\ ({[ js "rows" := VArr [VNull; VNull] ]} : gmap str (@value ZHost)) !! js "rows"
     = Some (VArr [VNull; VNull])
  /\ @renderTemplate ZHost
       (for_block (js "a") (js "rows") (for_block (js "b") (js "cols") (js "x") ++ js ";"))
       {[ js "rows" := VArr [VNull; VNull] ]}
     = Ok (js "{% for b in cols %}x{% for b in cols %}x;{% endfor %}").
Proof.
  do 6 (split; [reflexivity|]).
  assert (Hr : ({[ js "rows" := VArr [VNull; VNull] ]} : gmap str (@value ZHost)) !! js "rows"
               = Some (VArr [VNull; VNull])) by reflexivity.
  split; [exact Hr|].
  rewrite (@renderTemplate_nested_loops ZHost (js "a") (js "rows") (js "b") (js "cols")
             (js "x") (js ";") _ [VNull; VNull] eq_refl eq_refl eq_refl eq_refl eq_refl
             eq_refl Hr).
  reflexivity.
Defined.

Lemma renderTemplate_loop_dotted_target_witness :
  is_identifier (js "x") = true /\ is_identifier (js "user") = true
  /\ is_path (js "tags") = true /\ occurs (js "{%") (js "t" ++ js "{") = false
  /\ no_brace (js "t") = true
  /\ @renderTemplate ZHost (for_block (js "x") (js "user" ++ js "." ++ js "tags") (js "t"))
       {[ js "user" := VObj {[ js "tags" := VArr [VNull] ]} ]}
     = Ok (for_block (js "x") (js "user" ++ js "." ++ js "tags") (js "t")).
Proof.
  do 5 (split; [reflexivity|]).
  destruct (@renderTemplate_loop_dotted_target ZHost (js "x") (js "user") (js "tags") (js "t")
              {[ js "user" := VObj {[ js "tags" := VArr [VNull] ]} ]}
              eq_refl eq_refl eq_refl eq_refl) as [_ Hr].
  apply Hr. reflexivity.
Defined.

Lemma escapeTemplate_idempotent_witness :
  occurs (js "{{{") (js "a {{ b }} {% c %}") = false
  /\ occurs (js "}}}") (js "a {{ b }} {% c %}") = false
  /\ escapeTemplate (escapeTemplate (js "a {{ b }} {% c %}"))
     = escapeTemplate (js "a {{ b }} {% c %}").
Proof.
  split; [reflexivity|]. split; [reflexivity|].
  destruct (escapeTemplate_idempotent (js "a {{ b }} {% c %}") eq_refl eq_refl) as [_ Hi].
  exact Hi.
Defined.

Lemma renderTemplate_loop_placeholder_witness :
  is_identifier (js "u") = true /\ is_identifier (js "users") = true
  /\ no_brace (js "- ") = true /\ no_brace (js ";") = true /\ is_path (js "u.name") = true
  /\ @renderTemplate ZHost
       (for_block (js "u") (js "users") (js "- " ++ placeholder [] (js "u.name") [] ++ js ";"))
       {[ js "users" := VArr [VObj {[ js "name" := VStr (js "Al") ]};
                              VObj {[ js "name" := VStr (js "Bo") ]}] ]}
     = Ok (js "- Al;- Bo;").
Proof.
  do 5 (split; [reflexivity|]).
  assert (Hu : ({[ js "users" := VArr [VObj {[ js "name" := VStr (js "Al") ]};
                                       VObj {[ js "name" := VStr (js "Bo") ]}] ]}
                : gmap str (@value ZHost)) !! js "users"
               = Some (VArr [VObj {[ js "name" := VStr (js "Al") ]};
                             VObj {[ js "name" := VStr (js "Bo") ]}])) by reflexivity.
  destruct (@renderTemplate_loop_placeholder ZHost (js "u") (js "users") (js "- ") (js "u.name")
              (js ";") _ _ eq_refl eq_refl eq_refl eq_refl eq_refl Hu) as [Hok _].
  apply (Hok [js "Al"; js "Bo"]).
  constructor; [exists (Data (VStr (js "Al"))); repeat split; discriminate|].
  constructor; [exists (Data (VStr (js "Bo"))); repeat split; discriminate|constructor].
Defined.

Lemma renderTemplate_loop_layout_witness :
  is_identifier (js "x") = true /\ is_identifier (js "xs") = true
  /\ is_gap (js " ") = true /\ is_gap (js "  ") = true /\ is_gap newline = true
  /\ occurs (js "{%") (js "a" ++ js "{") = false
  /\ @renderTemplate ZHost
       ([] ++ for_block_laid [] (js " ") (js "x") (js "  ") newline (js "xs") [] (js "a") [] []
           ++ [])
       {[ js "xs" := VArr [VNull; VNull] ]}
     = Ok (js "aa").
Proof.
  do 6 (split; [reflexivity|]).
  destruct (@renderTemplate_loop_layout ZHost [] [] (js " ") (js "x") (js "  ") newline
              (js "xs") [] (js "a") [] [] [] {[ js "xs" := VArr [VNull; VNull] ]}
              eq_refl eq_refl eq_refl eq_refl eq_refl eq_refl eq_refl eq_refl eq_refl eq_refl
              eq_refl) as [_ Hr].
  rewrite Hr. vm_compute. reflexivity.
Defined.

Lemma renderTemplate_conditional_layout_witness :
  is_condition (js "a") = true /\ is_gap newline = true
  /\ occurs (js "{%") (js "yes" ++ js "{") = false
  /\ occurs (js "{%") (js "no" ++ js "{") = false
  /\ @renderTemplate ZHost
       ([] ++ if_else_block_laid [] newline (js "a") [] (js "yes") [] [] (js "no") (js "  ") []
           ++ [])
       {[ js "a" := VBool true ]}
     = Ok (js "yes").
Proof.
  do 4 (split; [reflexivity|]).
  destruct (@renderTemplate_conditional_layout ZHost [] [] newline (js "a") [] (js "yes") [] []
              (js "no") (js "  ") [] [] {[ js "a" := VBool true ]}
              eq_refl eq_refl eq_refl eq_refl eq_refl eq_refl eq_refl eq_refl eq_refl eq_refl
              eq_refl) as (_ & _ & Hr & _).
  rewrite Hr. vm_compute. reflexivity.
Defined.

Lemma escapeTemplate_clean_witness :
  occurs (js "{{{") (js "a {{ b }} {% c %}") = false
  /\ hasTemplateSyntax (escapeTemplate (js "a {{ b }} {% c %}")) = false.
Proof. split; [reflexivity|apply escapeTemplate_clean; reflexivity]. Defined.

Lemma escapeTemplate_fixed_point_witness :
  occurs (js "{{") (js "a {{ b") = true
  /\ length (js "a {{ b") < length (escapeTemplate (js "a {{ b")).
Proof.
  split; [reflexivity|].
  destruct (escapeTemplate_fixed_point (js "a {{ b")) as (_ & _ & Hl).
  apply Hl. left. reflexivity.
Defined.

(** * Where the code departs from the specification *)

(** C1, observed.  [escapeTemplate] replaces the pairs [{{] from left to
    right without looking at its own output: in a run of three braces the
    second brace of the replacement and the third brace form a new [{{]
    (and likewise for [}}]), so the escaped text of [{{{}}}] still holds
    template syntax. *)
Theorem escapeTemplate_odd_braces :
  escapeTemplate (js "{{{}}}") = js "\{\{{\}\}}"
  /\ hasTemplateSyntax (js "{{{}}}") = true
  /\ hasTemplateSyntax (escapeTemplate (js "{{{}}}")) = true.
Proof. repeat split; vm_compute; reflexivity. Qed.

(** C2, as stated, fails: an if-block nested in the chosen branch of an
    if-block is not resolved.  With [a] and [b] both true the template
    below should render to [XYZ]; the conditional stage ends the outer
    block at the first endif tag and never looks at what it inserted, so
    the opening tag of the inner block and the endif tag of the outer one
    stay in the output. *)
Lemma nested_conditional_unresolved :
  @renderTemplate ZHost (js "{% if a %}X{% if b %}Y{% endif %}Z{% endif %}")
    (<[js "a" := VBool true]> {[ js "b" := VBool true ]})
  = Ok (js "X{% if b %}YZ{% endif %}")
  /\ @renderTemplate ZHost (js "{% if a %}X{% if b %}Y{% endif %}Z{% endif %}")
       (<[js "a" := VBool true]> {[ js "b" := VBool true ]})
     <> Ok (js "XYZ").
Proof. split; [vm_compute; reflexivity|vm_compute; discriminate]. Qed.

(** C3, as stated, fails: the result of a loop is not always made of the
    renderings of its body under the extended contexts.  The stages run
    over the whole template one after the other, the conditional stage
    first: a condition in the body is decided once, under the context of
    the template, where the loop variable is not bound.  Rendered on
    their own under the extended contexts the two bodies below give
    [AL;] and [VIP:Bo;]; the loop gives [AL;BO;]. *)
Lemma conditional_before_loop :
  mapM_result
    (fun item =>
       @renderTemplate ZHost
         (js "{% if n == " ++ [dquote] ++ js "Bo" ++ [dquote]
             ++ js " %}VIP:{{n}}{% else %}{{n|upper}}{% endif %};")
         (<[js "n" := item]> {[ js "names" := VArr [VStr (js "Al"); VStr (js "Bo")] ]}))
    [VStr (js "Al"); VStr (js "Bo")]
  = Ok [js "AL;"; js "VIP:Bo;"]
  /\ @renderTemplate ZHost
       (for_block (js "n") (js "names")
          (js "{% if n == " ++ [dquote] ++ js "Bo" ++ [dquote]
              ++ js " %}VIP:{{n}}{% else %}{{n|upper}}{% endif %};"))
       {[ js "names" := VArr [VStr (js "Al"); VStr (js "Bo")] ]}
     = Ok (js "AL;BO;")
  /\ @renderTemplate ZHost
       (for_block (js "n") (js "names")
          (js "{% if n == " ++ [dquote] ++ js "Bo" ++ [dquote]
              ++ js " %}VIP:{{n}}{% else %}{{n|upper}}{% endif %};"))
       {[ js "names" := VArr [VStr (js "Al"); VStr (js "Bo")] ]}
     <> Ok (concat [js "AL;"; js "VIP:Bo;"]).
Proof. split; [vm_compute; reflexivity|split; [vm_compute; reflexivity|vm_compute; discriminate]]. Qed.


(** C5, as stated, fails: a placeholder whose value is defined is not
    always replaced by the text of that value.  The text that the
    variable stage puts in is read by the filter stage, so a string
    that holds a placeholder with a filter is expanded; and [String]
    raises on an object with a property [toString] of its own. *)
Lemma placeholder_value_expanded :
  @getNestedValue ZHost
    (VObj (<[js "a" := VStr (js "{{b|upper}}")]> {[ js "b" := VStr (js "x") ]})) (js "a")
  = Ok (Data (VStr (js "{{b|upper}}")))
  /\ @ToString ZHost (Data (VStr (js "{{b|upper}}"))) = Ok (js "{{b|upper}}")
  /\ @renderTemplate ZHost (js "{{a}}")
       (<[js "a" := VStr (js "{{b|upper}}")]> {[ js "b" := VStr (js "x") ]})
     = Ok (js "X")
  /\ @renderTemplate ZHost (js "{{a}}")
       (<[js "a" := VStr (js "{{b|upper}}")]> {[ js "b" := VStr (js "x") ]})
     <> Ok (js "{{b|upper}}")
  /\ @renderTemplate ZHost (js "{{o}}")
       {[ js "o" := VObj {[ js "toString" := VStr (js "x") ]} ]}
     = Raise TypeError.
Proof.
  repeat apply conj; try (vm_compute; reflexivity). vm_compute. discriminate.
Qed.


(** C7, as stated, fails: [default] returns the literal only when it is
    written between quotes.  For [default(0)] it returns the empty
    string, and a literal that holds the other quote is cut there. *)
Lemma default_literal_not_returned :
  @applyFilter ZHost (Data VNull) (js "default(0)") = Ok (Data (VStr []))
  /\ @renderTemplate ZHost (js "{{a|default(0)}}") ∅ = Ok []
  /\ @applyFilter ZHost (Data VNull) (js "default(" ++ dquote :: js "it's" ++ dquote :: js ")")
     = Ok (Data (VStr (js "it"))).
Proof. repeat apply conj; vm_compute; reflexivity. Qed.


(** * Further observations *)

(** The output of a loop passes through the variable and filter stages of
    the enclosing template.  A placeholder that an iteration left as it
    was, its path being undefined there, is resolved again under the
    enclosing context. *)
Theorem loop_output_resolved_again :
  @renderTemplate ZHost (js "{{i.name}};")
    (<[js "i" := VObj ∅]>
       (<[js "i" := VObj {[ js "name" := VStr (js "outer") ]}]>
          {[ js "xs" := VArr [VObj ∅] ]}))
  = Ok (js "{{i.name}};")
  /\ @renderTemplate ZHost (js "{% for i in xs %}{{i.name}};{% endfor %}")
       (<[js "i" := VObj {[ js "name" := VStr (js "outer") ]}]>
          {[ js "xs" := VArr [VObj ∅] ]})
     = Ok (js "outer;").
Proof. split; vm_compute; reflexivity. Qed.

(** [hasTemplateSyntax] reads the dot without the s flag, the stages read
    white space with [\s]: a tag broken over two lines is rendered
    although [hasTemplateSyntax] does not see it. *)
Theorem hasTemplateSyntax_misses_broken_tag :
  hasTemplateSyntax (js "{%" ++ newline ++ js "if a %}X{%" ++ newline ++ js "endif %}") = false
  /\ @renderTemplate ZHost
       (js "{%" ++ newline ++ js "if a %}X{%" ++ newline ++ js "endif %}")
       {[ js "a" := VBool true ]}
     = Ok (js "X").
Proof. split; vm_compute; reflexivity. Qed.

(** A name that every object inherits is a value for a placeholder: the
    function is printed as [String] prints it. *)
Theorem inherited_name_printed :
  @renderTemplate ZHost (js "{{constructor}}") ∅
  = Ok (js "function Object() { [native code] }").
Proof. vm_compute. reflexivity. Qed.
